(** * OpenOA dashboard backend: the aggregation pipeline of [app/main.py]

    A shallow embedding of the statistical roll-ups computed by the route
    handlers of [dashboard-backend/app/main.py], and the theorems that relate
    them to the written specification.

    Modelling conventions, used throughout:
    - a pandas float cell is a [cell]: [Some q] is the finite reading [q],
      taken as an exact rational, and [None] is NaN (a missing reading);
    - a pandas timestamp is a [stamp]: [Some s] is [s] seconds after the
      epoch and [None] is NaT, what [pd.to_datetime(..., errors='coerce')]
      leaves for a string it cannot parse;
    - a data frame is the list of its rows, in file order;
    - [Series.sum] and [Series.mean] skip NaN, a comparison with NaN or NaT is
      false, and the mean of no reading is NaN, as in pandas;
    - [x ** 2.5] is a real number, [Rpower x (5/2)], for [x > 0];
    - arithmetic is exact. The code computes in binary64, so a figure of the
      code can differ from the figure here by rounding noise, and a test the
      code makes on a computed figure (a comparison with 0, a tie of
      [round]) can come out differently when the figure lies within that
      noise of the threshold. The theorems say which of their parts rest on
      exact arithmetic;
    - the timestamps of the files are taken as the instants they denote. The
      reanalysis files are read without [utc=True]: their stamps are taken to
      carry no UTC offset, as those of the La Haute Borne files (a column with
      offsets would be time-zone aware, and comparing it with the SCADA
      stamps, which the loader makes naive, raises).

    The definitions come first: the tables, the helpers that stand for pandas
    and numpy, the handlers, the loaders with the cache and the entry point,
    then the rules as the specification words them and the sample frames.
    The theorems follow. *)

From stdpp Require Import base option list gmap strings.
From Stdlib Require Import ZArith QArith Qround Qreals Reals Rpower R_sqrt Psatz Lia List Sorted.
Import ListNotations.

Local Open Scope Q_scope.

(** ** Cells, stamps and series *)

Definition cell := option Q.
Definition stamp := option Z.

(** [Series.dropna()]: the finite readings of a column, in order. *)
Fixpoint dropna (s : list cell) : list Q :=
  match s with
  | [] => []
  | Some q :: r => q :: dropna r
  | None :: r => dropna r
  end.

Fixpoint Qsum (l : list Q) : Q :=
  match l with
  | [] => 0
  | q :: r => q + Qsum r
  end.

(** [Series.sum()]: NaN is skipped, the sum of nothing is 0. *)
Definition series_sum (s : list cell) : Q := Qsum (dropna s).

Definition Qlen (l : list Q) : Q := inject_Z (Z.of_nat (length l)).

(** [Series.mean()]: NaN is skipped, the mean of nothing is NaN. *)
Definition series_mean (s : list cell) : cell :=
  match dropna s with
  | [] => None
  | v => Some (Qsum v / Qlen v)
  end.

(** Comparisons of a cell with a constant: false on NaN. *)
Definition cell_gt (c : cell) (k : Q) : bool :=
  match c with Some q => if Qlt_le_dec k q then true else false | None => false end.
Definition cell_ge (c : cell) (k : Q) : bool :=
  match c with Some q => Qle_bool k q | None => false end.
Definition cell_le (c : cell) (k : Q) : bool :=
  match c with Some q => Qle_bool q k | None => false end.

(** Comparisons of two stamps: false as soon as one is NaT. *)
Definition stamp_ge (a b : stamp) : bool :=
  match a, b with Some x, Some y => (y <=? x)%Z | _, _ => false end.
Definition stamp_le (a b : stamp) : bool :=
  match a, b with Some x, Some y => (x <=? y)%Z | _, _ => false end.

(** [Series.min()] and [Series.max()] of a timestamp column: NaT is skipped,
    and NaT is the answer when nothing is left. *)
Fixpoint stamp_min (s : list stamp) : stamp :=
  match s with
  | [] => None
  | None :: r => stamp_min r
  | Some x :: r => match stamp_min r with Some m => Some (Z.min x m) | None => Some x end
  end.
Fixpoint stamp_max (s : list stamp) : stamp :=
  match s with
  | [] => None
  | None :: r => stamp_max r
  | Some x :: r => match stamp_max r with Some m => Some (Z.max x m) | None => Some x end
  end.

(** ** The tables (spec, data model)

    A row is indexed by what its timestamp column holds: the text of the CSV
    file before [pd.to_datetime], a [stamp] after it. *)

(** A row of the SCADA file, one turbine at one 10-minute stamp. *)
Record scada_row_ (T : Type) := {
  Date_time : T;
  Wind_turbine_name : string;
  P_avg : cell;    (* power, kW *)
  Ws_avg : cell;   (* wind speed, m/s *)
  Wa_avg : cell;   (* wind direction, deg *)
  Va_avg : cell;   (* vane angle, deg *)
  Ya_avg : cell;   (* nacelle direction, deg *)
  Ot_avg : cell    (* temperature, C *)
}.
Arguments Date_time {T} _.
Arguments Wind_turbine_name {T} _.
Arguments P_avg {T} _.
Arguments Ws_avg {T} _.
Arguments Wa_avg {T} _.
Arguments Va_avg {T} _.
Arguments Ya_avg {T} _.
Arguments Ot_avg {T} _.
Definition scada_row := scada_row_ stamp.

(** A row of the plant meter file. *)
Record plant_row_ (T : Type) := {
  time_utc : T;
  net_energy_kwh : cell;
  availability_kwh : cell;
  curtailment_kwh : cell
}.
Arguments time_utc {T} _.
Arguments net_energy_kwh {T} _.
Arguments availability_kwh {T} _.
Arguments curtailment_kwh {T} _.
Definition plant_row := plant_row_ stamp.

(** A row of the ERA5 reanalysis file. *)
Record era5_row_ (T : Type) := {
  datetime : T;
  ws_100m : cell;
  dens_100m : cell
}.
Arguments datetime {T} _.
Arguments ws_100m {T} _.
Arguments dens_100m {T} _.
Definition era5_row := era5_row_ stamp.

(** A row of the MERRA2 reanalysis file. *)
Record merra2_row_ (T : Type) := {
  merra2_datetime : T;
  ws_50m : cell;
  dens_50m : cell
}.
Arguments merra2_datetime {T} _.
Arguments ws_50m {T} _.
Arguments dens_50m {T} _.

(** A row of the asset table, as [to_dict('records')] gives it. *)
Definition asset_row := list (string * string).

(** ** Long-term correction (run_aep_analysis, run_turbine_gross_energy_analysis) *)

(** What Python's [x ** 2.5] gives on a float: a float, NaN, or, for a
    negative base, a complex number. *)
Inductive pynum :=
| PyFloat (r : R)
| PyNaN
| PyComplex.

Definition pow_2_5 (x : cell) : pynum :=
  match x with
  | None => PyNaN
  | Some q =>
      if Qlt_le_dec 0 q then PyFloat (Rpower (Q2R q) (5 / 2))
      else if Qeq_dec q 0 then PyFloat 0%R
      else PyComplex
  end.

(** [era5_df[(era5_df['datetime'] >= op_start) & (era5_df['datetime'] <= op_end)]] *)
Definition era5_op_period (op_start op_end : stamp) (era5_df : list era5_row) : list era5_row :=
  List.filter (fun r => stamp_ge (datetime r) op_start && stamp_le (datetime r) op_end) era5_df.

(** [float(era5_op_period['ws_100m'].mean()) if len(era5_op_period) > 0
     else float(era5_df['ws_100m'].mean())] *)
Definition op_period_ws (op_start op_end : stamp) (era5_df : list era5_row) : cell :=
  let era5_op := era5_op_period op_start op_end era5_df in
  if (0 <? length era5_op)%nat then series_mean (map ws_100m era5_op)
  else series_mean (map ws_100m era5_df).

(** [float(era5_df['ws_100m'].mean())] *)
Definition ltm_ws (era5_df : list era5_row) : cell := series_mean (map ws_100m era5_df).

(** [(ltm_ws / op_period_ws) ** 2.5 if op_period_ws > 0 else 1.0] *)
Definition ltm_correction_factor (ltm op : cell) : pynum :=
  if cell_gt op 0 then
    match ltm, op with
    | Some l, Some o => pow_2_5 (Some (l / o))
    | _, _ => PyNaN
    end
  else PyFloat 1%R.

(** The estimator of spec 4.3: (operational_mean, long_term_mean, correction_factor). *)
Definition long_term_correction (op_start op_end : stamp) (era5_df : list era5_row)
  : cell * cell * pynum :=
  let op := op_period_ws op_start op_end era5_df in
  let ltm := ltm_ws era5_df in
  (op, ltm, ltm_correction_factor ltm op).

(** ** Python and numpy helpers *)

(** Python's [round(x, n)] on a float: to the nearest multiple of [10^-n],
    a tie going to the even neighbour. *)
Definition py_round (q : Q) (n : nat) : Q :=
  let scale := inject_Z (10 ^ Z.of_nat n) in
  let s := q * scale in
  let f := Qfloor s in
  let d := s - inject_Z f in
  let up := inject_Z (f + 1) / scale in
  let down := inject_Z f / scale in
  if Qlt_le_dec d (1 # 2) then down
  else if Qlt_le_dec (1 # 2) d then up
  else if Z.even f then down else up.

(** [np.arange(start, stop, step)] for a positive step: [start + i * step]
    for [i] below [ceil((stop - start) / step)], in exact arithmetic. These
    are numpy's edges wherever they and the quotient are representable in
    binary64: for the steps 2, 22.5 and 30 of the fixed binnings and for a
    step [1 / 2^k]. For another step numpy rounds the edges, and the last
    edge can fall below 30 or the number of edges differ by one. *)
Definition arange (start stop step : Q) : list Q :=
  map (fun i => start + inject_Z (Z.of_nat i) * step)
      (seq 0 (Z.to_nat (Qceiling ((stop - start) / step)))).

(** [bins.searchsorted(x, side='left')] on increasing [bins]: the number of
    edges strictly below [x]. *)
Definition searchsorted_left (bins : list Q) (x : Q) : nat :=
  length (List.filter (fun e => if Qlt_le_dec e x then true else false) bins).

(** [pd.cut(x, bins, include_lowest=...)] with pandas' default [right=True]:
    the index of the interval a value falls in, [None] (NaN) when it falls in
    none. pandas computes [ids = bins.searchsorted(x, side='left')], sets
    [ids] to 1 where [include_lowest] and [x == bins[0]], masks [ids == 0]
    and [ids == len(bins)], and labels with [ids - 1]. *)
Definition cut (include_lowest : bool) (bins : list Q) (x : cell) : option nat :=
  match x with
  | None => None
  | Some v =>
      let ids :=
        match bins with
        | b0 :: _ =>
            if include_lowest && (if Qeq_dec v b0 then true else false) then 1%nat
            else searchsorted_left bins v
        | [] => searchsorted_left bins v
        end in
      if (ids =? length bins)%nat || (ids =? 0)%nat then None else Some (ids - 1)%nat
  end.

(** The number of intervals a list of edges defines. *)
Definition nbins (bins : list Q) : nat := (length bins - 1)%nat.

(** Rows of a frame whose bin is [i] ([df[df['bin'] == label_i]], or the
    group of [i] in a [groupby]). *)
Definition in_bin {A} (key : A -> option nat) (i : nat) (df : list A) : list A :=
  List.filter (fun r => match key r with Some j => (j =? i)%nat | None => false end) df.

(** [sorted(...)] on strings. *)
Fixpoint insert_sorted (s : string) (l : list string) : list string :=
  match l with
  | [] => [s]
  | x :: r => if String.leb s x then s :: l else x :: insert_sorted s r
  end.
Definition py_sorted (l : list string) : list string := fold_right insert_sorted [] l.

(** [sorted(scada_df['Wind_turbine_name'].unique())] *)
Definition turbines (scada_df : list scada_row) : list string :=
  py_sorted (nodup String.string_dec (map Wind_turbine_name scada_df)).

(** [scada_df[scada_df['Wind_turbine_name'] == turbine]] *)
Definition of_turbine (turbine : string) (scada_df : list scada_row) : list scada_row :=
  List.filter (fun r => String.eqb (Wind_turbine_name r) turbine) scada_df.

(** [x ** 3 + 0.1] and the normalised power [p / (w ** 3 + 0.1)] of pandas
    columns: NaN when an operand is NaN. A zero denominator, where numpy gives
    an infinity, cannot arise: no rational has cube -1/10. It is mapped to NaN. *)
Definition normalized_power (p w : cell) : cell :=
  match p, w with
  | Some p, Some w =>
      let d := w * w * w + (1 # 10) in
      if Qeq_dec d 0 then None else Some (p / d)
  | _, _ => None
  end.

(** [Series.max()]: NaN is skipped, NaN when nothing is left. *)
Fixpoint Qmax_list (l : list Q) : option Q :=
  match l with
  | [] => None
  | x :: r => match Qmax_list r with
              | Some m => Some (if Qlt_le_dec m x then x else m)
              | None => Some x
              end
  end.
Definition series_max (s : list cell) : cell := Qmax_list (dropna s).

(** ** Data explorer: binned aggregations

    The numbers below are those the handlers compute; the [round(x, n)] they
    apply when they write the response dictionary is modelled only where the
    rounded number is used again. Standard deviation and percentiles of the
    power curve are not modelled. *)

(** [if turbine_id: scada_df = scada_df[scada_df['Wind_turbine_name'] == turbine_id]];
    an empty string is falsy. *)
Definition filter_turbine (turbine_id : option string) (scada_df : list scada_row)
  : list scada_row :=
  match turbine_id with
  | Some t => if String.eqb t "" then scada_df else of_turbine t scada_df
  | None => scada_df
  end.

(** *** Power curve (get_power_curve_data) *)

(** [(P_avg >= 0) & (Ws_avg >= 0) & (Ws_avg <= 30)] *)
Definition power_curve_valid (scada_df : list scada_row) : list scada_row :=
  List.filter (fun r => cell_ge (P_avg r) 0 && cell_ge (Ws_avg r) 0 && cell_le (Ws_avg r) 30)
              scada_df.

(** [np.arange(0, 30 + bin_width, bin_width)], for a positive [bin_width]. *)
Definition ws_bins (bin_width : Q) : list Q := arange 0 (30 + bin_width) bin_width.

Definition ws_bin (bin_width : Q) (r : scada_row) : option nat :=
  cut false (ws_bins bin_width) (Ws_avg r).

Record curve_point := {
  cp_wind_speed : cell;   (* ws_mean *)
  cp_power_mean : cell;
  cp_count : nat          (* ('P_avg', 'count'): the readings of P_avg in the group *)
}.

(** One group of [groupby('ws_bin', observed=True)], then the [count >= 10] test. *)
Definition curve_bucket (bin_width : Q) (df : list scada_row) (i : nat) : list curve_point :=
  let g := in_bin (ws_bin bin_width) i df in
  if (0 <? length g)%nat then
    let count := length (dropna (map P_avg g)) in
    if (10 <=? count)%nat then
      [ {| cp_wind_speed := series_mean (map Ws_avg g);
           cp_power_mean := series_mean (map P_avg g);
           cp_count := count |} ]
    else []
  else [].

(** The frame the handler bins, whose length it reports as [total_data_points]. *)
Definition power_curve_frame (turbine_id : option string) (scada_df : list scada_row)
  : list scada_row :=
  power_curve_valid (filter_turbine turbine_id scada_df).

(** ["measured_curve"] *)
Definition measured_curve (turbine_id : option string) (bin_width : Q)
  (scada_df : list scada_row) : list curve_point :=
  let df := power_curve_frame turbine_id scada_df in
  flat_map (curve_bucket bin_width df) (seq 0 (nbins (ws_bins bin_width))).

(** *** Wind rose (get_wind_rose_data) *)

(** [(Wa_avg >= 0) & (Wa_avg <= 360) & (Ws_avg >= 0)] *)
Definition wind_rose_valid (scada_df : list scada_row) : list scada_row :=
  List.filter (fun r => cell_ge (Wa_avg r) 0 && cell_le (Wa_avg r) 360 && cell_ge (Ws_avg r) 0)
              scada_df.

(** [np.arange(0, 361, 22.5)]: 0, 22.5, ..., 360. *)
Definition rose_direction_bins : list Q := arange 0 361 (45 # 2).

Definition speed_bins : list Q := [0; 4; 8; 12; 16; 25].

(** [pd.cut(Wa_avg, bins=direction_bins, labels=direction_bins[:-1], include_lowest=True)] *)
Definition rose_dir_bin (r : scada_row) : option nat := cut true rose_direction_bins (Wa_avg r).

(** [pd.cut(Ws_avg, bins=speed_bins, labels=speed_labels)] *)
Definition speed_bin (r : scada_row) : option nat := cut false speed_bins (Ws_avg r).

Record rose_sector := {
  rs_direction : Q;           (* dir_center, the left edge of the sector *)
  rs_count : nat;
  rs_avg_speed : cell;
  rs_avg_power : cell;
  rs_speed_counts : list nat  (* rows of the sector per speed bin *)
}.

Definition rose_bucket (df : list scada_row) (i : nat) : list rose_sector :=
  let dir_data := in_bin rose_dir_bin i df in
  if (0 <? length dir_data)%nat then
    [ {| rs_direction := nth i rose_direction_bins 0;
         rs_count := length dir_data;
         rs_avg_speed := series_mean (map Ws_avg dir_data);
         rs_avg_power := series_mean (map P_avg dir_data);
         rs_speed_counts :=
           map (fun j => length (in_bin speed_bin j dir_data)) (seq 0 (nbins speed_bins)) |} ]
  else [].

(** ["data"], the list [wind_rose]; [total_count] is the length of the frame. *)
Definition wind_rose_frame (turbine_id : option string) (scada_df : list scada_row)
  : list scada_row :=
  wind_rose_valid (filter_turbine turbine_id scada_df).

Definition wind_rose (turbine_id : option string) (scada_df : list scada_row)
  : list rose_sector :=
  let df := wind_rose_frame turbine_id scada_df in
  flat_map (rose_bucket df) (seq 0 (nbins rose_direction_bins)).

(** ** Exceptions and float arithmetic of the analyses *)

Inductive exn :=
| FileNotFoundError (path : string)
| ParserError (path : string)          (* pd.read_csv could not read the file *)
| KeyError (column : string)           (* a column the code indexes is missing *)
| ZeroDivisionError
| TypeError                            (* round() of a complex number *)
| ValueError                           (* int() of NaN *)
| UnknownAnalysisType (analysis_type : string).

Definition result (A : Type) : Type := exn + A.

Definition bind {A B} (m : result A) (k : A -> result B) : result B :=
  match m with
  | inl e => inl e
  | inr a => k a
  end.

Notation "'doing' x ':=' m 'in' k" := (bind m (fun x => k))
  (at level 10, x name, m at level 100, k at level 200).

(** A loop that appends one entry per turn, stopped by the first turn that
    raises. *)
Fixpoint mapM {A B} (f : A -> result B) (l : list A) : result (list B) :=
  match l with
  | [] => inr []
  | a :: r => doing b := f a in doing bs := mapM f r in inr (b :: bs)
  end.

(** NaN-propagating arithmetic on cells. *)
Definition cell_map2 (f : Q -> Q -> Q) (a b : cell) : cell :=
  match a, b with
  | Some x, Some y => Some (f x y)
  | _, _ => None
  end.
Definition cell_neg (a : cell) : cell := option_map Qopp a.

(** Python's [a / b] on floats: raises on a zero divisor. *)
Definition py_truediv (a b : cell) : result cell :=
  match b with
  | Some y => if Qeq_dec y 0 then inl ZeroDivisionError else inr (cell_map2 Qdiv a b)
  | None => inr None
  end.

(** [float * (x ** 2.5)] and the sum of two such numbers. *)
Definition pynum_scale (a : cell) (x : pynum) : pynum :=
  match x, a with
  | PyComplex, _ => PyComplex
  | PyNaN, _ => PyNaN
  | PyFloat _, None => PyNaN
  | PyFloat r, Some q => PyFloat (Q2R q * r)
  end.
Definition pynum_add (x y : pynum) : pynum :=
  match x, y with
  | PyComplex, _ | _, PyComplex => PyComplex
  | PyNaN, _ | _, PyNaN => PyNaN
  | PyFloat a, PyFloat b => PyFloat (a + b)
  end.

(** Python's [round(x, n)] on such a number: [TypeError] on a complex one.
    The number is kept as it is before rounding. *)
Definition py_round_num (x : pynum) : result pynum :=
  match x with
  | PyComplex => inl TypeError
  | _ => inr x
  end.

(** Python's [a / b] on such numbers: raises on a zero divisor, also for a
    NaN numerator. A complex divisor is taken as non-zero: in the analyses a
    complex number reaches [round], which raises, before it reaches a
    division. *)
Definition pynum_truediv (a b : pynum) : result pynum :=
  match b with
  | PyFloat d =>
      if Req_dec_T d 0 then inl ZeroDivisionError
      else inr (match a with
                | PyFloat n => PyFloat (n / d)
                | other => other
                end)
  | PyNaN => inr (match a with PyComplex => PyComplex | _ => PyNaN end)
  | PyComplex => inr PyComplex
  end.

(** [Series.dt.month] and [Timestamp.year] of a stamp [s] seconds after the
    epoch, in the proleptic Gregorian calendar: the day count is shifted to
    an era of 400 years that starts on 1 March. *)
Definition month_of (s : Z) : Z :=
  let z := (s / 86400 + 719468)%Z in
  let doe := (z mod 146097)%Z in
  let yoe := ((doe - doe / 1460 + doe / 36524 - doe / 146096) / 365)%Z in
  let doy := (doe - (365 * yoe + yoe / 4 - yoe / 100))%Z in
  let mp := ((5 * doy + 2) / 153)%Z in
  if (mp <? 10)%Z then (mp + 3)%Z else (mp - 9)%Z.
Definition year_of (s : Z) : Z :=
  let z := (s / 86400 + 719468)%Z in
  let era := (z / 146097)%Z in
  let doe := (z mod 146097)%Z in
  let yoe := ((doe - doe / 1460 + doe / 36524 - doe / 146096) / 365)%Z in
  (yoe + era * 400 + (if (month_of s <=? 2)%Z then 1 else 0))%Z.

(** [date_range = Date_time.max() - Date_time.min()] and
    [years = date_range.days / 365.25]; NaN when the column has no valid stamp. *)
Definition years_of (scada_df : list scada_row) : cell :=
  match stamp_max (map Date_time scada_df), stamp_min (map Date_time scada_df) with
  | Some hi, Some lo => Some (inject_Z ((hi - lo) / 86400) / (36525 # 100))
  | _, _ => None
  end.

(** The [parameters] mapping of a request. *)
Definition params_t := gmap string string.

(** ** Monte Carlo AEP (run_aep_analysis)

    The record holds the numbers of the response before [round] is applied;
    the P90 and P99 figures, fixed multiples of [ltm_annual_energy_gwh], and
    the texts are left out. *)

Module Aep.
(** [total_energy_kwh = float(scada_df['P_avg'].sum())] *)
Definition total_energy_kwh (scada_df : list scada_row) : Q :=
  series_sum (map P_avg scada_df).

(** [annual_energy_gwh = total_energy_gwh / years if years > 0 else total_energy_gwh] *)
Definition annual_energy_gwh (scada_df : list scada_row) (years : cell) : Q :=
  let total_energy_gwh := total_energy_kwh scada_df / 1000000 in
  match years with
  | Some y => if Qlt_le_dec 0 y then total_energy_gwh / y else total_energy_gwh
  | None => total_energy_gwh
  end.

(** An entry of [monthly_production]. *)
Record month := {
  month_number : Z;
  month_energy_gwh : pynum;    (* "energy_gwh": month_energy_gwh * ltm_correction_factor *)
  month_ws : cell;
  month_cf : cell
}.

(** [scada_copy[scada_copy['month'] == month]]: a row without a valid
    stamp is in no month. *)
Definition month_df (scada_df : list scada_row) (m : Z) : list scada_row :=
  List.filter (fun r => match Date_time r with
                        | Some s => (month_of s =? m)%Z
                        | None => false
                        end) scada_df.

(** One turn of the loop over the months. *)
Definition month_entry (scada_df : list scada_row) (years : cell) (factor : pynum) (m : Z)
  : result (list month) :=
  match month_df scada_df m with
  | [] => inr []
  | rows =>
      doing per_year := py_truediv (Some (series_sum (map P_avg rows) / 1000000)) years in
      doing energy := py_round_num (pynum_scale per_year factor) in
      inr [ {| month_number := m;
               month_energy_gwh := energy;
               month_ws := series_mean (map Ws_avg rows);
               month_cf := option_map (fun p => p / 2050 * 100)
                                      (series_mean (map P_avg rows)) |} ]
  end.

(** An entry of [turbine_breakdown]. *)
Record turbine := {
  turbine_id : string;
  t_annual : pynum;              (* "annual_energy_gwh" *)
  t_cf : cell;                   (* "capacity_factor_percent" *)
  contribution_percent : pynum   (* t_annual / ltm_annual_energy_gwh * 100 *)
}.

(** One turn of the loop over the turbines. *)
Definition per_turbine (scada_df : list scada_row) (years : cell) (factor : pynum)
  (ltm_annual_energy_gwh : pynum) (name : string) : result turbine :=
  let t_df := of_turbine name scada_df in
  doing per_year := py_truediv (Some (series_sum (map P_avg t_df) / 1000000)) years in
  let t_annual := pynum_scale per_year factor in
  let t_cf := option_map (fun p => p / 2050 * 100) (series_mean (map P_avg t_df)) in
  doing annual := py_round_num t_annual in
  doing share := pynum_truediv t_annual ltm_annual_energy_gwh in
  inr {| turbine_id := name;
         t_annual := annual;
         t_cf := t_cf;
         contribution_percent := pynum_scale (Some 100) share |}.

(** [int(era5_df['datetime'].max().year - era5_df['datetime'].min().year + 1)]:
    the year of NaT is NaN, which [int] refuses. *)
Definition reanalysis_years (era5_df : list era5_row) : result Z :=
  match stamp_max (map datetime era5_df), stamp_min (map datetime era5_df) with
  | Some hi, Some lo => inr (year_of hi - year_of lo + 1)%Z
  | _, _ => inl ValueError
  end.

Record t := {
  ltm_annual_energy_gwh : pynum;    (* "net_energy_gwh" and "p50_gwh" *)
  capacity_factor_percent : cell;
  op_period_ws : cell;              (* "operational_wind_speed_ms" *)
  ltm_ws : cell;                    (* "long_term_wind_speed_ms" *)
  ltm_correction_factor : pynum;    (* "correction_factor" *)
  reanalysis_period : Z;            (* "reanalysis_years" *)
  years : cell;
  monthly_production : list month;
  turbine_breakdown : list turbine;
  total_data_points : nat;
  data_availability_percent : cell
}.
End Aep.

Definition aep_analysis (scada_df : list scada_row) (era5_df : list era5_row)
  : result Aep.t :=
  let years := years_of scada_df in
  let annual_energy_gwh := Aep.annual_energy_gwh scada_df years in
  let op_start := stamp_min (map Date_time scada_df) in
  let op_end := stamp_max (map Date_time scada_df) in
  let '(op, ltm, factor) := long_term_correction op_start op_end era5_df in
  let ltm_annual_energy_gwh := pynum_scale (Some annual_energy_gwh) factor in
  doing monthly_data :=
    mapM (Aep.month_entry scada_df years factor) (map Z.of_nat (seq 1 12)) in
  doing turbine_data :=
    mapM (Aep.per_turbine scada_df years factor ltm_annual_energy_gwh) (turbines scada_df) in
  doing net_energy_gwh := py_round_num ltm_annual_energy_gwh in
  doing correction_factor := py_round_num factor in
  doing reanalysis_years := Aep.reanalysis_years era5_df in
  doing availability :=
    py_truediv (Some (inject_Z (Z.of_nat (length scada_df))))
               (cell_map2 Qmult (Some (4 * (36525 # 100) * 24 * 6)) years) in
  inr {| Aep.ltm_annual_energy_gwh := net_energy_gwh;
         Aep.capacity_factor_percent :=
           option_map (fun p => p / 2050 * 100) (series_mean (map P_avg scada_df));
         Aep.op_period_ws := op;
         Aep.ltm_ws := ltm;
         Aep.ltm_correction_factor := correction_factor;
         Aep.reanalysis_period := reanalysis_years;
         Aep.years := years;
         Aep.monthly_production := concat monthly_data;
         Aep.turbine_breakdown := turbine_data;
         Aep.total_data_points := length scada_df;
         Aep.data_availability_percent := cell_map2 Qmult availability (Some 100) |}.

(** ** Electrical losses (run_electrical_losses_analysis, totals) *)

Module Electrical.
Record t := {
  turbine_energy_kwh : Q;
  meter_energy_kwh : Q;
  electrical_loss_kwh : Q;
  electrical_loss_percent : Q
}.
End Electrical.

Definition electrical_losses_analysis (scada_df : list scada_row) (plant_df : list plant_row)
  : Electrical.t :=
  let turbine_energy_kwh := series_sum (map P_avg scada_df) * (10 / 60) in
  let meter_energy_kwh := series_sum (map net_energy_kwh plant_df) in
  if Qlt_le_dec 0 turbine_energy_kwh then
    let electrical_loss_kwh := turbine_energy_kwh - meter_energy_kwh in
    {| Electrical.turbine_energy_kwh := turbine_energy_kwh;
       Electrical.meter_energy_kwh := meter_energy_kwh;
       Electrical.electrical_loss_kwh := electrical_loss_kwh;
       Electrical.electrical_loss_percent := electrical_loss_kwh / turbine_energy_kwh * 100 |}
  else
    {| Electrical.turbine_energy_kwh := turbine_energy_kwh;
       Electrical.meter_energy_kwh := meter_energy_kwh;
       Electrical.electrical_loss_kwh := 0;
       Electrical.electrical_loss_percent := 0 |}.

(** ** Wake losses (run_wake_losses_analysis, the direction sectors) *)

(** Python's [sum] over floats: NaN is not skipped. *)
Definition py_sum (l : list cell) : cell := fold_right (cell_map2 Qplus) (Some 0) l.

Module Wake.
(** [np.arange(0, 361, 30)]: 0, 30, ..., 360. *)
Definition direction_bins : list Q := arange 0 361 30.

(** [pd.cut(Wa_avg, bins=direction_bins, labels=direction_bins[:-1], include_lowest=True)] *)
Definition dir_bin (r : scada_row) : option nat := cut true direction_bins (Wa_avg r).

(** [dir_df.groupby('Wind_turbine_name').agg({'P_avg': 'mean', 'Ws_avg': 'mean'})]
    with its column [normalized_power]: one cell per turbine of the sector. *)
Definition turbine_perf (dir_df : list scada_row) : list cell :=
  map (fun t => let g := of_turbine t dir_df in
                normalized_power (series_mean (map P_avg g)) (series_mean (map Ws_avg g)))
      (turbines dir_df).

(** [(max_norm - avg_norm) / max_norm * 100 if max_norm > 0 else 0] *)
Definition wake_loss (normalized : list cell) : cell :=
  let max_norm := series_max normalized in
  let avg_norm := series_mean normalized in
  if cell_gt max_norm 0 then
    cell_map2 Qmult (cell_map2 Qdiv (cell_map2 Qminus max_norm avg_norm) max_norm) (Some 100)
  else Some 0.

Record direction_loss := {
  direction_center_deg : Z;
  wake_loss_percent : cell;    (* round(float(wake_loss), 2) *)
  sample_count : nat;
  avg_wind_speed_ms : cell
}.

(** One turn of the loop over [direction_bins[:-1]]. The loss is rounded
    here because the overall loss is computed from the rounded figures;
    [py_round] rounds the exact loss, so where that loss is a tie of
    [round] or within rounding noise of one, the code's figure can be the
    other neighbour. *)
Definition sector (scada_df : list scada_row) (i : nat) : list direction_loss :=
  let dir_df := in_bin dir_bin i scada_df in
  if (length dir_df <? 100)%nat then []
  else
    let perf := turbine_perf dir_df in
    if (1 <? length perf)%nat then
      [ {| direction_center_deg := Qfloor (nth i direction_bins 0);
           wake_loss_percent := option_map (fun q => py_round q 2) (wake_loss perf);
           sample_count := length dir_df;
           avg_wind_speed_ms := series_mean (map Ws_avg dir_df) |} ]
    else [].

Definition direction_losses (scada_df : list scada_row) : list direction_loss :=
  flat_map (sector scada_df) (seq 0 (nbins direction_bins)).

(** The overall loss, weighted by sample count. *)
Definition weighted_loss (losses : list direction_loss) : cell :=
  match losses with
  | [] => Some 0
  | _ =>
      let total_samples := fold_right Nat.add 0%nat (map sample_count losses) in
      cell_map2 Qdiv
        (py_sum (map (fun d => cell_map2 Qmult (wake_loss_percent d)
                                 (Some (inject_Z (Z.of_nat (sample_count d))))) losses))
        (Some (inject_Z (Z.of_nat total_samples)))
  end.

Record t := {
  direction_dependent_losses : list direction_loss;
  overall_loss_percent : cell
}.
End Wake.

Definition wake_losses_analysis (scada_df : list scada_row) : Wake.t :=
  let losses := Wake.direction_losses scada_df in
  {| Wake.direction_dependent_losses := losses;
     Wake.overall_loss_percent := Wake.weighted_loss losses |}.

(** ** Turbine long-term gross energy (run_turbine_gross_energy_analysis) *)


Module Gross.
Record turbine := {
  turbine_id : string;
  operational_energy_kwh : Q;
  availability : Q;
  gross_energy_kwh : Q;
  annual_gross_gwh : pynum
}.

(** [t_df[(t_df['P_avg'] > 10) & (t_df['Ws_avg'] >= 3) & (t_df['Ws_avg'] <= 25)]] *)
Definition normal (t_df : list scada_row) : list scada_row :=
  List.filter (fun r => cell_gt (P_avg r) 10 && cell_ge (Ws_avg r) 3 && cell_le (Ws_avg r) 25)
              t_df.

(** One turn of the loop over the turbines. *)
Definition per_turbine (scada_df : list scada_row) (years : cell) (ltm_correction : pynum)
  (name : string) : result turbine :=
  let t_df := of_turbine name scada_df in
  let normal_df := normal t_df in
  let operational_energy_kwh := series_sum (map P_avg normal_df) * (10 / 60) in
  let availability :=
    if (0 <? length t_df)%nat
    then inject_Z (Z.of_nat (length normal_df)) / inject_Z (Z.of_nat (length t_df))
    else 1 in
  let estimated_losses := 6 # 100 in
  let gross_energy_kwh := operational_energy_kwh / (1 - estimated_losses) in
  doing per_year := py_truediv (Some (gross_energy_kwh / 1000000)) years in
  doing annual := py_round_num (pynum_scale per_year ltm_correction) in
  inr {| turbine_id := name;
         operational_energy_kwh := operational_energy_kwh;
         availability := availability;
         gross_energy_kwh := gross_energy_kwh;
         annual_gross_gwh := annual |}.

Record t := {
  era5_ltm_ws : cell;
  era5_op_ws : cell;
  ltm_correction : pynum;
  turbine_results : list turbine;
  total_gross : pynum
}.
End Gross.

Definition turbine_gross_energy_analysis (scada_df : list scada_row) (era5_df : list era5_row)
  : result Gross.t :=
  let years := years_of scada_df in
  let op_start := stamp_min (map Date_time scada_df) in
  let op_end := stamp_max (map Date_time scada_df) in
  let '(op, ltm, factor) := long_term_correction op_start op_end era5_df in
  doing results := mapM (Gross.per_turbine scada_df years factor) (turbines scada_df) in
  doing total_gross :=
    py_round_num (fold_left pynum_add (map Gross.annual_gross_gwh results) (PyFloat 0%R)) in
  doing correction_factor := py_round_num factor in
  inr {| Gross.era5_ltm_ws := ltm;
         Gross.era5_op_ws := op;
         Gross.ltm_correction := correction_factor;
         Gross.turbine_results := results;
         Gross.total_gross := total_gross |}.

(** ** Static yaw misalignment (run_yaw_misalignment_analysis) *)

(** [Series.idxmax()] on a frame with a fresh index: the position of the
    first largest reading, NaN skipped. *)
Fixpoint idxmax_from (l : list cell) (i : nat) (best : option (nat * Q)) : option nat :=
  match l with
  | [] => option_map fst best
  | None :: r => idxmax_from r (S i) best
  | Some x :: r =>
      match best with
      | Some (_, b) =>
          if Qlt_le_dec b x then idxmax_from r (S i) (Some (i, x))
          else idxmax_from r (S i) best
      | None => idxmax_from r (S i) (Some (i, x))
      end
  end.
Definition idxmax (l : list cell) : option nat := idxmax_from l 0 None.

Module Yaw.
(** [t_df[(t_df['P_avg'] > 100) & (t_df['Ws_avg'] >= 5) & (t_df['Ws_avg'] <= 10)]] *)
Definition operating (t_df : list scada_row) : list scada_row :=
  List.filter (fun r => cell_gt (P_avg r) 100 && cell_ge (Ws_avg r) 5 && cell_le (Ws_avg r) 10)
              t_df.

(** [np.arange(-30, 31, 2)]: -30, -28, ..., 30. *)
Definition vane_bins : list Q := arange (-30) 31 2.

(** [pd.cut(t_df['Va_avg'], bins=vane_bins)] *)
Definition vane_bin (r : scada_row) : option nat := cut false vane_bins (Va_avg r).

(** A row of [vane_power]. *)
Record vane_row := {
  power_mean : cell;
  count : nat;
  vane_mean : cell;
  ws_mean : cell
}.

Definition vane_group (t_df : list scada_row) (i : nat) : list vane_row :=
  let g := in_bin vane_bin i t_df in
  if (0 <? length g)%nat then
    [ {| power_mean := series_mean (map P_avg g);
         count := length (dropna (map P_avg g));
         vane_mean := series_mean (map Va_avg g);
         ws_mean := series_mean (map Ws_avg g) |} ]
  else [].

(** [t_df.groupby('vane_bin', observed=True).agg(...)]: every vane bin that
    holds a row, in bin order. *)
Definition vane_groups (t_df : list scada_row) : list vane_row :=
  flat_map (vane_group t_df) (seq 0 (nbins vane_bins)).

(** [vane_power[vane_power['count'] >= 50].reset_index()] *)
Definition vane_power (t_df : list scada_row) : list vane_row :=
  List.filter (fun b => (50 <=? count b)%nat) (vane_groups t_df).

(** [vane_power['power_mean'] / (vane_power['ws_mean'] ** 3 + 0.1)] *)
Definition norm_power (b : vane_row) : cell := normalized_power (power_mean b) (ws_mean b).

Record turbine := {
  turbine_id : string;
  misalignment : cell;     (* -optimal_vane *)
  optimal_vane : cell;
  sample_count : nat;
  vane_power_curve : list vane_row   (* one entry per row of vane_power *)
}.

(** The body of the loop over the turbines, after the filter. *)
Definition estimate (name : string) (t_df : list scada_row) : list turbine :=
  if (length t_df <? 1000)%nat then []
  else
    let bins := vane_power t_df in
    if (3 <? length bins)%nat then
      match idxmax (map norm_power bins) with
      | Some optimal_idx =>
          let optimal_vane := vane_mean (nth optimal_idx bins
                                {| power_mean := None; count := 0;
                                   vane_mean := None; ws_mean := None |}) in
          [ {| turbine_id := name;
               misalignment := cell_neg optimal_vane;
               optimal_vane := optimal_vane;
               sample_count := length t_df;
               vane_power_curve := bins |} ]
      | None => []
      end
    else [].

Definition turbine_results (scada_df : list scada_row) : list turbine :=
  flat_map (fun name => estimate name (operating (of_turbine name scada_df)))
           (turbines scada_df).

Record t := {
  results : list turbine;
  turbines_analyzed : nat
}.
End Yaw.

Definition yaw_misalignment_analysis (scada_df : list scada_row) : Yaw.t :=
  let results := Yaw.turbine_results scada_df in
  {| Yaw.results := results; Yaw.turbines_analyzed := length results |}.

(** ** EYA gap analysis (run_eya_gap_analysis, the operational figures) *)

Module Eya.
Record t := {
  turbine_energy : cell;     (* GWh/year *)
  meter_energy : cell;
  total_potential : cell;
  avail_loss : cell;
  curtail_loss : cell;
  elec_loss : cell;
  gross_energy : cell;
  wake_loss : cell
}.
End Eya.

(** The divisors are exact here: [years] is a whole number of days over
    365.25 and is 0 exactly when the code's is; the other two divisors are
    computed figures, and the code's binary64 figure can differ from 0 where
    the exact one is 0. *)
Definition eya_gap_analysis (scada_df : list scada_row) (plant_df : list plant_row)
  : result Eya.t :=
  let years := years_of scada_df in
  let net := series_sum (map net_energy_kwh plant_df) in
  let avail := series_sum (map availability_kwh plant_df) in
  let curtail := series_sum (map curtailment_kwh plant_df) in
  doing turbine_energy :=
    py_truediv (Some (series_sum (map P_avg scada_df) * (10 / 60) / 1000000)) years in
  doing meter_energy := py_truediv (Some (net / 1000000)) years in
  doing total_potential := py_truediv (Some ((net + avail + curtail) / 1000000)) years in
  doing avail_loss := py_truediv (Some (avail / 1000000)) years in
  doing curtail_loss := py_truediv (Some (curtail / 1000000)) years in
  let elec_loss :=
    match turbine_energy, meter_energy with
    | Some te, Some me => if Qlt_le_dec me te then Some (te - me) else Some 0
    | _, _ => Some 0
    end in
  let wake_loss_percent := 75 # 10 in
  doing a := py_truediv avail_loss total_potential in
  doing c := py_truediv curtail_loss total_potential in
  doing e := py_truediv elec_loss total_potential in
  let denominator :=
    cell_map2 Qminus
      (cell_map2 Qminus (cell_map2 Qminus (Some (1 - wake_loss_percent / 100)) a) c) e in
  doing gross_energy := py_truediv total_potential denominator in
  inr {| Eya.turbine_energy := turbine_energy;
         Eya.meter_energy := meter_energy;
         Eya.total_potential := total_potential;
         Eya.avail_loss := avail_loss;
         Eya.curtail_loss := curtail_loss;
         Eya.elec_loss := elec_loss;
         Eya.gross_energy := gross_energy;
         Eya.wake_loss :=
           cell_map2 Qdiv (cell_map2 Qmult gross_energy (Some wake_loss_percent)) (Some 100) |}.

(** ** Loader, cache and dispatcher *)

(** What a CSV file holds once tokenised: one of the five tables of the
    data set, or some other table, known by its header only. *)
Inductive table (T : Type) :=
| ScadaTable (rows : list (scada_row_ T))
| PlantTable (rows : list (plant_row_ T))
| AssetTable (rows : list asset_row)
| Era5Table (rows : list (era5_row_ T))
| Merra2Table (rows : list (merra2_row_ T))
| OtherTable (header : list string).
Arguments ScadaTable {T} _.
Arguments PlantTable {T} _.
Arguments AssetTable {T} _.
Arguments Era5Table {T} _.
Arguments Merra2Table {T} _.
Arguments OtherTable {T} _.

Definition columns {T} (t : table T) : list string :=
  match t with
  | ScadaTable _ => ["Date_time"; "Wind_turbine_name"; "P_avg"; "Ws_avg"; "Wa_avg"; "Va_avg";
                     "Ya_avg"; "Ot_avg"]
  | PlantTable _ => ["time_utc"; "net_energy_kwh"; "availability_kwh"; "curtailment_kwh"]
  | AssetTable rows => match rows with r :: _ => map fst r | [] => [] end
  | Era5Table _ => ["datetime"; "ws_100m"; "dens_100m"]
  | Merra2Table _ => ["datetime"; "ws_50m"; "dens_50m"]
  | OtherTable header => header
  end.

Definition has_column {T} (c : string) (t : table T) : bool :=
  existsb (String.eqb c) (columns t).

(** A file on disk: text [pd.read_csv] cannot read, or a table whose
    timestamps are still text. *)
Inductive file :=
| Unparseable
| Csv (t : table string).

(** The data directory: path to file. *)
Definition disk := gmap string file.

(** A loaded data frame. *)
Definition frame := table stamp.

(** The five data sets of [LA_HAUTE_BORNE_PATH]. *)
Inductive dataset := Scada | Plant | Asset | Era5 | Merra2.

Definition path_of (d : dataset) : string :=
  match d with
  | Scada => "la_haute_borne/la-haute-borne-data-2014-2015.csv"
  | Plant => "la_haute_borne/plant_data.csv"
  | Asset => "la_haute_borne/la-haute-borne_asset_table.csv"
  | Era5 => "la_haute_borne/era5_wind_la_haute_borne.csv"
  | Merra2 => "la_haute_borne/merra2_la_haute_borne.csv"
  end.

(** The cache key the handlers use for a data set. *)
Definition key_of (d : dataset) : string :=
  match d with
  | Scada => "scada"
  | Plant => "plant"
  | Asset => "asset"
  | Era5 => "era5"
  | Merra2 => "merra2"
  end.

(** The timestamp column a loader converts, and whether it passes [utc=True];
    the asset loader converts none. *)
Definition time_column (d : dataset) : option (string * bool) :=
  match d with
  | Scada => Some ("Date_time", true)
  | Plant => Some ("time_utc", true)
  | Asset => None
  | Era5 | Merra2 => Some ("datetime", false)
  end.

(** [pd.read_csv(path)] *)
Definition read_csv (fs : disk) (path : string) : result (table string) :=
  match fs !! path with
  | None => inl (FileNotFoundError path)
  | Some Unparseable => inl (ParserError path)
  | Some (Csv t) => inr t
  end.

(** A table returned as read; only an asset table is looked into afterwards. *)
Definition as_read (t : table string) : frame :=
  match t with
  | AssetTable rows => AssetTable rows
  | other => OtherTable (columns other)
  end.

Section Loader.
(** pandas' timestamp parser, with its [utc] flag: the instant a string
    denotes, NaT ([None]) when it denotes none ([errors='coerce']). *)
Variable parse_datetime : bool -> string -> stamp.

(** [df[col] = pd.to_datetime(df[col], utc=..., errors='coerce')], followed
    for [utc=True] by [tz_localize(None)]. *)
Definition to_datetime (utc : bool) (t : table string) : frame :=
  match t with
  | ScadaTable rows =>
      ScadaTable (map (fun r =>
        {| Date_time := parse_datetime utc (Date_time r);
           Wind_turbine_name := Wind_turbine_name r;
           P_avg := P_avg r; Ws_avg := Ws_avg r; Wa_avg := Wa_avg r;
           Va_avg := Va_avg r; Ya_avg := Ya_avg r; Ot_avg := Ot_avg r |}) rows)
  | PlantTable rows =>
      PlantTable (map (fun r =>
        {| time_utc := parse_datetime utc (time_utc r);
           net_energy_kwh := net_energy_kwh r;
           availability_kwh := availability_kwh r;
           curtailment_kwh := curtailment_kwh r |}) rows)
  | AssetTable rows => AssetTable rows
  | Era5Table rows =>
      Era5Table (map (fun r =>
        {| datetime := parse_datetime utc (datetime r);
           ws_100m := ws_100m r; dens_100m := dens_100m r |}) rows)
  | Merra2Table rows =>
      Merra2Table (map (fun r =>
        {| merra2_datetime := parse_datetime utc (merra2_datetime r);
           ws_50m := ws_50m r; dens_50m := dens_50m r |}) rows)
  | OtherTable header => OtherTable header
  end.

(** The five loaders ([load_scada_data], [load_plant_data], [load_asset_data],
    [load_era5_data], [load_merra2_data]) share one shape. *)
Definition load (d : dataset) (fs : disk) : result frame :=
  let path := path_of d in
  if negb (bool_decide (is_Some (fs !! path))) then inl (FileNotFoundError path)
  else
    doing df := read_csv fs path in
    match time_column d with
    | Some (col, utc) =>
        if has_column col df then inr (to_datetime utc df) else inl (KeyError col)
    | None => inr (as_read df)
    end.

Definition load_scada_data := load Scada.
Definition load_plant_data := load Plant.
Definition load_asset_data := load Asset.
Definition load_era5_data := load Era5.
Definition load_merra2_data := load Merra2.
End Loader.

(** ** The read-through cache and the analysis entry point *)

(** A computation that reads and fills the cache [_data_cache], a dictionary
    from key to loaded frame, and may raise. *)
Definition M (A : Type) : Type := gmap string frame -> result A * gmap string frame.

Definition ret {A} (a : A) : M A := fun c => (inr a, c).
Definition raise {A} (e : exn) : M A := fun c => (inl e, c).
Definition lift {A} (r : result A) : M A := fun c => (r, c).
Definition bindM {A B} (m : M A) (k : A -> M B) : M B :=
  fun c => match m c with
           | (inl e, c') => (inl e, c')
           | (inr a, c') => k a c'
           end.

Notation "'run' x ':=' m 'in' k" := (bindM m (fun x => k))
  (at level 10, x name, m at level 100, k at level 200).

(** [get_cached_data(key, loader_func)]: the loader runs on a miss only, and
    a loader that raises leaves the cache as it was. No handler writes to a
    cached frame: each one that adds a column works on a [copy()]. *)
Definition get_cached_data (key : string) (loader_func : result frame) : M frame :=
  fun c => match c !! key with
           | Some df => (inr df, c)
           | None => match loader_func with
                     | inl e => (inl e, c)
                     | inr df => (inr df, <[key := df]> c)
                     end
           end.

(** [df[col]] on a frame expected to be of a given table: a frame of another
    shape is taken to lack [col], the first column the analysis indexes. *)
Definition scada_of (col : string) (df : frame) : result (list scada_row) :=
  match df with ScadaTable rows => inr rows | _ => inl (KeyError col) end.
Definition plant_of (col : string) (df : frame) : result (list plant_row) :=
  match df with PlantTable rows => inr rows | _ => inl (KeyError col) end.
Definition era5_of (col : string) (df : frame) : result (list era5_row) :=
  match df with Era5Table rows => inr rows | _ => inl (KeyError col) end.

(** The [results] dictionary of each analysis. *)
Inductive analysis_results :=
| AepResults (r : Aep.t)
| ElectricalResults (r : Electrical.t)
| WakeResults (r : Wake.t) (turbine_layout : frame)
| GrossResults (r : Gross.t)
| YawResults (r : Yaw.t)
| EyaResults (r : Eya.t).

Record AnalysisRequest := {
  analysis_type : string;
  use_example_data : bool;
  parameters : option params_t
}.

Record AnalysisResponse := {
  status : string;
  response_analysis_type : string;
  results : analysis_results;
  timestamp : Q;                   (* datetime.now(timezone.utc), seconds *)
  message : string;
  execution_time_seconds : Q
}.

(** The three readings of the clock [run_analysis] makes, in order. *)
Record clock := {
  start_time : Q;     (* start_time = datetime.now() *)
  end_time : Q;       (* datetime.now() in execution_time *)
  now_utc : Q         (* datetime.now(timezone.utc) *)
}.

Inductive HTTPException :=
| Http503                      (* OpenOA library not available *)
| Http500 (detail : exn).      (* Analysis failed: str(e) *)

Section Service.
Variable parse_datetime : bool -> string -> stamp.
Variable fs : disk.

Definition cached (d : dataset) : M frame :=
  get_cached_data (key_of d) (load parse_datetime d fs).

Definition run_aep_analysis (params : params_t) : M analysis_results :=
  run scada_df := cached Scada in
  run era5_df := cached Era5 in
  run scada := lift (scada_of "P_avg" scada_df) in
  run era5 := lift (era5_of "datetime" era5_df) in
  run r := lift (aep_analysis scada era5) in
  ret (AepResults r).

Definition run_electrical_losses_analysis (params : params_t) : M analysis_results :=
  run scada_df := cached Scada in
  run plant_df := cached Plant in
  run scada := lift (scada_of "P_avg" scada_df) in
  run plant := lift (plant_of "net_energy_kwh" plant_df) in
  ret (ElectricalResults (electrical_losses_analysis scada plant)).

Definition run_wake_losses_analysis (params : params_t) : M analysis_results :=
  run scada_df := cached Scada in
  run asset_df := cached Asset in
  run scada := lift (scada_of "Wa_avg" scada_df) in
  ret (WakeResults (wake_losses_analysis scada) asset_df).

Definition run_turbine_gross_energy_analysis (params : params_t) : M analysis_results :=
  run scada_df := cached Scada in
  run era5_df := cached Era5 in
  run scada := lift (scada_of "Date_time" scada_df) in
  run era5 := lift (era5_of "ws_100m" era5_df) in
  run r := lift (turbine_gross_energy_analysis scada era5) in
  ret (GrossResults r).

Definition run_yaw_misalignment_analysis (params : params_t) : M analysis_results :=
  run scada_df := cached Scada in
  run scada := lift (scada_of "Wind_turbine_name" scada_df) in
  ret (YawResults (yaw_misalignment_analysis scada)).

Definition run_eya_gap_analysis (params : params_t) : M analysis_results :=
  run scada_df := cached Scada in
  run plant_df := cached Plant in
  run scada := lift (scada_of "Date_time" scada_df) in
  run plant := lift (plant_of "net_energy_kwh" plant_df) in
  run r := lift (eya_gap_analysis scada plant) in
  ret (EyaResults r).

(** The routing of [run_analysis]; an unknown type raises inside the [try]. *)
Definition route (analysis_type : string) (params : params_t) : M analysis_results :=
  if String.eqb analysis_type "monte_carlo_aep" || String.eqb analysis_type "aep"
  then run_aep_analysis params
  else if String.eqb analysis_type "electrical_losses"
  then run_electrical_losses_analysis params
  else if String.eqb analysis_type "wake_losses"
  then run_wake_losses_analysis params
  else if String.eqb analysis_type "turbine_gross_energy"
  then run_turbine_gross_energy_analysis params
  else if String.eqb analysis_type "yaw_misalignment"
  then run_yaw_misalignment_analysis params
  else if String.eqb analysis_type "eya_gap"
  then run_eya_gap_analysis params
  else raise (UnknownAnalysisType analysis_type).

(** [run_analysis(request)]. *)
Definition run_analysis (openoa_available : bool) (clk : clock) (request : AnalysisRequest)
  (c : gmap string frame)
  : (HTTPException + AnalysisResponse) * gmap string frame :=
  if negb openoa_available then (inl Http503, c)
  else
    let params := match parameters request with Some p => p | None => ∅ end in
    match route (analysis_type request) params c with
    | (inl e, c') => (inl (Http500 e), c')
    | (inr res, c') =>
        let execution_time := end_time clk - start_time clk in
        (inr {| status := "success";
                response_analysis_type := analysis_type request;
                results := res;
                timestamp := now_utc clk;
                message := "Analysis completed successfully using real OpenOA data";
                execution_time_seconds := py_round execution_time 2 |}, c')
    end.
End Service.

(** The factor as spec 4.3 writes it, [(long_term_mean / operational_mean) ** 2.5],
    with no guard on the operational mean. *)
Definition spec_factor (ltm op : cell) : pynum := pow_2_5 (cell_map2 Qdiv ltm op).

(** A reanalysis table with a negative reading, and the window that holds only it. *)
Definition era5_negative : list era5_row :=
  [ {| datetime := Some 0%Z; ws_100m := Some (-4); dens_100m := None |};
    {| datetime := Some 10%Z; ws_100m := Some 1; dens_100m := None |} ].

(** ** Sample frames *)

(** A SCADA row with the readings the analyses use. *)
Definition reading (name : string) (t : Z) (p ws wa va : Q) : scada_row :=
  {| Date_time := Some t; Wind_turbine_name := name;
     P_avg := Some p; Ws_avg := Some ws; Wa_avg := Some wa; Va_avg := Some va;
     Ya_avg := None; Ot_avg := None |}.

(** [n] consecutive 10-minute rows of one turbine with constant readings. *)
Definition steady (name : string) (n : nat) (p ws wa va : Q) : list scada_row :=
  map (fun k => reading name (600 * Z.of_nat k) p ws wa va) (seq 0 n).

(** One direction sector, two turbines, one of them drawing power from the grid. *)
Definition scada_negative_power : list scada_row :=
  steady "T1" 50 11 1 15 0 ++ steady "T2" 50 (-33) 1 15 0.

(** ** The binning rule as the specification words it *)



(** ** Rows that reach the output of a binned aggregation *)

(** Whether a row lies in one of the [nb] buckets, and in one that is kept. *)
Definition emitted_row {A} (key : A -> option nat) (nb : nat) (keep : nat -> bool) (r : A)
  : bool :=
  match key r with
  | Some j => (j <? nb)%nat && keep j
  | None => false
  end.

(** One direction sector holding 100 rows of a single turbine. *)
Definition scada_single_turbine : list scada_row := steady "T1" 100 500 8 15 0.

(** A few rows of two turbines, far fewer than any minimum count. *)
Definition scada_small : list scada_row :=
  steady "T1" 12 500 (7 # 2) 15 0 ++ steady "T2" 3 900 9 200 1.

(** Whether the wake analysis emits the sector of index [i]: at least 100
    rows, and more than one turbine. *)
Definition wake_keep (scada_df : list scada_row) (i : nat) : bool :=
  let g := in_bin Wake.dir_bin i scada_df in
  negb (length g <? 100)%nat && (1 <? length (Wake.turbine_perf g))%nat.

(** ** The yaw estimate as the specification words it *)



(** ** A sample data directory *)

(** A parser that knows four timestamps: three with the offset of the SCADA
    file, one without, as in the reanalysis files. *)
Definition sample_parse (utc : bool) (s : string) : stamp :=
  if String.eqb s "2014-01-01 00:00:00+01:00" then Some 1388530800%Z
  else if String.eqb s "2014-01-01 00:10:00+01:00" then Some 1388531400%Z
  else if String.eqb s "2014-01-03 00:00:00+01:00" then Some 1388703600%Z
  else if String.eqb s "2014-01-01 00:00:00" then Some 1388534400%Z
  else None.

Definition raw_reading (name : string) (t : string) (p ws : Q) : scada_row_ string :=
  {| Date_time := t; Wind_turbine_name := name;
     P_avg := Some p; Ws_avg := Some ws; Wa_avg := Some 15; Va_avg := Some 0;
     Ya_avg := None; Ot_avg := None |}.

(** The SCADA file has a row whose timestamp is not one; there is no plant file. *)
Definition sample_disk : disk :=
  {[ path_of Scada :=
       Csv (ScadaTable [ raw_reading "T1" "2014-01-01 00:00:00+01:00" 100 6;
                         raw_reading "T1" "not a date" 200 7;
                         raw_reading "T1" "2014-01-01 00:10:00+01:00" 300 8 ]);
     path_of Era5 :=
       Csv (Era5Table [ {| datetime := "2014-01-01 00:00:00";
                           ws_100m := Some 6; dens_100m := Some (12 # 10) |} ]);
     path_of Asset := Unparseable ]}.

(** The same directory with a plant file of two readings. *)
Definition sample_disk_with_plant : disk :=
  <[ path_of Plant :=
       Csv (PlantTable [ {| time_utc := "2014-01-01 00:00:00+01:00";
                            net_energy_kwh := Some 90;
                            availability_kwh := Some 6; curtailment_kwh := Some 4 |};
                         {| time_utc := "2014-01-01 00:10:00+01:00";
                            net_energy_kwh := Some 5;
                            availability_kwh := None; curtailment_kwh := Some 0 |} ]) ]>
  sample_disk.

(** A SCADA file that lacks every column but the timestamp, and an asset file
    whose only column is a remark. *)
Definition bare_disk : disk :=
  {[ path_of Scada := Csv (OtherTable ["Date_time"]);
     path_of Asset := Csv (AssetTable [[("remark", "none")]]) ]}.

(** ** Caches that agree with the disk *)

(** Every cached frame is the one its loader returns for the files on disk. *)
Definition cache_consistent (parse_datetime : bool -> string -> stamp) (fs : disk)
  (c : gmap string frame) : Prop :=
  forall d df, c !! key_of d = Some df -> load parse_datetime d fs = inr df.

(** A computation whose outcome is [v] on every cache that agrees with the
    disk, and which leaves such a cache. *)
Definition yields {A} (parse_datetime : bool -> string -> stamp) (fs : disk)
  (m : M A) (v : result A) : Prop :=
  forall c, cache_consistent parse_datetime fs c ->
            fst (m c) = v /\ cache_consistent parse_datetime fs (snd (m c)).

(** Two runs that read the same time of day but do not take equally long. *)
Definition clock_fast : clock := {| start_time := 0; end_time := 1; now_utc := 5 |}.
Definition clock_slow : clock := {| start_time := 0; end_time := 2; now_utc := 5 |}.

Definition aep_request : AnalysisRequest :=
  {| analysis_type := "aep"; use_example_data := true; parameters := None |}.

Definition electrical_request : AnalysisRequest :=
  {| analysis_type := "electrical_losses"; use_example_data := true; parameters := None |}.

(** Spec 8: three rows of turbine T1, 100, 200 and 300 kW, 10 minutes apart. *)
Definition scada_three : list scada_row :=
  [ reading "T1" 0 100 6 15 0; reading "T1" 600 200 7 15 0; reading "T1" 1200 300 8 15 0 ].

(** The same three readings, the last one a day after the first. *)
Definition scada_day : list scada_row :=
  [ reading "T1" 0 100 6 15 0; reading "T1" 600 200 7 15 0; reading "T1" 86400 300 8 15 0 ].

(** A reanalysis table of two readings, the window [0, 0] holding the first. *)
Definition era5_two : list era5_row :=
  [ {| datetime := Some 0%Z; ws_100m := Some 6; dens_100m := None |};
    {| datetime := Some 10%Z; ws_100m := Some 7; dens_100m := None |} ].

(** * Further handlers *)

(** ** Availability and curtailment (get_availability_data, the overall figures) *)

Module Availability.
Record t := {
  total_net : Q;
  total_avail_loss : Q;
  total_curtail : Q;
  total_potential : Q;
  overall_availability_percent : Q;
  overall_curtailment_percent : Q
}.
End Availability.

Definition availability_overall (plant_df : list plant_row) : Availability.t :=
  let total_net := series_sum (map net_energy_kwh plant_df) in
  let total_avail_loss := series_sum (map availability_kwh plant_df) in
  let total_curtail := series_sum (map curtailment_kwh plant_df) in
  let total_potential := total_net + total_avail_loss + total_curtail in
  {| Availability.total_net := total_net;
     Availability.total_avail_loss := total_avail_loss;
     Availability.total_curtail := total_curtail;
     Availability.total_potential := total_potential;
     Availability.overall_availability_percent :=
       if Qlt_le_dec 0 total_potential
       then (1 - total_avail_loss / total_potential) * 100 else 100;
     Availability.overall_curtailment_percent :=
       if Qlt_le_dec 0 total_potential
       then total_curtail / total_potential * 100 else 0 |}.

(** ** SCADA summary (get_scada_summary, the totals per turbine and overall) *)

Module Summary.
Record turbine := {
  turbine_id : string;
  total_energy_mwh : Q;            (* P_avg.sum() / 1000 *)
  annual_energy_mwh : cell;        (* P_avg.sum() / 1000 / date_range_years *)
  avg_power_kw : cell;
  capacity_factor_percent : cell;  (* P_avg.mean() / 2050 * 100 *)
  data_points : nat;
  data_availability_percent : cell
}.

(** One turn of the loop over the turbines. The annual energy divides a
    numpy number, which raises nothing; the data availability divides the
    Python integer [len(t_df)] by [365.25 * 24 * 6 * date_range_years] and
    raises when that is 0, so that no entry is produced then. *)
Definition per_turbine (scada_df : list scada_row) (date_range_years : cell)
  (name : string) : result turbine :=
  let t_df := of_turbine name scada_df in
  doing availability :=
    py_truediv (Some (inject_Z (Z.of_nat (length t_df))))
               (cell_map2 Qmult (Some ((36525 # 100) * 24 * 6)) date_range_years) in
  inr {| turbine_id := name;
         total_energy_mwh := series_sum (map P_avg t_df) / 1000;
         annual_energy_mwh :=
           cell_map2 Qdiv (Some (series_sum (map P_avg t_df) / 1000)) date_range_years;
         avg_power_kw := series_mean (map P_avg t_df);
         capacity_factor_percent :=
           option_map (fun m => m / 2050 * 100) (series_mean (map P_avg t_df));
         data_points := length t_df;
         data_availability_percent := cell_map2 Qmult availability (Some 100) |}.

Definition turbine_stats (scada_df : list scada_row) : result (list turbine) :=
  mapM (per_turbine scada_df (years_of scada_df)) (turbines scada_df).

(** ["overall"]["total_energy_gwh"], before rounding. *)
Definition total_energy_gwh (scada_df : list scada_row) : Q :=
  series_sum (map P_avg scada_df) / 1000000.
End Summary.


(** ** The sums the EYA analysis works from

    The plant potential, the availability and curtailment losses and the
    electrical loss, in kWh over the period. *)
Definition eya_sums (scada_df : list scada_row) (plant_df : list plant_row)
  : Q * Q * Q * Q :=
  let net := series_sum (map net_energy_kwh plant_df) in
  let avail := series_sum (map availability_kwh plant_df) in
  let curtail := series_sum (map curtailment_kwh plant_df) in
  let turbine := series_sum (map P_avg scada_df) * (10 / 60) in
  (net + avail + curtail, avail, curtail,
   if Qlt_le_dec net turbine then turbine - net else 0).

(** ** Sample plant table *)

Definition plant_sample : list plant_row :=
  [ {| time_utc := Some 0%Z; net_energy_kwh := Some 900;
       availability_kwh := Some 60; curtailment_kwh := Some 40 |};
    {| time_utc := Some 600%Z; net_energy_kwh := Some 800;
       availability_kwh := None; curtailment_kwh := Some 0 |} ].

(** Two turbines over two days, enough rows for nothing but the totals. *)
Definition scada_two_days : list scada_row :=
  [ reading "T2" 0 400 6 15 0; reading "T1" 600 500 7 15 0;
    reading "T1" 172800 300 8 200 1 ].

(** ** Computations that only add to the cache *)

(** The keys the analyses load. *)
Definition analysis_keys : list string := ["scada"; "plant"; "asset"; "era5"].

(** A computation that keeps every cached frame as it is and adds frames
    under the keys of the analyses only. *)
Definition grows_cache {A} (m : M A) : Prop :=
  forall c : gmap string frame,
    (forall k df, c !! k = Some df -> snd (m c) !! k = Some df) /\
    (forall k, snd (m c) !! k <> None -> c !! k <> None \/ In k analysis_keys).

(** The analysis types [run_analysis] routes. *)
Definition known_analysis_types : list string :=
  ["monte_carlo_aep"; "aep"; "electrical_losses"; "wake_losses"; "turbine_gross_energy";
   "yaw_misalignment"; "eya_gap"].

Definition yaw_request : AnalysisRequest :=
  {| analysis_type := "yaw_misalignment"; use_example_data := true; parameters := None |}.

(** * Theorems *)

Lemma Rpower_one_base (c : R) : Rpower 1 c = 1%R.
Proof. unfold Rpower. rewrite ln_1, Rmult_0_r. apply exp_0. Qed.

Lemma Rpower_52_lt (x y : R) : (0 < x)%R -> (x < y)%R -> (Rpower x (5/2) < Rpower y (5/2))%R.
Proof. intros Hx Hxy. apply Rlt_Rpower_l; lra. Qed.

Lemma Rpower_52_lt_iff (x y : R) :
  (0 < x)%R -> (0 < y)%R -> ((x < y)%R <-> (Rpower x (5/2) < Rpower y (5/2))%R).
Proof.
  intros Hx Hy. split.
  - now apply Rpower_52_lt.
  - intros H. destruct (Rtotal_order x y) as [Hlt | [Heq | Hgt]]; [assumption | | ].
    + subst. lra.
    + pose proof (Rpower_52_lt y x Hy Hgt). lra.
Qed.

Lemma Rpower_52_split (x : R) : (0 < x)%R -> Rpower x (5/2) = (x * x * sqrt x)%R.
Proof.
  intros Hx. replace (5/2)%R with (INR 2 + /2)%R by (simpl; lra).
  rewrite Rpower_plus, Rpower_pow, Rpower_sqrt by assumption. simpl. ring.
Qed.

Lemma pow_2_5_pos (q : Q) : 0 < q -> pow_2_5 (Some q) = PyFloat (Rpower (Q2R q) (5/2)).
Proof.
  intros Hq. unfold pow_2_5. destruct (Qlt_le_dec 0 q) as [_ | Hle]; [reflexivity | lra].
Qed.

Lemma ltm_correction_factor_pos (l o : Q) :
  0 < o -> ltm_correction_factor (Some l) (Some o) = pow_2_5 (Some (l / o)).
Proof.
  intros Ho. unfold ltm_correction_factor, cell_gt.
  destruct (Qlt_le_dec 0 o) as [_ | Hle]; [reflexivity | lra].
Qed.

Lemma Qdiv_pos (l o : Q) : 0 < l -> 0 < o -> 0 < l / o.
Proof.
  intros Hl Ho. apply Qlt_shift_div_l; [assumption | lra].
Qed.

Lemma example_factor_bounds :
  (12215 / 10000 < Rpower (Q2R (6.5 / 6)) (5/2) < 12216 / 10000)%R.
Proof.
  assert (Hx : Q2R (6.5 / 6) = (13 / 12)%R).
  { unfold Q2R. change (Qnum (6.5 / 6)) with 65%Z. change (Qden (6.5 / 6)) with 60%positive. lra. }
  rewrite Hx, Rpower_52_split by lra.
  assert (Hlo : (104083 / 100000 < sqrt (13 / 12))%R).
  { rewrite <- (sqrt_square (104083 / 100000)) by lra. apply sqrt_lt_1; lra. }
  assert (Hhi : (sqrt (13 / 12) < 104084 / 100000)%R).
  { rewrite <- (sqrt_square (104084 / 100000)) by lra. apply sqrt_lt_1; lra. }
  lra.
Qed.

Lemma cell_gt_true (c : cell) (k : Q) : cell_gt c k = true <-> exists q, c = Some q /\ k < q.
Proof.
  unfold cell_gt. destruct c as [q |].
  - destruct (Qlt_le_dec k q) as [H | H]; split.
    + intros _. now exists q.
    + reflexivity.
    + discriminate.
    + intros (q' & [= <-] & Hq). lra.
  - split; [discriminate | intros (q & [=] & _)].
Qed.

Lemma cell_gt_false (c : cell) (k : Q) :
  cell_gt c k = false <-> c = None \/ exists q, c = Some q /\ q <= k.
Proof.
  unfold cell_gt. destruct c as [q |].
  - destruct (Qlt_le_dec k q) as [H | H]; split.
    + discriminate.
    + intros [[=] | (q' & [= <-] & Hq)]. lra.
    + intros _. right. now exists q.
    + reflexivity.
  - split; [now left | reflexivity].
Qed.

Lemma factor_of_equal_means (m : cell) : ltm_correction_factor m m = PyFloat 1%R.
Proof.
  unfold ltm_correction_factor. destruct (cell_gt m 0) eqn:Hgt; [| reflexivity].
  apply cell_gt_true in Hgt as (q & -> & Hq).
  assert (Hone : q / q == 1) by (field; lra).
  rewrite pow_2_5_pos by (rewrite Hone; reflexivity).
  f_equal. rewrite (Qeq_eqR _ _ Hone).
  replace (Q2R 1) with 1%R by (unfold Q2R; simpl; lra).
  apply Rpower_one_base.
Qed.

Lemma era5_op_period_In (op_start op_end : stamp) (era5_df : list era5_row) (r : era5_row) :
  In r (era5_op_period op_start op_end era5_df) <->
  In r era5_df /\
  exists s a b, datetime r = Some s /\ op_start = Some a /\ op_end = Some b /\ (a <= s <= b)%Z.
Proof.
  unfold era5_op_period. rewrite filter_In. apply and_iff_compat_l.
  unfold stamp_ge, stamp_le.
  destruct (datetime r) as [s |], op_start as [a |], op_end as [b |]; simpl;
    try (split; [discriminate | intros (? & ? & ? & ? & ? & ? & ?); discriminate]);
    try (split; [rewrite ?andb_false_r; discriminate | intros (? & ? & ? & ? & ? & ? & ?); discriminate]).
  rewrite andb_true_iff, !Z.leb_le. split.
  - intros [H1 H2]. exists s, a, b. auto.
  - intros (? & ? & ? & [= <-] & [= <-] & [= <-] & H). lia.
Qed.

(** C1, amended. The window of the estimator is the rows whose stamp lies in
    [[op_start, op_end]], both bounds included; the long-term mean is the mean
    of the reference wind speed over the whole table and the operational mean
    is the mean over the window, or the long-term mean when the window holds
    no row. The factor is [(long_term_mean / operational_mean) ** 2.5] when
    the operational mean is positive. It is 1.0 when the window holds no row,
    and whenever the operational mean is zero, negative or NaN. *)
Theorem long_term_correction_guarded (op_start op_end : stamp) (era5_df : list era5_row) :
  let window := era5_op_period op_start op_end era5_df in
  let '(op, ltm, factor) := long_term_correction op_start op_end era5_df in
  (forall r, In r window <->
     In r era5_df /\
     exists s a b, datetime r = Some s /\ op_start = Some a /\ op_end = Some b /\
                   (a <= s <= b)%Z) /\
  ltm = series_mean (map ws_100m era5_df) /\
  op = match window with
       | [] => series_mean (map ws_100m era5_df)
       | _ => series_mean (map ws_100m window)
       end /\
  (forall o, op = Some o -> 0 < o -> factor = spec_factor ltm op) /\
  (window = [] -> factor = PyFloat 1%R) /\
  (op = None \/ (exists o, op = Some o /\ o <= 0) -> factor = PyFloat 1%R).
Proof.
  unfold long_term_correction. cbv zeta.
  split; [apply era5_op_period_In |].
  split; [reflexivity |].
  split; [| split; [| split]].
  - unfold op_period_ws. destruct (era5_op_period op_start op_end era5_df); reflexivity.
  - intros o Hop Ho. rewrite Hop. unfold spec_factor, ltm_correction_factor.
    replace (cell_gt (Some o) 0) with true by (symmetry; apply cell_gt_true; eauto).
    destruct (ltm_ws era5_df); reflexivity.
  - intros Hw. unfold op_period_ws. rewrite Hw. simpl. apply factor_of_equal_means.
  - intros H. unfold ltm_correction_factor.
    replace (cell_gt _ 0) with false; [reflexivity |].
    symmetry. apply cell_gt_false. exact H.
Qed.

Lemma Q2R_const (n : Z) (d : positive) : Q2R (n # d) = (IZR n / IZR (Z.pos d))%R.
Proof. reflexivity. Qed.

(** C1 as stated fails: the window holds a row, the operational mean is -4,
    not zero, the long-term mean is -3/2, and the factor returned is 1.0 where
    [(long_term_mean / operational_mean) ** 2.5] is [(3/8) ** 2.5 < 1]. *)
Lemma negative_mean_counterexample :
  let '(op, ltm, factor) := long_term_correction (Some 0%Z) (Some 0%Z) era5_negative in
  era5_op_period (Some 0%Z) (Some 0%Z) era5_negative <> [] /\
  (exists o, op = Some o /\ ~ o == 0) /\
  factor = PyFloat 1%R /\
  factor <> spec_factor ltm op.
Proof.
  unfold long_term_correction. cbv zeta.
  assert (Hop : op_period_ws (Some 0%Z) (Some 0%Z) era5_negative = Some (-4 # 1))
    by (vm_compute; reflexivity).
  assert (Hltm : ltm_ws era5_negative = Some (-3 # 2)) by (vm_compute; reflexivity).
  rewrite Hop, Hltm.
  split; [vm_compute; discriminate |].
  split; [exists (-4 # 1); split; [reflexivity | intros H; discriminate H] |].
  assert (Hf : ltm_correction_factor (Some (-3 # 2)) (Some (-4 # 1)) = PyFloat 1%R).
  { unfold ltm_correction_factor, cell_gt.
    destruct (Qlt_le_dec 0 (-4 # 1)) as [H | _]; [discriminate H | reflexivity]. }
  split; [exact Hf |].
  rewrite Hf. unfold spec_factor, cell_map2.
  rewrite pow_2_5_pos by reflexivity.
  intros [= H].
  assert (Hx : Q2R ((-3 # 2) / (-4 # 1)) = (3 / 8)%R).
  { unfold Q2R. change (Qnum ((-3 # 2) / (-4 # 1))) with 3%Z.
    change (Qden ((-3 # 2) / (-4 # 1))) with 8%positive. lra. }
  rewrite Hx in H.
  pose proof (Rpower_52_lt (3 / 8) 1 ltac:(lra) ltac:(lra)) as Hlt.
  rewrite Rpower_one_base in Hlt. lra.
Qed.

(** *** The span of the stamps *)

Lemma stamp_min_spec (s : list stamp) :
  match stamp_min s with
  | Some lo => In (Some lo) s /\ forall x, In (Some x) s -> (lo <= x)%Z
  | None => forall x, ~ In (Some x) s
  end.
Proof.
  induction s as [| [x |] r IH]; simpl.
  - intros x [].
  - destruct (stamp_min r) as [m |].
    + destruct IH as [Hin Hlo]. split.
      * destruct (Z.min_spec x m) as [[_ ->] | [_ ->]]; auto.
      * intros y [[= <-] | Hy]; [lia | specialize (Hlo y Hy); lia].
    + split; [now left |]. intros y [[= <-] | Hy]; [lia | exfalso; eapply IH; eauto].
  - destruct (stamp_min r) as [m |].
    + destruct IH as [Hin Hlo]. split; [now right |].
      intros y [Hy | Hy]; [discriminate | auto].
    + intros y [Hy | Hy]; [discriminate | eapply IH; eauto].
Qed.

Lemma stamp_max_spec (s : list stamp) :
  match stamp_max s with
  | Some hi => In (Some hi) s /\ forall x, In (Some x) s -> (x <= hi)%Z
  | None => forall x, ~ In (Some x) s
  end.
Proof.
  induction s as [| [x |] r IH]; simpl.
  - intros x [].
  - destruct (stamp_max r) as [m |].
    + destruct IH as [Hin Hhi]. split.
      * destruct (Z.max_spec x m) as [[_ ->] | [_ ->]]; auto.
      * intros y [[= <-] | Hy]; [lia | specialize (Hhi y Hy); lia].
    + split; [now left |]. intros y [[= <-] | Hy]; [lia | exfalso; eapply IH; eauto].
  - destruct (stamp_max r) as [m |].
    + destruct IH as [Hin Hhi]. split; [now right |].
      intros y [Hy | Hy]; [discriminate | auto].
    + intros y [Hy | Hy]; [discriminate | eapply IH; eauto].
Qed.

Lemma In_stamps (scada_df : list scada_row) (x : Z) :
  In (Some x) (map Date_time scada_df) <-> exists r, In r scada_df /\ Date_time r = Some x.
Proof. rewrite in_map_iff. split; intros (r & H1 & H2); eauto. Qed.

Lemma years_value_zero (d : Z) : inject_Z d / (36525 # 100) == 0 <-> d = 0%Z.
Proof.
  split.
  - intros H. assert (H2 : inject_Z d == 0).
    { assert (H3 : inject_Z d == inject_Z d / (36525 # 100) * (36525 # 100)).
      { field. }
      rewrite H3, H. reflexivity. }
    apply (proj1 (inject_Z_injective d 0)). exact H2.
  - intros ->. reflexivity.
Qed.

(** [years]: NaN without a valid stamp; otherwise never negative, and 0 when
    all valid stamps lie less than a day apart. *)
Lemma years_of_spec (scada_df : list scada_row) :
  match years_of scada_df with
  | None => forall r, In r scada_df -> Date_time r = None
  | Some y =>
      0 <= y /\
      (exists r, In r scada_df /\ Date_time r <> None) /\
      (y == 0 <->
       forall r r' s s', In r scada_df -> In r' scada_df ->
                         Date_time r = Some s -> Date_time r' = Some s' ->
                         (s' - s < 86400)%Z)
  end.
Proof.
  unfold years_of.
  pose proof (stamp_max_spec (map Date_time scada_df)) as Hmax.
  pose proof (stamp_min_spec (map Date_time scada_df)) as Hmin.
  destruct (stamp_max (map Date_time scada_df)) as [hi |].
  - destruct (stamp_min (map Date_time scada_df)) as [lo |].
    + destruct Hmax as [Hhi Hup], Hmin as [Hlo Hdown].
      assert (Hle : (lo <= hi)%Z) by (apply Hup; assumption).
      assert (Hd : (0 <= (hi - lo) / 86400)%Z) by (apply Z.div_pos; lia).
      split; [| split].
      * apply Qle_shift_div_l; [reflexivity |].
        assert (H0 : inject_Z 0 <= inject_Z ((hi - lo) / 86400))
          by (rewrite <- Zle_Qle; assumption).
        change (inject_Z 0) with 0 in H0. lra.
      * apply In_stamps in Hhi as (r & Hr & Hs). exists r. split; [assumption | congruence].
      * rewrite years_value_zero. split.
        -- intros Hz r r' s s' Hr Hr' Hs Hs'.
           assert (s' <= hi)%Z by (apply Hup, In_stamps; eauto).
           assert (lo <= s)%Z by (apply Hdown, In_stamps; eauto).
           assert ((hi - lo) < 86400)%Z; [| lia].
           apply Z.div_small_iff in Hz; lia.
        -- intros Hall. apply In_stamps in Hhi as (r' & Hr' & Hs').
           apply In_stamps in Hlo as (r & Hr & Hs).
           specialize (Hall r r' lo hi Hr Hr' Hs Hs'). apply Z.div_small. lia.
    + destruct Hmax as [Hhi _]. exfalso. eapply Hmin; eauto.
  - intros r Hr. destruct (Date_time r) as [x |] eqn:Hx; [| reflexivity].
    exfalso. apply (Hmax x). apply In_stamps. eauto.
Qed.

(** *** Division by [years] *)

Lemma py_truediv_inl (a b : cell) (e : exn) :
  py_truediv a b = inl e <-> e = ZeroDivisionError /\ exists y, b = Some y /\ y == 0.
Proof.
  unfold py_truediv. destruct b as [y |].
  - destruct (Qeq_dec y 0) as [Hz | Hnz]; split.
    + intros [= <-]. eauto.
    + intros [-> _]. reflexivity.
    + discriminate.
    + intros (_ & y' & [= <-] & Hy). contradiction.
  - split; [discriminate | intros (_ & y & [=] & _)].
Qed.

Lemma mapM_inr {A B} (f : A -> result B) (l : list A) (bs : list B) :
  mapM f l = inr bs -> Forall2 (fun a b => f a = inr b) l bs.
Proof.
  revert bs. induction l as [| a l IH]; intros bs H; simpl in H.
  - injection H as <-. constructor.
  - destruct (f a) as [e | b] eqn:Hf; [discriminate |]. simpl in H.
    destruct (mapM f l) as [e | bs'] eqn:Hm; [discriminate |]. simpl in H.
    injection H as <-. constructor; auto.
Qed.

Lemma mapM_inl {A B} (f : A -> result B) (l : list A) (e : exn) :
  mapM f l = inl e -> exists a, In a l /\ f a = inl e.
Proof.
  induction l as [| a l IH]; intros H; simpl in H; [discriminate |].
  destruct (f a) as [e' | b] eqn:Hf.
  - injection H as <-. exists a. split; [now left | assumption].
  - simpl in H. destruct (mapM f l) as [e' | bs'] eqn:Hm; [| discriminate].
    simpl in H. injection H as <-. destruct (IH eq_refl) as (a' & Ha & Hfa).
    exists a'. split; [now right | assumption].
Qed.

Lemma mapM_all_inr {A B} (f : A -> result B) (l : list A) :
  (forall a, In a l -> exists b, f a = inr b) -> exists bs, mapM f l = inr bs.
Proof.
  induction l as [| a l IH]; intros H; simpl; [eauto |].
  destruct (H a (or_introl eq_refl)) as (b & ->). simpl.
  destruct IH as (bs & ->); [intros; apply H; now right |]. simpl. eauto.
Qed.

Lemma py_truediv_some (a y : Q) :
  ~ y == 0 -> py_truediv (Some a) (Some y) = inr (Some (a / y)).
Proof. intros H. unfold py_truediv. destruct (Qeq_dec y 0); [contradiction | reflexivity]. Qed.

Lemma py_truediv_zero (a : cell) (y : Q) :
  y == 0 -> py_truediv a (Some y) = inl ZeroDivisionError.
Proof. intros H. unfold py_truediv. destruct (Qeq_dec y 0); [reflexivity | contradiction]. Qed.

Lemma py_truediv_nan (a : cell) : py_truediv a None = inr None.
Proof. reflexivity. Qed.

(** *** The calendar *)

Lemma month_of_range (s : Z) : (1 <= month_of s <= 12)%Z.
Proof.
  unfold month_of. cbv zeta.
  set (z := (s / 86400 + 719468)%Z).
  assert (Hdoe : (0 <= z mod 146097 < 146097)%Z) by (apply Z.mod_pos_bound; lia).
  set (doe := (z mod 146097)%Z) in *. clearbody doe. clear z.
  match goal with
  | |- context [(?mp <? 10)%Z] => destruct (Z.ltb_spec mp 10)
  end; Z.div_mod_to_equations; lia.
Qed.

Lemma month_in_year (s : Z) : In (month_of s) (map Z.of_nat (seq 1 12)).
Proof.
  pose proof (month_of_range s) as H. apply in_map_iff.
  exists (Z.to_nat (month_of s)). split; [lia |]. apply in_seq. lia.
Qed.

(** *** Numbers that are not complex *)

Lemma py_round_num_inr (x y : pynum) : py_round_num x = inr y <-> x = y /\ x <> PyComplex.
Proof.
  destruct x; simpl; split.
  - intros [= <-]. split; [reflexivity | discriminate].
  - intros [<- _]. reflexivity.
  - intros [= <-]. split; [reflexivity | discriminate].
  - intros [<- _]. reflexivity.
  - discriminate.
  - intros [_ H]. congruence.
Qed.

Lemma py_round_num_inl (x : pynum) (e : exn) :
  py_round_num x = inl e <-> e = TypeError /\ x = PyComplex.
Proof.
  destruct x; simpl; split.
  - discriminate.
  - intros [_ H]. discriminate H.
  - discriminate.
  - intros [_ H]. discriminate H.
  - intros [= <-]. auto.
  - intros [-> _]. reflexivity.
Qed.

Lemma pynum_scale_complex (a : cell) (x : pynum) :
  pynum_scale a x = PyComplex <-> x = PyComplex.
Proof. destruct x, a; simpl; split; congruence. Qed.

(** *** When the AEP analysis returns *)

Lemma month_entry_returns (scada_df : list scada_row) (y : Q) (factor : pynum) (m : Z) :
  ~ y == 0 -> factor <> PyComplex ->
  exists l, Aep.month_entry scada_df (Some y) factor m = inr l.
Proof.
  intros Hy Hf. unfold Aep.month_entry.
  destruct (Aep.month_df scada_df m) as [| r rows]; [eauto |].
  rewrite (py_truediv_some _ y Hy). cbn [bind].
  destruct (py_round_num (pynum_scale _ factor)) as [e | x] eqn:E.
  - apply py_round_num_inl in E as [_ E]. apply pynum_scale_complex in E. contradiction.
  - cbn [bind]. eauto.
Qed.

Lemma per_turbine_returns (scada_df : list scada_row) (y : Q) (f d : R) (name : string) :
  ~ y == 0 -> d <> 0%R ->
  exists t, Aep.per_turbine scada_df (Some y) (PyFloat f) (PyFloat d) name = inr t.
Proof.
  intros Hy Hd. unfold Aep.per_turbine. cbv zeta.
  rewrite (py_truediv_some _ y Hy). cbn [bind pynum_scale py_round_num pynum_truediv].
  destruct (Req_dec_T d 0); [contradiction |]. cbn [bind]. eauto.
Qed.

Lemma availability_divisor (y : Q) : 4 * (36525 # 100) * 24 * 6 * y == 0 <-> y == 0.
Proof. split; intros H; lra. Qed.

Lemma aep_analysis_returns (scada_df : list scada_row) (era5_df : list era5_row)
  (y : Q) (f : R) (lo hi : Z) :
  years_of scada_df = Some y -> ~ y == 0 ->
  ltm_correction_factor (ltm_ws era5_df)
    (op_period_ws (stamp_min (map Date_time scada_df)) (stamp_max (map Date_time scada_df))
       era5_df) = PyFloat f ->
  (Q2R (Aep.annual_energy_gwh scada_df (Some y)) * f <> 0)%R ->
  stamp_max (map datetime era5_df) = Some hi ->
  stamp_min (map datetime era5_df) = Some lo ->
  exists r, aep_analysis scada_df era5_df = inr r /\
            Aep.years r = Some y /\
            Aep.ltm_correction_factor r = PyFloat f /\
            Aep.ltm_annual_energy_gwh r =
              PyFloat (Q2R (Aep.annual_energy_gwh scada_df (Some y)) * f).
Proof.
  intros Hy Hnz Hf Hd Hhi Hlo.
  unfold aep_analysis, long_term_correction. cbv zeta. rewrite Hy, Hf.
  destruct (mapM_all_inr (Aep.month_entry scada_df (Some y) (PyFloat f))
              (map Z.of_nat (seq 1 12))) as (months & ->).
  { intros m _. apply month_entry_returns; [assumption | discriminate]. }
  cbn [bind pynum_scale].
  destruct (mapM_all_inr
              (Aep.per_turbine scada_df (Some y) (PyFloat f)
                 (PyFloat (Q2R (Aep.annual_energy_gwh scada_df (Some y)) * f)))
              (turbines scada_df)) as (ts & ->).
  { intros name _. apply per_turbine_returns; assumption. }
  cbn [bind py_round_num]. unfold Aep.reanalysis_years. rewrite Hhi, Hlo.
  cbn [bind cell_map2].
  rewrite py_truediv_some by (rewrite availability_divisor; assumption).
  cbn [bind]. eexists. split; [reflexivity |]. simpl. auto.
Qed.

(** What a returned record holds: the annual energy, built from the bare sum
    of the power readings. *)
Lemma aep_analysis_inr (scada_df : list scada_row) (era5_df : list era5_row) (r : Aep.t) :
  aep_analysis scada_df era5_df = inr r ->
  Aep.years r = years_of scada_df /\
  Aep.ltm_annual_energy_gwh r =
    pynum_scale (Some (Aep.annual_energy_gwh scada_df (years_of scada_df)))
                (Aep.ltm_correction_factor r) /\
  Aep.ltm_correction_factor r <> PyComplex /\
  (forall y, years_of scada_df = Some y -> 0 < y).
Proof.
  unfold aep_analysis, long_term_correction. cbv zeta.
  set (factor := ltm_correction_factor _ _).
  destruct (mapM _ (map Z.of_nat (seq 1 12))) as [e | months]; [discriminate |].
  cbn [bind].
  destruct (mapM _ (turbines scada_df)) as [e | ts]; [discriminate |].
  cbn [bind].
  destruct (py_round_num (pynum_scale _ factor)) as [e | net] eqn:Hnet; [discriminate |].
  cbn [bind].
  destruct (py_round_num factor) as [e | cf] eqn:Hcf; [discriminate |].
  cbn [bind].
  destruct (Aep.reanalysis_years era5_df) as [e | ry]; [discriminate |].
  cbn [bind].
  destruct (py_truediv _ _) as [e | av] eqn:Hav; [discriminate |].
  cbn [bind]. intros [= <-]. simpl.
  apply py_round_num_inr in Hnet as [<- _].
  apply py_round_num_inr in Hcf as [<- Hc].
  split; [reflexivity |]. split; [reflexivity |]. split; [assumption |].
  intros y Hy. rewrite Hy in Hav. cbn [cell_map2] in Hav.
  pose proof (years_of_spec scada_df) as Hspec. rewrite Hy in Hspec.
  destruct Hspec as (H0 & _).
  destruct (Qeq_dec y 0) as [Hz | Hnz]; [| lra].
  rewrite py_truediv_zero in Hav by (rewrite availability_divisor; assumption).
  discriminate Hav.
Qed.

Lemma electrical_turbine_energy_kwh (scada_df : list scada_row) (plant_df : list plant_row) :
  Electrical.turbine_energy_kwh (electrical_losses_analysis scada_df plant_df) =
  series_sum (map P_avg scada_df) * (10 / 60).
Proof.
  unfold electrical_losses_analysis. destruct (Qlt_le_dec 0 _); reflexivity.
Qed.

Lemma aep_annual_energy (scada_df : list scada_row) (era5_df : list era5_row)
  (r : Aep.t) (y : Q) :
  aep_analysis scada_df era5_df = inr r -> years_of scada_df = Some y ->
  0 < y /\
  Aep.ltm_annual_energy_gwh r =
    pynum_scale (Some (series_sum (map P_avg scada_df) / 1000000 / y))
                (Aep.ltm_correction_factor r).
Proof.
  intros Hr Hy. apply aep_analysis_inr in Hr as (_ & Hnet & _ & Hpos).
  specialize (Hpos y Hy). split; [assumption |].
  rewrite Hnet, Hy. unfold Aep.annual_energy_gwh, Aep.total_energy_kwh. cbv zeta.
  destruct (Qlt_le_dec 0 y) as [_ | Hle]; [reflexivity | lra].
Qed.

Lemma aep_on_scada_three : aep_analysis scada_three era5_two = inl ZeroDivisionError.
Proof.
  unfold aep_analysis, long_term_correction. cbv zeta.
  generalize (ltm_correction_factor (ltm_ws era5_two)
                (op_period_ws (stamp_min (map Date_time scada_three))
                   (stamp_max (map Date_time scada_three)) era5_two)).
  intros factor. vm_compute. reflexivity.
Qed.

Lemma aep_on_scada_day :
  exists r, aep_analysis scada_day era5_two = inr r /\
            Aep.years r = Some (1 / (36525 # 100)) /\
            Aep.ltm_correction_factor r = PyFloat 1%R /\
            Aep.ltm_annual_energy_gwh r = PyFloat (Q2R (21915 # 100000)).
Proof.
  assert (Hyears : years_of scada_day = Some (inject_Z 1 / (36525 # 100))) by reflexivity.
  assert (Hannual : Aep.annual_energy_gwh scada_day (Some (inject_Z 1 / (36525 # 100)))
                    == 21915 # 100000) by (vm_compute; reflexivity).
  destruct (aep_analysis_returns scada_day era5_two (inject_Z 1 / (36525 # 100)) 1%R 0 10)
    as (r & Hr & Hy & Hf & Hnet).
  - exact Hyears.
  - intros H. vm_compute in H. discriminate H.
  - replace (op_period_ws _ _ era5_two) with (ltm_ws era5_two)
      by (vm_compute; reflexivity).
    apply factor_of_equal_means.
  - rewrite (Qeq_eqR _ _ Hannual). unfold Q2R. simpl. lra.
  - reflexivity.
  - reflexivity.
  - exists r. split; [exact Hr |]. split; [exact Hy |]. split; [exact Hf |].
    rewrite Hnet, (Qeq_eqR _ _ Hannual). f_equal. ring.
Qed.

(** C2. The electrical-losses and gross-energy calculators compute an energy
    as the sum of the power readings times 10/60 h, which gives 100 kWh on
    the three rows 100, 200, 300 kW. The AEP calculator builds the energy it
    reports on the bare sum of the readings: whenever it returns, its annual
    energy is [sum / 10^6 / years] times the correction factor. On the three
    rows of the example, 10 minutes apart, it reports nothing: [years] is 0
    and it raises [ZeroDivisionError]. With the third row a day after the
    first it returns, before rounding, 0.21915 GWh a year, which is 600 kWh
    over [years], where the 100 kWh of the other calculators would give
    0.036525. *)
Theorem aep_total_energy_is_the_bare_power_sum :
  (forall scada_df plant_df,
     Electrical.turbine_energy_kwh (electrical_losses_analysis scada_df plant_df) =
     series_sum (map P_avg scada_df) * (10 / 60)) /\
  (forall scada_df years factor name t,
     Gross.per_turbine scada_df years factor name = inr t ->
     Gross.operational_energy_kwh t =
     series_sum (map P_avg (Gross.normal (of_turbine name scada_df))) * (10 / 60)) /\
  (forall scada_df era5_df r y,
     aep_analysis scada_df era5_df = inr r -> years_of scada_df = Some y ->
     0 < y /\
     Aep.ltm_annual_energy_gwh r =
       pynum_scale (Some (series_sum (map P_avg scada_df) / 1000000 / y))
                   (Aep.ltm_correction_factor r)) /\
  Electrical.turbine_energy_kwh (electrical_losses_analysis scada_three []) == 100 /\
  aep_analysis scada_three era5_two = inl ZeroDivisionError /\
  Electrical.turbine_energy_kwh (electrical_losses_analysis scada_day []) == 100 /\
  (exists r,
     aep_analysis scada_day era5_two = inr r /\
     Aep.years r = Some (1 / (36525 # 100)) /\
     Aep.ltm_correction_factor r = PyFloat 1%R /\
     Aep.ltm_annual_energy_gwh r = PyFloat (Q2R (21915 # 100000))) /\
  (21915 # 100000) == 600 / 1000000 / (1 / (36525 # 100)) /\
  ~ (21915 # 100000) == 100 / 1000000 / (1 / (36525 # 100)).
Proof.
  split; [exact electrical_turbine_energy_kwh |].
  split.
  { intros scada_df years factor name t. unfold Gross.per_turbine.
    destruct (py_truediv _ years) as [e | y]; [discriminate |]. cbn [bind].
    destruct (py_round_num _) as [e | a]; [discriminate |]. cbn [bind].
    intros [= <-]. reflexivity. }
  split; [exact aep_annual_energy |].
  rewrite !electrical_turbine_energy_kwh.
  split; [vm_compute; reflexivity |].
  split; [exact aep_on_scada_three |].
  split; [vm_compute; reflexivity |].
  split; [exact aep_on_scada_day |].
  split; [vm_compute; reflexivity |].
  vm_compute. discriminate.
Qed.

(** The estimator on a two-row table: the window holds the first row, the
    operational mean is 6 and the factor is the formula's. *)
Lemma long_term_correction_guarded_witness :
  let '(op, ltm, factor) := long_term_correction (Some 0%Z) (Some 0%Z) era5_two in
  op = Some (6 # 1) /\ factor = spec_factor ltm op.
Proof.
  pose proof (long_term_correction_guarded (Some 0%Z) (Some 0%Z) era5_two) as H.
  unfold long_term_correction in *. cbv zeta in *.
  destruct H as (_ & _ & _ & Hformula & _).
  assert (Hop : op_period_ws (Some 0%Z) (Some 0%Z) era5_two = Some (6 # 1))
    by (vm_compute; reflexivity).
  split; [exact Hop |].
  apply (Hformula (6 # 1)); [exact Hop | reflexivity].
Defined.

Lemma Q2R_ratio_pos (l o : Q) : 0 < l -> 0 < o -> (0 < Q2R (l / o))%R.
Proof.
  intros Hl Ho. replace 0%R with (Q2R 0) by (unfold Q2R; simpl; lra).
  apply Qlt_Rlt. now apply Qdiv_pos.
Qed.

Lemma Q2R_1 : Q2R 1 = 1%R.
Proof. unfold Q2R; simpl; lra. Qed.

(** C6, amended. For positive means the factor is
    [(long_term_mean / operational_mean) ** 2.5]; it is 1.0 exactly when the
    two means are equal, above 1.0 exactly when the long-term mean exceeds the
    operational mean, and strictly increasing in the ratio of the means. For
    an operational mean of 6.0 and a long-term mean of 6.5 it lies between
    1.2215 and 1.2216. *)
Theorem correction_factor_monotone (l o l' o' : Q)
  (Hl : 0 < l) (Ho : 0 < o) (Hl' : 0 < l') (Ho' : 0 < o') :
  exists f f' : R,
    ltm_correction_factor (Some l) (Some o) = PyFloat f /\
    ltm_correction_factor (Some l') (Some o') = PyFloat f' /\
    f = Rpower (Q2R (l / o)) (5 / 2) /\
    (f = 1%R <-> l == o) /\
    ((1 < f)%R <-> o < l) /\
    (l / o < l' / o' <-> (f < f')%R) /\
    exists g : R,
      ltm_correction_factor (Some 6.5) (Some 6) = PyFloat g /\
      (12215 / 10000 < g < 12216 / 10000)%R.
Proof.
  exists (Rpower (Q2R (l / o)) (5 / 2)), (Rpower (Q2R (l' / o')) (5 / 2)).
  pose proof (Q2R_ratio_pos l o Hl Ho) as Hx.
  pose proof (Q2R_ratio_pos l' o' Hl' Ho') as Hx'.
  assert (Hone : forall x : R, (0 < x)%R ->
            ((1 < Rpower x (5 / 2))%R <-> (1 < x)%R) /\
            (Rpower x (5 / 2) = 1%R <-> x = 1%R)).
  { intros x Hpos.
    pose proof (Rpower_52_lt_iff 1 x ltac:(lra) Hpos) as Hup.
    pose proof (Rpower_52_lt_iff x 1 Hpos ltac:(lra)) as Hdown.
    rewrite Rpower_one_base in Hup, Hdown. split; [tauto |].
    split.
    - intros Heq. destruct (Rtotal_order x 1) as [Hlt | [Heq1 | Hgt]]; [| assumption |].
      + apply Hdown in Hlt. lra.
      + apply Hup in Hgt. lra.
    - intros ->. apply Rpower_one_base. }
  destruct (Hone _ Hx) as [Hgt1 Heq1].
  split; [rewrite ltm_correction_factor_pos, pow_2_5_pos by (auto using Qdiv_pos); reflexivity |].
  split; [rewrite ltm_correction_factor_pos, pow_2_5_pos by (auto using Qdiv_pos); reflexivity |].
  split; [reflexivity |].
  split; [| split; [| split]].
  - rewrite Heq1, <- Q2R_1. split.
    + intros H. apply eqR_Qeq in H.
      assert (l == (l / o) * o) by (field; lra). rewrite H in H0. lra.
    + intros H. apply Qeq_eqR. rewrite H. field. lra.
  - rewrite Hgt1, <- Q2R_1. split.
    + intros H. apply Rlt_Qlt in H.
      assert (Hm : 1 * o < (l / o) * o) by (apply Qmult_lt_compat_r; assumption).
      assert (l == (l / o) * o) by (field; lra). lra.
    + intros H. apply Qlt_Rlt. apply Qlt_shift_div_l; lra.
  - rewrite <- Rpower_52_lt_iff by assumption. split; [apply Qlt_Rlt | apply Rlt_Qlt].
  - exists (Rpower (Q2R (6.5 / 6)) (5 / 2)).
    split; [| exact example_factor_bounds].
    rewrite ltm_correction_factor_pos, pow_2_5_pos by reflexivity. reflexivity.
Qed.

(** Long-term means 7 and 8 against an operational mean of 6. *)
Lemma correction_factor_monotone_witness :
  exists f f' : R,
    ltm_correction_factor (Some 7) (Some 6) = PyFloat f /\
    ltm_correction_factor (Some 8) (Some 6) = PyFloat f' /\
    (1 < f)%R /\ (f < f')%R.
Proof.
  destruct (correction_factor_monotone 7 6 8 6) as (f & f' & H1 & H2 & _ & _ & Hgt & Hmono & _);
    try reflexivity.
  exists f, f'. split; [exact H1 |]. split; [exact H2 |].
  split; [apply Hgt; reflexivity | apply Hmono; reflexivity].
Defined.

(** C6 as stated fails in its example: [(6.5 / 6.0) ** 2.5] is not within
    0.025 of 1.196. *)
Lemma example_factor_is_not_1_196 :
  ~ exists f : R,
      ltm_correction_factor (Some 6.5) (Some 6) = PyFloat f /\
      (Rabs (f - 1196 / 1000) <= 25 / 1000)%R.
Proof.
  intros (f & Hf & Habs).
  rewrite ltm_correction_factor_pos, pow_2_5_pos in Hf by reflexivity.
  injection Hf as <-.
  pose proof example_factor_bounds as [Hlo _].
  unfold Rabs in Habs. destruct (Rcase_abs _) in Habs; lra.
Qed.

(** *** Rounding to a number of decimals *)

Lemma scale_pos (n : nat) : 0 < inject_Z (10 ^ Z.of_nat n).
Proof.
  change 0 with (inject_Z 0). rewrite <- Zlt_Qlt. apply Z.pow_pos_nonneg; lia.
Qed.

Lemma py_round_nonneg (q : Q) (n : nat) : 0 <= q -> 0 <= py_round q n.
Proof.
  intros Hq. unfold py_round. cbv zeta.
  pose proof (scale_pos n) as Hs. set (scale := inject_Z (10 ^ Z.of_nat n)) in *.
  assert (Hf : (0 <= Qfloor (q * scale))%Z).
  { change 0%Z with (Qfloor 0). apply Qfloor_resp_le. nra. }
  assert (H0 : 0 <= inject_Z (Qfloor (q * scale)) / scale).
  { apply Qle_shift_div_l; [assumption |].
    assert (inject_Z 0 <= inject_Z (Qfloor (q * scale))) by (rewrite <- Zle_Qle; assumption).
    change (inject_Z 0) with 0 in H. lra. }
  assert (H1 : 0 <= inject_Z (Qfloor (q * scale) + 1) / scale).
  { apply Qle_shift_div_l; [assumption |].
    assert (inject_Z 0 <= inject_Z (Qfloor (q * scale) + 1)) by (rewrite <- Zle_Qle; lia).
    change (inject_Z 0) with 0 in H. lra. }
  destruct (Qlt_le_dec _ (1 # 2)); [assumption |].
  destruct (Qlt_le_dec (1 # 2) _); [assumption |].
  destruct (Z.even _); assumption.
Qed.

(** The two neighbours of [q] among the multiples of 1/100. *)
Lemma py_round_2_cases (q : Q) :
  let f := Qfloor (q * 100) in
  let d := q * 100 - inject_Z f in
  inject_Z f <= q * 100 /\ q * 100 < inject_Z f + 1 /\
  ((py_round q 2 == inject_Z f * (1 # 100) /\ d <= 1 # 2) \/
   (py_round q 2 == (inject_Z f + 1) * (1 # 100) /\ 1 # 2 <= d)).
Proof.
  cbv zeta. unfold py_round. cbv zeta.
  change (inject_Z (10 ^ Z.of_nat 2)) with 100.
  set (f := Qfloor (q * 100)).
  pose proof (Qfloor_le (q * 100)) as Hlo. pose proof (Qlt_floor (q * 100)) as Hhi.
  fold f in Hlo, Hhi. rewrite inject_Z_plus in Hhi. change (inject_Z 1) with 1 in Hhi.
  split; [assumption |]. split; [assumption |].
  assert (Edown : inject_Z f / 100 == inject_Z f * (1 # 100)) by field.
  assert (Eup : inject_Z (f + 1) / 100 == (inject_Z f + 1) * (1 # 100)).
  { rewrite inject_Z_plus. change (inject_Z 1) with 1. field. }
  destruct (Qlt_le_dec (q * 100 - inject_Z f) (1 # 2)) as [H | H].
  - left. split; [exact Edown | lra].
  - destruct (Qlt_le_dec (1 # 2) (q * 100 - inject_Z f)) as [H' | H'].
    + right. split; [exact Eup | lra].
    + destruct (Z.even f); [left | right]; split; auto; lra.
Qed.

(** [round(q, 2)] is within half a hundredth of [q]. *)
Lemma py_round_2_close (q : Q) : - (1 # 200) <= py_round q 2 - q /\ py_round q 2 - q <= 1 # 200.
Proof.
  destruct (py_round_2_cases q) as (Hlo & Hhi & [[-> Hd] | [-> Hd]]); split; lra.
Qed.

(** [round(q, 2)] does not cross a whole number. *)
Lemma py_round_2_le (q : Q) (k : Z) : q <= inject_Z k -> py_round q 2 <= inject_Z k.
Proof.
  intros Hq. destruct (py_round_2_cases q) as (Hlo & Hhi & [[-> Hd] | [-> Hd]]); [lra |].
  set (f := Qfloor (q * 100)) in *.
  assert (Hlt : inject_Z f < inject_Z (k * 100)).
  { rewrite inject_Z_mult. change (inject_Z 100) with 100. lra. }
  rewrite <- Zlt_Qlt in Hlt.
  assert (Hle : inject_Z (f + 1) <= inject_Z (k * 100)) by (rewrite <- Zle_Qle; lia).
  rewrite inject_Z_plus, inject_Z_mult in Hle.
  change (inject_Z 1) with 1 in Hle. change (inject_Z 100) with 100 in Hle. lra.
Qed.

Lemma py_round_2_zero (q : Q) : q == 0 -> py_round q 2 == 0.
Proof.
  intros Hq.
  assert (H0 : 0 <= py_round q 2) by (apply py_round_nonneg; lra).
  assert (H1 : py_round q 2 <= inject_Z 0) by (apply py_round_2_le; change (inject_Z 0) with 0; lra).
  change (inject_Z 0) with 0 in H1. lra.
Qed.

Lemma Qlen_cons (x : Q) (l : list Q) : Qlen (x :: l) == 1 + Qlen l.
Proof.
  unfold Qlen. change (length (x :: l)) with (S (length l)).
  rewrite Nat2Z.inj_succ, <- Z.add_1_l, inject_Z_plus. reflexivity.
Qed.

Lemma Qlen_nonneg (l : list Q) : 0 <= Qlen l.
Proof.
  unfold Qlen. change 0 with (inject_Z 0). rewrite <- Zle_Qle. lia.
Qed.

Lemma Qlen_pos (x : Q) (l : list Q) : 0 < Qlen (x :: l).
Proof. rewrite Qlen_cons. pose proof (Qlen_nonneg l). lra. Qed.

Lemma Qmax_list_some (x : Q) (l : list Q) : exists m, Qmax_list (x :: l) = Some m.
Proof. simpl. destruct (Qmax_list l); eauto. Qed.

Lemma Qmax_list_upper (l : list Q) (m : Q) :
  Qmax_list l = Some m -> forall x, In x l -> x <= m.
Proof.
  revert m. induction l as [| y r IH]; intros m Hm x Hin; [destruct Hin |].
  simpl in Hm. destruct (Qmax_list r) as [m' |] eqn:Hr.
  - destruct (Qlt_le_dec m' y) as [Hlt | Hle]; injection Hm as <-;
      destruct Hin as [<- | Hin]; try lra; specialize (IH _ eq_refl _ Hin); lra.
  - injection Hm as <-. destruct Hin as [<- | Hin]; [lra |].
    destruct r; [destruct Hin | simpl in Hr; destruct (Qmax_list r); discriminate].
Qed.

Lemma Qmax_list_In (l : list Q) (m : Q) : Qmax_list l = Some m -> In m l.
Proof.
  revert m. induction l as [| y r IH]; intros m Hm; [discriminate |].
  simpl in Hm. destruct (Qmax_list r) as [m' |].
  - destruct (Qlt_le_dec m' y); injection Hm as <-; [now left | right; auto].
  - injection Hm as <-. now left.
Qed.

(** A sum is at most [length * bound], and reaches it only when every term does. *)
Lemma Qsum_upper (l : list Q) (m : Q) :
  (forall x, In x l -> x <= m) -> Qsum l <= m * Qlen l.
Proof.
  induction l as [| y r IH]; intros H.
  - change (Qlen []) with 0. change (Qsum []) with 0. lra.
  - simpl Qsum. rewrite Qlen_cons.
    assert (y <= m) by (apply H; now left).
    assert (Qsum r <= m * Qlen r) by (apply IH; intros; apply H; now right). lra.
Qed.

Lemma Qsum_upper_eq (l : list Q) (m : Q) :
  (forall x, In x l -> x <= m) -> Qsum l == m * Qlen l -> forall x, In x l -> x == m.
Proof.
  induction l as [| y r IH]; intros H Heq x Hin; [destruct Hin |].
  simpl Qsum in Heq. rewrite Qlen_cons in Heq.
  assert (Hy : y <= m) by (apply H; now left).
  assert (Hr : Qsum r <= m * Qlen r) by (apply Qsum_upper; intros; apply H; now right).
  destruct Hin as [<- | Hin]; [lra |].
  apply IH; auto; [intros; apply H; now right | lra].
Qed.

Lemma Qsum_all_eq (l : list Q) (m : Q) :
  (forall x, In x l -> x == m) -> Qsum l == m * Qlen l.
Proof.
  induction l as [| y r IH]; intros H.
  - change (Qlen []) with 0. change (Qsum []) with 0. lra.
  - simpl Qsum. rewrite Qlen_cons.
    assert (y == m) by (apply H; now left).
    assert (Qsum r == m * Qlen r) by (apply IH; intros; apply H; now right). lra.
Qed.

Lemma Qsum_lower (l : list Q) (m : Q) :
  (forall x, In x l -> 0 <= x) -> In m l -> m <= Qsum l.
Proof.
  induction l as [| y r IH]; intros H Hin; [destruct Hin |].
  simpl.
  assert (Hr : 0 <= Qsum r).
  { clear IH Hin. induction r as [| z r IHr]; simpl; [lra |].
    assert (0 <= z) by (apply H; right; now left).
    assert (0 <= Qsum r) by (apply IHr; intros x [-> | Hx]; apply H; [now left | right; now right]).
    lra. }
  destruct Hin as [-> | Hin].
  - lra.
  - assert (0 <= y) by (apply H; now left).
    assert (m <= Qsum r) by (apply IH; auto; intros; apply H; now right). lra.
Qed.

Lemma In_dropna (s : list cell) (x : Q) : In x (dropna s) <-> In (Some x) s.
Proof.
  induction s as [| [y |] r IH]; simpl; [tauto | |].
  - rewrite IH. split; intros [H | H]; auto; left; congruence.
  - rewrite IH. split; [auto | intros [H | H]; [discriminate | auto]].
Qed.

Lemma Qdiv_mult_cancel (a b : Q) : ~ b == 0 -> a / b * b == a.
Proof. intros. field. assumption. Qed.

(** The finite readings of a sector, when its largest is positive. *)
Lemma wake_loss_positive_max (normalized : list cell) (m : Q) :
  series_max normalized = Some m -> 0 < m ->
  exists a, series_mean normalized = Some a /\ a <= m /\
            a == Qsum (dropna normalized) / Qlen (dropna normalized) /\
            0 < Qlen (dropna normalized) /\
            Wake.wake_loss normalized = Some ((m - a) / m * 100).
Proof.
  intros Hmax Hm. unfold series_max in Hmax.
  unfold Wake.wake_loss, series_mean, series_max. rewrite Hmax.
  destruct (dropna normalized) as [| x v] eqn:Hv; [discriminate |].
  pose proof (Qlen_pos x v) as Hlen.
  pose proof (Qsum_upper _ _ (Qmax_list_upper _ _ Hmax)) as Hsum.
  exists (Qsum (x :: v) / Qlen (x :: v)).
  split; [reflexivity |]. split; [| split; [reflexivity | split; [assumption |]]].
  - apply Qle_shift_div_r; [assumption | lra].
  - replace (cell_gt (Some m) 0) with true by (symmetry; apply cell_gt_true; eauto).
    reflexivity.
Qed.

Lemma wake_loss_no_positive_max (normalized : list cell) :
  series_max normalized = None \/ (exists m, series_max normalized = Some m /\ m <= 0) ->
  Wake.wake_loss normalized = Some 0.
Proof.
  intros H. unfold Wake.wake_loss.
  replace (cell_gt _ 0) with false; [reflexivity |].
  symmetry. apply cell_gt_false. exact H.
Qed.

Lemma series_max_cases (normalized : list cell) :
  (series_max normalized = None \/ (exists m, series_max normalized = Some m /\ m <= 0)) \/
  (exists m, series_max normalized = Some m /\ 0 < m).
Proof.
  destruct (series_max normalized) as [m |]; [| left; now left].
  destruct (Qlt_le_dec 0 m); [right | left; right]; eauto.
Qed.

Lemma wake_loss_facts (normalized : list cell) :
  exists w : Q,
    Wake.wake_loss normalized = Some w /\
    0 <= w /\
    (forall m, series_max normalized = Some m -> 0 < m ->
       exists a, series_mean normalized = Some a /\ w == (m - a) / m * 100) /\
    (series_max normalized = None \/ (exists m, series_max normalized = Some m /\ m <= 0) ->
       w == 0) /\
    ((forall x, In (Some x) normalized -> 0 <= x) -> w < 100) /\
    (w == 0 <->
       (series_max normalized = None \/ (exists m, series_max normalized = Some m /\ m <= 0)) \/
       (forall x y, In (Some x) normalized -> In (Some y) normalized -> x == y)).
Proof.
  destruct (series_max_cases normalized) as [Hno | (m & Hmax & Hm)].
  - exists 0. rewrite (wake_loss_no_positive_max _ Hno).
    split; [reflexivity |]. split; [lra |]. split.
    { intros m Hmax Hm. destruct Hno as [Hno | (m' & Hm' & Hle)]; [congruence |].
      rewrite Hmax in Hm'. injection Hm' as <-. lra. }
    split; [reflexivity |]. split; [lra |]. split; [now left | reflexivity].
  - destruct (wake_loss_positive_max _ _ Hmax Hm) as (a & Hmean & Hle & Ha & Hlen & Hw).
    set (v := dropna normalized) in *.
    pose proof (Qmax_list_upper _ _ Hmax) as Hup.
    pose proof (Qmax_list_In _ _ Hmax) as Hin.
    assert (Hnz : ~ m == 0) by lra.
    assert (Hsum : Qsum v == a * Qlen v).
    { rewrite Ha. field. lra. }
    assert (Hdiff : (m - a) / m * 100 == 0 <-> a == m).
    { split; intros H.
      - assert (H2 : (m - a) / m * m == m - a) by (field; assumption).
        assert (H3 : (m - a) / m == 0) by lra. rewrite H3 in H2. lra.
      - rewrite H. field. assumption. }
    exists ((m - a) / m * 100). split; [exact Hw |]. split; [| split; [| split; [| split]]].
    + assert (0 <= (m - a) / m) by (apply Qle_shift_div_l; lra). lra.
    + intros m' Hm' _. rewrite Hmax in Hm'. injection Hm' as <-. exists a. now split.
    + intros [Hn | (m' & Hm' & Hle')]; [congruence |].
      rewrite Hmax in Hm'. injection Hm' as <-. lra.
    + intros Hnonneg.
      assert (Hms : m <= Qsum v).
      { apply Qsum_lower; [| exact Hin]. intros x Hx. apply Hnonneg. now apply In_dropna. }
      assert (Hapos : 0 < a).
      { rewrite Ha. apply Qlt_shift_div_l; [assumption | lra]. }
      assert ((m - a) / m < 1) by (apply Qlt_shift_div_r; lra). lra.
    + rewrite Hdiff. split.
      * intros Heq. right. intros x y Hx Hy.
        assert (Hall : forall z, In z v -> z == m).
        { apply Qsum_upper_eq; [exact Hup |]. rewrite Hsum, Heq. reflexivity. }
        rewrite (Hall x), (Hall y) by (now apply In_dropna). reflexivity.
      * intros [[Hn | (m' & Hm' & Hle')] | Hall].
        -- congruence.
        -- rewrite Hmax in Hm'. injection Hm' as <-. lra.
        -- assert (Hs : Qsum v == m * Qlen v).
           { apply Qsum_all_eq. intros x Hx. apply Hall; now apply In_dropna. }
           rewrite Hs in Hsum.
           assert (Hc : m * Qlen v / Qlen v == a * Qlen v / Qlen v) by (rewrite Hsum; reflexivity).
           rewrite !Qdiv_mult_l in Hc by lra. lra.
Qed.

Lemma normalized_power_formula (p w : Q) :
  ~ w * w * w + (1 # 10) == 0 ->
  normalized_power (Some p) (Some w) = Some (p / (w * w * w + (1 # 10))).
Proof.
  intros H. unfold normalized_power. destruct (Qeq_dec _ 0); [contradiction | reflexivity].
Qed.

Lemma In_flat_map_seq {A} (f : nat -> list A) (n : nat) (x : A) :
  In x (flat_map f (seq 0 n)) <-> exists i, (i < n)%nat /\ In x (f i).
Proof.
  rewrite in_flat_map. split; intros (i & Hi & Hx); exists i; split; auto;
    apply in_seq in Hi || apply in_seq; lia.
Qed.

(** C3, amended. Every sector the wake analysis emits reports the
    [wake_loss] of the normalised powers of its turbines, each the mean power
    over [(mean wind speed)^3 + 0.1], rounded to 2 decimals: the reported
    figure lies within 0.005 of the loss and is never negative and never NaN.
    With a positive largest normalised power the loss is
    [(max - mean) / max * 100]; otherwise the loss and the reported figure
    are 0. When no normalised power is negative the loss is below 100 and the
    reported figure at most 100. When all turbines have the same normalised
    power the reported figure is 0. The formula and the bounds are those of
    exact arithmetic. *)
Theorem wake_loss_percent_of_sector (scada_df : list scada_row) (d : Wake.direction_loss) :
  In d (Wake.direction_losses scada_df) ->
  exists (i : nat) (w p : Q),
    let dir_df := in_bin Wake.dir_bin i scada_df in
    let normalized := Wake.turbine_perf dir_df in
    (i < nbins Wake.direction_bins)%nat /\
    Wake.sample_count d = length dir_df /\
    normalized =
      map (fun t => normalized_power (series_mean (map P_avg (of_turbine t dir_df)))
                                     (series_mean (map Ws_avg (of_turbine t dir_df))))
          (turbines dir_df) /\
    (forall x s, ~ s * s * s + (1 # 10) == 0 ->
       normalized_power (Some x) (Some s) = Some (x / (s * s * s + (1 # 10)))) /\
    Wake.wake_loss normalized = Some w /\
    Wake.wake_loss_percent d = Some p /\
    - (1 # 200) <= p - w /\ p - w <= 1 # 200 /\
    0 <= p /\
    (forall m, series_max normalized = Some m -> 0 < m ->
       exists a, series_mean normalized = Some a /\ w == (m - a) / m * 100) /\
    (series_max normalized = None \/ (exists m, series_max normalized = Some m /\ m <= 0) ->
       w == 0 /\ p == 0) /\
    ((forall x, In (Some x) normalized -> 0 <= x) -> w < 100 /\ p <= 100) /\
    ((forall x y, In (Some x) normalized -> In (Some y) normalized -> x == y) -> p == 0).
Proof.
  intros Hd. unfold Wake.direction_losses in Hd.
  apply In_flat_map_seq in Hd as (i & Hi & Hd).
  unfold Wake.sector in Hd.
  destruct (length (in_bin Wake.dir_bin i scada_df) <? 100)%nat; [destruct Hd |].
  destruct (1 <? length (Wake.turbine_perf (in_bin Wake.dir_bin i scada_df)))%nat;
    [| destruct Hd].
  destruct Hd as [<- | []].
  destruct (wake_loss_facts (Wake.turbine_perf (in_bin Wake.dir_bin i scada_df)))
    as (w & Hw & H0 & Hformula & Hguard & Hlt & Hzero).
  exists i, w, (py_round w 2). cbv zeta. simpl.
  split; [exact Hi |]. split; [reflexivity |]. split; [reflexivity |].
  split; [exact normalized_power_formula |].
  split; [exact Hw |]. split; [rewrite Hw; reflexivity |].
  split; [apply py_round_2_close |]. split; [apply py_round_2_close |].
  split; [now apply py_round_nonneg |].
  split; [exact Hformula |].
  split; [intros H; split; [auto | apply py_round_2_zero; auto] |].
  split.
  - intros H. split; [auto |].
    change 100 with (inject_Z 100). apply py_round_2_le.
    change (inject_Z 100) with 100. specialize (Hlt H). lra.
  - intros H. apply py_round_2_zero. apply Hzero. now right.
Qed.

(** The sector of the two-turbine sample: the reported figure is within
    0.005 of the loss and not negative. *)
Lemma wake_loss_percent_of_sector_witness :
  exists (i : nat) (w p : Q),
    Wake.wake_loss (Wake.turbine_perf (in_bin Wake.dir_bin i scada_negative_power)) = Some w /\
    - (1 # 200) <= p - w /\ p - w <= 1 # 200 /\ 0 <= p.
Proof.
  destruct (wake_loss_percent_of_sector scada_negative_power
              {| Wake.direction_center_deg := 0;
                 Wake.wake_loss_percent := Some (20000 # 100);
                 Wake.sample_count := 100;
                 Wake.avg_wind_speed_ms := Some (100 # 100) |})
    as (i & w & p & _ & _ & _ & _ & Hw & _ & Hlo & Hhi & H0 & _).
  - vm_compute. left. reflexivity.
  - exists i, w, p. repeat split; assumption.
Defined.

(** C3 as stated fails: with normalised powers 10 and -30 in a sector the
    loss is 200 percent, outside [[0, 100)]. *)
Lemma wake_loss_above_100_percent :
  exists (d : Wake.direction_loss) (p : Q),
    In d (Wake.direction_losses scada_negative_power) /\
    (exists w, Wake.wake_loss (Wake.turbine_perf (in_bin Wake.dir_bin 0 scada_negative_power))
                 = Some w /\ w == 200) /\
    Wake.wake_loss_percent d = Some p /\
    p == 200 /\
    ~ (0 <= p /\ p < 100).
Proof.
  exists {| Wake.direction_center_deg := 0;
            Wake.wake_loss_percent := Some (20000 # 100);
            Wake.sample_count := 100;
            Wake.avg_wind_speed_ms := Some (100 # 100) |}, (20000 # 100).
  split; [vm_compute; left; reflexivity |].
  split; [eexists; split; [vm_compute; reflexivity | reflexivity] |].
  split; [reflexivity |].
  split; [reflexivity |].
  intros [_ H]. discriminate H.
Qed.

(** *** Sorted edges *)

Lemma arange_from_sorted (start step : Q) (a n : nat) :
  0 < step ->
  StronglySorted Qlt (map (fun i => start + inject_Z (Z.of_nat i) * step) (seq a n)).
Proof.
  intros Hstep. revert a. induction n as [| n IH]; intros a; simpl; constructor.
  - apply IH.
  - apply Forall_forall. intros x Hx. apply in_map_iff in Hx as (j & <- & Hj).
    apply in_seq in Hj.
    assert (Hlt : inject_Z (Z.of_nat a) < inject_Z (Z.of_nat j)) by (rewrite <- Zlt_Qlt; lia).
    nra.
Qed.

Lemma arange_sorted (start stop step : Q) :
  0 < step -> StronglySorted Qlt (arange start stop step).
Proof. intros H. unfold arange. now apply arange_from_sorted. Qed.

(** *** searchsorted on sorted edges *)

Lemma searchsorted_left_cons (b : Q) (bins : list Q) (v : Q) :
  searchsorted_left (b :: bins) v =
  ((if Qlt_le_dec b v then 1 else 0) + searchsorted_left bins v)%nat.
Proof.
  unfold searchsorted_left. simpl. destruct (Qlt_le_dec b v); reflexivity.
Qed.

Lemma searchsorted_left_none (bins : list Q) (v : Q) :
  Forall (fun x => v <= x) bins -> searchsorted_left bins v = 0%nat.
Proof.
  induction 1 as [| x l Hx _ IH]; [reflexivity |].
  rewrite searchsorted_left_cons, IH. destruct (Qlt_le_dec x v); [lra | reflexivity].
Qed.

Lemma searchsorted_left_le (bins : list Q) (v : Q) :
  (searchsorted_left bins v <= length bins)%nat.
Proof.
  induction bins as [| b r IH]; [apply Nat.le_refl |].
  rewrite searchsorted_left_cons. simpl length. destruct (Qlt_le_dec b v); lia.
Qed.

(** On increasing edges the edges below [v] are exactly the first
    [searchsorted_left bins v] ones. *)
Lemma searchsorted_left_spec (bins : list Q) (v : Q) :
  StronglySorted Qlt bins ->
  forall j x, nth_error bins j = Some x ->
    ((j < searchsorted_left bins v)%nat <-> x < v).
Proof.
  induction 1 as [| b r Hr IH Hb]; intros j x Hj; [destruct j; discriminate |].
  rewrite searchsorted_left_cons.
  destruct (Qlt_le_dec b v) as [Hlt | Hle].
  - destruct j as [| j]; simpl in Hj.
    + injection Hj as <-. split; [auto | lia].
    + rewrite <- (IH _ _ Hj). lia.
  - rewrite searchsorted_left_none.
    + split; [lia |]. intros Hx. exfalso.
      destruct j as [| j]; simpl in Hj.
      * injection Hj as <-. lra.
      * apply nth_error_In in Hj. rewrite Forall_forall in Hb. specialize (Hb _ Hj). lra.
    + eapply Forall_impl; [| exact Hb]. intros y Hy. simpl in Hy. lra.
Qed.

Lemma sorted_first_le (b : Q) (bins : list Q) (j : nat) (x : Q) :
  StronglySorted Qlt (b :: bins) -> nth_error (b :: bins) j = Some x -> b <= x.
Proof.
  intros Hs Hj. inversion Hs as [| ? ? _ Hb]; subst.
  destruct j as [| j]; simpl in Hj.
  - injection Hj as <-. lra.
  - apply nth_error_In in Hj. rewrite Forall_forall in Hb. specialize (Hb _ Hj). lra.
Qed.




(** *** Counting the rows of the emitted buckets *)

Section Buckets.
Context {A : Type} (key : A -> option nat) (nb : nat).

Lemma list_sum_zero (l : list nat) : list_sum (map (fun _ => 0%nat) l) = 0%nat.
Proof. induction l; simpl; auto. Qed.

Lemma list_sum_map_add (f g : nat -> nat) (l : list nat) :
  list_sum (map (fun i => f i + g i)%nat l) = (list_sum (map f l) + list_sum (map g l))%nat.
Proof. induction l as [| x l IH]; simpl; lia. Qed.

Lemma list_sum_indicator (keep : nat -> bool) (j n : nat) :
  list_sum (map (fun i => if (j =? i)%nat && keep i then 1 else 0)%nat (seq 0 n)) =
  (if (j <? n)%nat && keep j then 1 else 0)%nat.
Proof.
  induction n as [| n IH]; [reflexivity |].
  rewrite seq_S, map_app, list_sum_app, IH. simpl.
  destruct (Nat.eqb_spec j n) as [-> | Hne].
  - replace (n <? n)%nat with false by (symmetry; apply Nat.ltb_ge; lia).
    replace (n <? S n)%nat with true by (symmetry; apply Nat.ltb_lt; lia).
    simpl. destruct (keep n); reflexivity.
  - destruct (Nat.ltb_spec j n), (Nat.ltb_spec j (S n)); simpl; try lia.
Qed.

Lemma in_bin_cons (r : A) (df : list A) (i : nat) :
  length (in_bin key i (r :: df)) =
  (length (in_bin key i df) +
   match key r with Some j => if (j =? i)%nat then 1 else 0 | None => 0 end)%nat.
Proof.
  unfold in_bin. simpl. destruct (key r) as [j |]; [| lia].
  destruct (j =? i)%nat; simpl; lia.
Qed.

(** The counts of the emitted buckets add up to the number of rows that lie
    in an emitted bucket. *)
Lemma emitted_counts (keep : nat -> bool) (df : list A) :
  list_sum (map (fun i => if keep i then length (in_bin key i df) else 0%nat) (seq 0 nb)) =
  length (List.filter (emitted_row key nb keep) df).
Proof.
  induction df as [| r df IH].
  - simpl. induction (seq 0 nb) as [| x l IHl]; simpl; [reflexivity |].
    rewrite IHl. destruct (keep x); reflexivity.
  - rewrite (map_ext _
      (fun i => ((if keep i then length (in_bin key i df) else 0) +
                 (if match key r with Some j => (j =? i)%nat | None => false end && keep i
                  then 1 else 0))%nat)).
    2:{ intros i. rewrite in_bin_cons.
        destruct (keep i), (key r) as [j |]; try destruct (j =? i)%nat; simpl; lia. }
    rewrite list_sum_map_add, IH. simpl List.filter. unfold emitted_row at 2.
    destruct (key r) as [j |].
    + rewrite list_sum_indicator. destruct ((j <? nb)%nat && keep j); simpl; lia.
    + simpl. replace (list_sum (map (fun _ => 0%nat) (seq 0 nb))) with 0%nat; [lia |].
      symmetry. apply list_sum_zero.
Qed.

Lemma filter_length_bound (p : A -> bool) (df : list A) :
  (length (List.filter p df) <= length df)%nat.
Proof. induction df as [| r df IH]; simpl; [lia |]. destruct (p r); simpl; lia. Qed.

Lemma filter_length_full (p : A -> bool) (df : list A) :
  length (List.filter p df) = length df <-> forall r, In r df -> p r = true.
Proof.
  induction df as [| r df IH]; simpl; [split; [intros _ ? [] | reflexivity] |].
  pose proof (filter_length_bound p df).
  destruct (p r) eqn:Hp; simpl.
  - split.
    + intros H0 x [<- | Hx]; [assumption |]. apply IH; [lia | assumption].
    + intros Hall. f_equal. apply IH. auto.
  - split; [lia |]. intros Hall. specialize (Hall r (or_introl eq_refl)). congruence.
Qed.

Lemma in_bin_In (i : nat) (df : list A) (r : A) :
  In r (in_bin key i df) <-> In r df /\ key r = Some i.
Proof.
  unfold in_bin. rewrite filter_In. apply and_iff_compat_l.
  destruct (key r) as [j |]; [| split; [discriminate | intros [=]]].
  destruct (Nat.eqb_spec j i); split; congruence.
Qed.

Lemma in_bin_nonempty (i : nat) (df : list A) :
  (0 < length (in_bin key i df))%nat <-> exists r, In r df /\ key r = Some i.
Proof.
  split.
  - destruct (in_bin key i df) as [| r g] eqn:Hg; [simpl; lia |].
    intros _. exists r. apply in_bin_In. rewrite Hg. now left.
  - intros (r & Hr). apply in_bin_In in Hr.
    destruct (in_bin key i df); [destruct Hr | simpl; lia].
Qed.

(** All rows are counted exactly when none is dropped and no bucket that
    holds a row is held back. *)
Lemma emitted_all (keep : nat -> bool) (df : list A) :
  (forall r j, key r = Some j -> (j < nb)%nat) ->
  ((forall r, In r df -> emitted_row key nb keep r = true) <->
   (forall r, In r df -> key r <> None) /\
   (forall i, (0 < length (in_bin key i df))%nat -> keep i = true)).
Proof.
  intros Hbound. unfold emitted_row. split.
  - intros Hall. split.
    + intros r Hr Hnone. specialize (Hall r Hr). rewrite Hnone in Hall. discriminate.
    + intros i Hi. apply in_bin_nonempty in Hi as (r & Hr & Hk).
      specialize (Hall r Hr). rewrite Hk in Hall. apply andb_true_iff in Hall. tauto.
  - intros [Hkey Hkeep] r Hr. specialize (Hkey r Hr).
    destruct (key r) as [j |] eqn:Hk; [| congruence].
    apply andb_true_iff. split.
    + apply Nat.ltb_lt. eauto.
    + apply Hkeep. apply in_bin_nonempty. eauto.
Qed.
End Buckets.

Lemma list_sum_flat_map {A B} (f : A -> list B) (c : B -> nat) (l : list A) :
  list_sum (map c (flat_map f l)) = list_sum (map (fun a => list_sum (map c (f a))) l).
Proof.
  induction l as [| a l IH]; [reflexivity |].
  simpl. rewrite map_app, list_sum_app, IH. reflexivity.
Qed.

Lemma cut_bound (include_lowest : bool) (bins : list Q) (x : cell) (j : nat) :
  cut include_lowest bins x = Some j -> (j < nbins bins)%nat.
Proof.
  unfold cut, nbins. destruct x as [v |]; [| discriminate].
  assert (Hle : (searchsorted_left bins v <= length bins)%nat) by apply searchsorted_left_le.
  destruct bins as [| b0 r].
  - cbn. discriminate.
  - destruct (include_lowest && (if Qeq_dec v b0 then true else false)).
    + destruct (1 =? length (b0 :: r))%nat eqn:E; [discriminate |].
      apply Nat.eqb_neq in E. cbn [orb Nat.eqb]. intros [= <-]. simpl in *. lia.
    + destruct (searchsorted_left (b0 :: r) v =? length (b0 :: r))%nat eqn:E1; [discriminate |].
      destruct (searchsorted_left (b0 :: r) v =? 0)%nat eqn:E2; [discriminate |].
      apply Nat.eqb_neq in E1, E2. cbn [orb]. intros [= <-]. lia.
Qed.

Lemma dropna_length_some {A} (f : A -> cell) (g : list A) :
  (forall r, In r g -> f r <> None) -> length (dropna (map f g)) = length g.
Proof.
  induction g as [| r g IH]; intros H; [reflexivity |].
  simpl. destruct (f r) eqn:Hf.
  - simpl. f_equal. apply IH. intros; apply H; now right.
  - exfalso. apply (H r); [now left | assumption].
Qed.





(** *** idxmax *)





(** *** The operating rows and their vane groups *)

Lemma cell_ge_true (c : cell) (k : Q) : cell_ge c k = true <-> exists q, c = Some q /\ k <= q.
Proof.
  unfold cell_ge. destruct c as [q |].
  - rewrite Qle_bool_iff. split; [eauto | intros (? & [= <-] & ?); assumption].
  - split; [discriminate | intros (? & [=] & _)].
Qed.

Lemma cell_le_true (c : cell) (k : Q) : cell_le c k = true <-> exists q, c = Some q /\ q <= k.
Proof.
  unfold cell_le. destruct c as [q |].
  - rewrite Qle_bool_iff. split; [eauto | intros (? & [= <-] & ?); assumption].
  - split; [discriminate | intros (? & [=] & _)].
Qed.

Lemma operating_In (t_df : list scada_row) (r : scada_row) :
  In r (Yaw.operating t_df) <->
  In r t_df /\ exists p w, P_avg r = Some p /\ 100 < p /\ Ws_avg r = Some w /\ 5 <= w /\ w <= 10.
Proof.
  unfold Yaw.operating. rewrite filter_In, !andb_true_iff, cell_gt_true, cell_ge_true,
    cell_le_true.
  apply and_iff_compat_l. split.
  - intros [[(p & Hp & Hp1) (w & Hw & Hw1)] (w' & Hw' & Hw2)].
    rewrite Hw in Hw'. injection Hw' as <-. exists p, w. auto.
  - intros (p & w & Hp & Hp1 & Hw & Hw1 & Hw2). eauto 10.
Qed.




Lemma vane_power_In (t_df : list scada_row) (b : Yaw.vane_row) :
  In b (Yaw.vane_power t_df) <-> In b (Yaw.vane_groups t_df) /\ (50 <= Yaw.count b)%nat.
Proof.
  unfold Yaw.vane_power. rewrite filter_In, Nat.leb_le. reflexivity.
Qed.






(** *** Rows of the emitted buckets *)

Lemma power_curve_valid_P (scada_df : list scada_row) (r : scada_row) :
  In r (power_curve_valid scada_df) -> P_avg r <> None.
Proof.
  unfold power_curve_valid. rewrite filter_In. intros [_ H].
  destruct (P_avg r); [discriminate | discriminate H].
Qed.

(** The bucket of the power curve at index [i] is emitted when it holds ten rows. *)
Lemma curve_bucket_count (bin_width : Q) (scada_df : list scada_row) (i : nat) :
  let df := power_curve_valid scada_df in
  let n := length (in_bin (ws_bin bin_width) i df) in
  list_sum (map cp_count (curve_bucket bin_width df i)) = if (10 <=? n)%nat then n else 0%nat.
Proof.
  cbv zeta. unfold curve_bucket.
  rewrite dropna_length_some.
  2:{ intros r Hr. apply in_bin_In in Hr as [Hr _]. eapply power_curve_valid_P; eauto. }
  set (n := length _).
  destruct (Nat.ltb_spec 0 n), (Nat.leb_spec 10 n); simpl; lia.
Qed.

Lemma measured_curve_counts (turbine_id : option string) (bin_width : Q)
  (scada_df : list scada_row) :
  let df := power_curve_frame turbine_id scada_df in
  list_sum (map cp_count (measured_curve turbine_id bin_width scada_df)) =
  length (List.filter
            (emitted_row (ws_bin bin_width) (nbins (ws_bins bin_width))
               (fun i => (10 <=? length (in_bin (ws_bin bin_width) i df))%nat)) df).
Proof.
  cbv zeta. unfold measured_curve. rewrite list_sum_flat_map.
  rewrite <- emitted_counts. apply (f_equal list_sum). apply map_ext. intros i.
  unfold power_curve_frame. apply curve_bucket_count.
Qed.

Lemma measured_curve_min_count (turbine_id : option string) (bin_width : Q)
  (scada_df : list scada_row) :
  Forall (fun p => (10 <= cp_count p)%nat) (measured_curve turbine_id bin_width scada_df).
Proof.
  apply Forall_forall. intros p Hp. unfold measured_curve in Hp.
  apply In_flat_map_seq in Hp as (i & _ & Hp). unfold curve_bucket in Hp.
  destruct (0 <? _)%nat; [| destruct Hp].
  destruct (Nat.leb_spec 10 (length (dropna (map P_avg
              (in_bin (ws_bin bin_width) i (power_curve_frame turbine_id scada_df))))));
    [| destruct Hp].
  destruct Hp as [<- | []]. simpl. assumption.
Qed.

Lemma direction_losses_counts (scada_df : list scada_row) :
  list_sum (map Wake.sample_count (Wake.direction_losses scada_df)) =
  length (List.filter
            (emitted_row Wake.dir_bin (nbins Wake.direction_bins) (wake_keep scada_df))
            scada_df).
Proof.
  unfold Wake.direction_losses. rewrite list_sum_flat_map.
  rewrite <- emitted_counts. apply (f_equal list_sum). apply map_ext. intros i.
  unfold Wake.sector, wake_keep. cbv zeta.
  destruct (length (in_bin Wake.dir_bin i scada_df) <? 100)%nat; [reflexivity |].
  destruct (1 <? length (Wake.turbine_perf (in_bin Wake.dir_bin i scada_df)))%nat;
    simpl; lia.
Qed.

Lemma direction_losses_min_count (scada_df : list scada_row) :
  Forall (fun d => (100 <= Wake.sample_count d)%nat) (Wake.direction_losses scada_df).
Proof.
  apply Forall_forall. intros d Hd. unfold Wake.direction_losses in Hd.
  apply In_flat_map_seq in Hd as (i & _ & Hd). unfold Wake.sector in Hd.
  destruct (Nat.ltb_spec (length (in_bin Wake.dir_bin i scada_df)) 100); [destruct Hd |].
  destruct (1 <? _)%nat; [| destruct Hd].
  destruct Hd as [<- | []]. simpl. assumption.
Qed.

Lemma filter_turbine_length (turbine_id : option string) (scada_df : list scada_row) :
  (length (filter_turbine turbine_id scada_df) <= length scada_df)%nat.
Proof.
  unfold filter_turbine, of_turbine. destruct turbine_id as [t |]; [| lia].
  destruct (String.eqb t ""); [lia | apply filter_length_bound].
Qed.

Lemma forallb_In {A} (p : A -> bool) (l : list A) :
  forallb p l = true -> forall r, In r l -> p r = true.
Proof. intros H. now apply forallb_forall. Qed.


(** *** Values that get no bucket *)

Lemma cut_none_iff (include_lowest : bool) (bins : list Q) (v b0 bl : Q) :
  StronglySorted Qlt bins ->
  nth_error bins 0 = Some b0 ->
  nth_error bins (length bins - 1) = Some bl ->
  (2 <= length bins)%nat ->
  (cut include_lowest bins (Some v) = None <->
   (if include_lowest then v < b0 else v <= b0) \/ bl < v).
Proof.
  intros Hs H0 Hl Hlen.
  pose proof (searchsorted_left_spec bins v Hs) as Hspec.
  pose proof (searchsorted_left_le bins v) as Hle.
  pose proof (Hspec _ _ H0) as Hfirst. pose proof (Hspec _ _ Hl) as Hlast.
  assert (Hb : b0 <= bl).
  { destruct bins as [| b r]; [discriminate |]. simpl in H0. injection H0 as ->.
    eapply sorted_first_le; eauto. }
  unfold cut. destruct bins as [| b r]; [discriminate |].
  simpl in H0. injection H0 as ->.
  set (k := searchsorted_left (b0 :: r) v) in *.
  assert (Hplain : (if (k =? length (b0 :: r))%nat || (k =? 0)%nat
                    then None else Some (k - 1)%nat) = None <-> v <= b0 \/ bl < v).
  { destruct (Nat.eqb_spec k (length (b0 :: r))) as [E1 | E1]; cbn [orb].
    - split; [intros _ | reflexivity]. right. apply Hlast. lia.
    - destruct (Nat.eqb_spec k 0) as [E2 | E2].
      + split; [intros _ | reflexivity]. left.
        destruct (Qlt_le_dec b0 v) as [H | H]; [apply Hfirst in H; lia | assumption].
      + split; [discriminate |]. intros [H | H]; exfalso.
        * assert (0 < k)%nat by lia. apply Hfirst in H0. lra.
        * apply Hlast in H. lia. }
  destruct include_lowest; cbn [andb].
  - destruct (Qeq_dec v b0) as [Heq | Hne].
    + replace (1 =? length (b0 :: r))%nat with false
        by (symmetry; apply Nat.eqb_neq; simpl in *; lia).
      cbn. split; [discriminate | intros [H | H]; lra].
    + rewrite Hplain. split; intros [H | H]; auto; left; [| lra].
      destruct (Qlt_le_dec v b0); [assumption |]. exfalso. apply Hne. lra.
  - exact Hplain.
Qed.

(** *** Wind rose *)

Lemma nth_error_arange (start stop step : Q) (k : nat) :
  (k < length (arange start stop step))%nat ->
  nth_error (arange start stop step) k = Some (start + inject_Z (Z.of_nat k) * step).
Proof.
  unfold arange. rewrite length_map, length_seq. intros H.
  rewrite nth_error_map, nth_error_seq.
  replace (k <? _)%nat with true by (symmetry; apply Nat.ltb_lt; assumption).
  reflexivity.
Qed.

Lemma rose_direction_bins_length : length rose_direction_bins = 17%nat.
Proof. vm_compute. reflexivity. Qed.

Lemma rose_dir_bin_some (r : scada_row) (w : Q) :
  Wa_avg r = Some w -> 0 <= w -> w <= 360 -> rose_dir_bin r <> None.
Proof.
  intros Hw H0 H360. unfold rose_dir_bin. rewrite Hw.
  intros Hnone.
  apply (cut_none_iff true rose_direction_bins w
           (0 + inject_Z (Z.of_nat 0) * (45 # 2))
           (0 + inject_Z (Z.of_nat 16) * (45 # 2))) in Hnone.
  - assert (E0 : 0 + inject_Z (Z.of_nat 0) * (45 # 2) == 0) by reflexivity.
    assert (E1 : 0 + inject_Z (Z.of_nat 16) * (45 # 2) == 360) by reflexivity.
    destruct Hnone as [Hn | Hn]; lra.
  - apply arange_sorted. reflexivity.
  - apply nth_error_arange. fold rose_direction_bins.
    rewrite rose_direction_bins_length. lia.
  - rewrite rose_direction_bins_length.
    apply nth_error_arange. fold rose_direction_bins.
    rewrite rose_direction_bins_length. lia.
  - rewrite rose_direction_bins_length. lia.
Qed.

Lemma wind_rose_valid_In (scada_df : list scada_row) (r : scada_row) :
  In r (wind_rose_valid scada_df) <->
  In r scada_df /\
  exists a w, Wa_avg r = Some a /\ 0 <= a /\ a <= 360 /\ Ws_avg r = Some w /\ 0 <= w.
Proof.
  unfold wind_rose_valid. rewrite filter_In, !andb_true_iff, !cell_ge_true, cell_le_true.
  apply and_iff_compat_l. split.
  - intros [[(a & Ha & Ha0) (a' & Ha' & Ha1)] (w & Hw & Hw0)].
    rewrite Ha in Ha'. injection Ha' as <-. exists a, w. auto.
  - intros (a & w & Ha & Ha0 & Ha1 & Hw & Hw0). eauto 10.
Qed.

(** *** Power curve *)

Lemma ws_bins_length (bin_width : Q) :
  0 < bin_width ->
  (2 <= length (ws_bins bin_width))%nat /\
  30 <= 0 + inject_Z (Z.of_nat (length (ws_bins bin_width) - 1)) * bin_width.
Proof.
  intros Hbw. unfold ws_bins, arange. rewrite length_map, length_seq.
  set (x := (30 + bin_width - 0) / bin_width).
  pose proof (Qle_ceiling x) as Hceil.
  assert (Hx : x == 30 / bin_width + 1) by (unfold x; field; lra).
  assert (H30 : 0 < 30 / bin_width) by (apply Qlt_shift_div_l; lra).
  assert (Hc1 : (1 < Qceiling x)%Z).
  { rewrite Zlt_Qlt. change (inject_Z 1) with 1. lra. }
  split; [lia |].
  rewrite Nat2Z.inj_sub, Z2Nat.id by lia.
  change (Z.of_nat 1) with 1%Z. unfold Z.sub. rewrite inject_Z_plus.
  change (inject_Z (- (1))) with (-1).
  assert (H : 30 / bin_width <= inject_Z (Qceiling x) + -1) by lra.
  assert (H2 : 30 == 30 / bin_width * bin_width) by (field; lra).
  rewrite H2 at 1. nra.
Qed.

Lemma power_curve_valid_In (scada_df : list scada_row) (r : scada_row) :
  In r (power_curve_valid scada_df) <->
  In r scada_df /\
  exists p w, P_avg r = Some p /\ 0 <= p /\ Ws_avg r = Some w /\ 0 <= w /\ w <= 30.
Proof.
  unfold power_curve_valid. rewrite filter_In, !andb_true_iff, !cell_ge_true, cell_le_true.
  apply and_iff_compat_l. split.
  - intros [[(p & Hp & Hp0) (w & Hw & Hw0)] (w' & Hw' & Hw1)].
    rewrite Hw in Hw'. injection Hw' as <-. exists p, w. auto.
  - intros (p & w & Hp & Hp0 & Hw & Hw0 & Hw1). eauto 10.
Qed.


(** *** Filters that keep every row *)

Lemma filter_filter {A} (p q : A -> bool) (l : list A) :
  List.filter p (List.filter q l) = List.filter (fun r => q r && p r) l.
Proof.
  induction l as [| r l IH]; [reflexivity |]. simpl.
  destruct (q r); simpl; [destruct (p r) |]; rewrite ?IH; reflexivity.
Qed.

Lemma filter_keeps_all {A} (p : A -> bool) (l : list A) :
  length (List.filter p l) = length l <-> forall r, In r l -> In r (List.filter p l).
Proof.
  rewrite filter_length_full. split; intros H r Hr.
  - apply filter_In. auto.
  - apply H in Hr. apply filter_In in Hr. tauto.
Qed.

(** The turbine filter of the data explorer, as a test on a row. *)
Lemma filter_turbine_as_filter (turbine_id : option string) (scada_df : list scada_row) :
  exists q, filter_turbine turbine_id scada_df = List.filter q scada_df.
Proof.
  unfold filter_turbine, of_turbine. destruct turbine_id as [t |].
  - destruct (String.eqb t "").
    + exists (fun _ => true). induction scada_df as [| r l IH]; simpl; congruence.
    + eauto.
  - exists (fun _ => true). induction scada_df as [| r l IH]; simpl; congruence.
Qed.

Lemma power_curve_frame_full (turbine_id : option string) (scada_df : list scada_row) :
  length (power_curve_frame turbine_id scada_df) = length scada_df <->
  forall r, In r scada_df -> In r (power_curve_frame turbine_id scada_df).
Proof.
  unfold power_curve_frame, power_curve_valid.
  destruct (filter_turbine_as_filter turbine_id scada_df) as (q & ->).
  rewrite filter_filter. apply filter_keeps_all.
Qed.

Lemma wind_rose_frame_full (turbine_id : option string) (scada_df : list scada_row) :
  length (wind_rose_frame turbine_id scada_df) = length scada_df <->
  forall r, In r scada_df -> In r (wind_rose_frame turbine_id scada_df).
Proof.
  unfold wind_rose_frame, wind_rose_valid.
  destruct (filter_turbine_as_filter turbine_id scada_df) as (q & ->).
  rewrite filter_filter. apply filter_keeps_all.
Qed.

Lemma wind_rose_frame_length (turbine_id : option string) (scada_df : list scada_row) :
  (length (wind_rose_frame turbine_id scada_df) <= length scada_df)%nat.
Proof.
  unfold wind_rose_frame, wind_rose_valid.
  etransitivity; [apply filter_length_bound | apply filter_turbine_length].
Qed.

(** *** The sectors of the wind rose *)

Lemma wind_rose_frame_binned (turbine_id : option string) (scada_df : list scada_row)
  (r : scada_row) :
  In r (wind_rose_frame turbine_id scada_df) -> rose_dir_bin r <> None.
Proof.
  intros Hr. unfold wind_rose_frame in Hr.
  apply wind_rose_valid_In in Hr as (_ & a & w & Ha & Ha0 & Ha1 & _).
  eapply rose_dir_bin_some; eauto.
Qed.

Lemma wind_rose_counts (turbine_id : option string) (scada_df : list scada_row) :
  list_sum (map rs_count (wind_rose turbine_id scada_df)) =
  length (wind_rose_frame turbine_id scada_df).
Proof.
  unfold wind_rose. rewrite list_sum_flat_map.
  rewrite (map_ext _ (fun i =>
             if (0 <? length (in_bin rose_dir_bin i (wind_rose_frame turbine_id scada_df)))%nat
             then length (in_bin rose_dir_bin i (wind_rose_frame turbine_id scada_df))
             else 0%nat)).
  2:{ intros i. unfold rose_bucket. destruct (0 <? _)%nat; simpl; lia. }
  rewrite (emitted_counts rose_dir_bin (nbins rose_direction_bins)
             (fun i => (0 <? length (in_bin rose_dir_bin i
                                        (wind_rose_frame turbine_id scada_df)))%nat)).
  apply filter_length_full.
  apply emitted_all; [intros r j; apply cut_bound |].
  split; [apply wind_rose_frame_binned |]. intros i Hi. now apply Nat.ltb_lt.
Qed.

Lemma wind_rose_min_count (turbine_id : option string) (scada_df : list scada_row) :
  Forall (fun s => (1 <= rs_count s)%nat) (wind_rose turbine_id scada_df).
Proof.
  apply Forall_forall. intros s Hs. unfold wind_rose in Hs.
  apply In_flat_map_seq in Hs as (i & _ & Hs). unfold rose_bucket in Hs.
  destruct (Nat.ltb_spec 0 (length (in_bin rose_dir_bin i
                                      (wind_rose_frame turbine_id scada_df))));
    [| destruct Hs].
  destruct Hs as [<- | []]. simpl. lia.
Qed.

(** *** The vane curve of a turbine *)

Lemma filter_flat_map {A B} (p : B -> bool) (f : A -> list B) (l : list A) :
  List.filter p (flat_map f l) = flat_map (fun a => List.filter p (f a)) l.
Proof.
  induction l as [| a l IH]; [reflexivity |].
  simpl. rewrite filter_app, IH. reflexivity.
Qed.

Lemma operating_P (t_df : list scada_row) (r : scada_row) :
  In r (Yaw.operating t_df) -> P_avg r <> None.
Proof.
  intros Hr. apply operating_In in Hr as (_ & p & w & Hp & _). congruence.
Qed.

Lemma vane_power_counts (t_df : list scada_row) :
  let df := Yaw.operating t_df in
  list_sum (map Yaw.count (Yaw.vane_power df)) =
  length (List.filter
            (emitted_row Yaw.vane_bin (nbins Yaw.vane_bins)
               (fun i => (50 <=? length (in_bin Yaw.vane_bin i df))%nat)) df).
Proof.
  cbv zeta. unfold Yaw.vane_power, Yaw.vane_groups.
  rewrite filter_flat_map, list_sum_flat_map, <- emitted_counts.
  apply (f_equal list_sum). apply map_ext. intros i. unfold Yaw.vane_group.
  set (g := in_bin Yaw.vane_bin i (Yaw.operating t_df)).
  assert (Hc : length (dropna (map P_avg g)) = length g).
  { apply dropna_length_some. intros r Hr. apply in_bin_In in Hr as [Hr _].
    eapply operating_P; eauto. }
  destruct (Nat.ltb_spec 0 (length g)).
  - cbn [List.filter Yaw.count]. rewrite Hc.
    destruct (Nat.leb_spec 50 (length g)); cbn [map Yaw.count];
      unfold list_sum; cbn [fold_right]; lia.
  - cbn [List.filter map list_sum]. destruct (Nat.leb_spec 50 (length g)); [lia | reflexivity].
Qed.

Lemma vane_power_min_count (t_df : list scada_row) :
  Forall (fun b => (50 <= Yaw.count b)%nat) (Yaw.vane_power t_df).
Proof.
  apply Forall_forall. intros b Hb. now apply vane_power_In in Hb as [_ Hb].
Qed.

Lemma estimate_curve (name : string) (t_df : list scada_row) (e : Yaw.turbine) :
  In e (Yaw.estimate name t_df) ->
  Yaw.turbine_id e = name /\ Yaw.vane_power_curve e = Yaw.vane_power t_df.
Proof.
  unfold Yaw.estimate. destruct (length t_df <? 1000)%nat; [intros [] |].
  destruct (3 <? length (Yaw.vane_power t_df))%nat; [| intros []].
  destruct (idxmax _); [| intros []]. intros [<- | []]. split; reflexivity.
Qed.

Lemma turbine_results_In (scada_df : list scada_row) (e : Yaw.turbine) :
  In e (Yaw.turbine_results scada_df) ->
  In (Yaw.turbine_id e) (turbines scada_df) /\
  Yaw.vane_power_curve e =
    Yaw.vane_power (Yaw.operating (of_turbine (Yaw.turbine_id e) scada_df)).
Proof.
  intros He. unfold Yaw.turbine_results in He.
  apply in_flat_map in He as (name & Hname & He).
  apply estimate_curve in He as [<- Hc]. auto.
Qed.

Lemma operating_length (t_df : list scada_row) :
  (length (Yaw.operating t_df) <= length t_df)%nat.
Proof. apply filter_length_bound. Qed.

Lemma of_turbine_length (name : string) (scada_df : list scada_row) :
  (length (of_turbine name scada_df) <= length scada_df)%nat.
Proof. apply filter_length_bound. Qed.

(** C5, amended. For each of the four binned aggregations that report a
    count per bucket (the power curve, the sectors of the wake analysis, the
    sectors of the wind rose, the vane curve of a turbine in the yaw
    analysis) the counts of the emitted buckets add up to at most the number
    of rows binned, which is at most the number of rows of the input. An
    emitted bucket holds at least 10 rows in the power curve, 100 in the wake
    analysis, 1 in the wind rose and 50 in a vane curve. The sum equals the
    number of rows binned exactly when no row is dropped by the binning and
    every bucket that holds a row reaches the minimum and, in the wake
    analysis, holds more than one turbine; in the wind rose it always does.
    It equals the number of rows of the input exactly when, besides, every
    row of the input passes the filters of the handler. *)
Theorem emitted_counts_bounded (turbine_id : option string) (bin_width : Q)
  (scada_df : list scada_row) :
  0 < bin_width ->
  let df := power_curve_frame turbine_id scada_df in
  let curve := measured_curve turbine_id bin_width scada_df in
  let losses := Wake.direction_losses scada_df in
  let rose_df := wind_rose_frame turbine_id scada_df in
  let rose := wind_rose turbine_id scada_df in
  (list_sum (map cp_count curve) <= length df <= length scada_df)%nat /\
  Forall (fun p => (10 <= cp_count p)%nat) curve /\
  (list_sum (map cp_count curve) = length df <->
     (forall r, In r df -> ws_bin bin_width r <> None) /\
     (forall i, let n := length (in_bin (ws_bin bin_width) i df) in
                (0 < n)%nat -> (10 <= n)%nat)) /\
  (list_sum (map Wake.sample_count losses) <= length scada_df)%nat /\
  Forall (fun d => (100 <= Wake.sample_count d)%nat) losses /\
  (list_sum (map Wake.sample_count losses) = length scada_df <->
     (forall r, In r scada_df -> Wake.dir_bin r <> None) /\
     (forall i, let g := in_bin Wake.dir_bin i scada_df in
                (0 < length g)%nat -> (100 <= length g)%nat /\ (1 < length (turbines g))%nat)) /\
  (list_sum (map cp_count curve) = length scada_df <->
     (forall r, In r scada_df -> In r df) /\
     (forall r, In r df -> ws_bin bin_width r <> None) /\
     (forall i, let n := length (in_bin (ws_bin bin_width) i df) in
                (0 < n)%nat -> (10 <= n)%nat)) /\
  (list_sum (map rs_count rose) = length rose_df /\
   (length rose_df <= length scada_df)%nat /\
   Forall (fun s => (1 <= rs_count s)%nat) rose /\
   (forall r, In r rose_df -> rose_dir_bin r <> None) /\
   (list_sum (map rs_count rose) = length scada_df <->
      forall r, In r scada_df -> In r rose_df)) /\
  (forall e, In e (Yaw.turbine_results scada_df) ->
     let rows := of_turbine (Yaw.turbine_id e) scada_df in
     let t_df := Yaw.operating rows in
     let vane_curve := Yaw.vane_power_curve e in
     (list_sum (map Yaw.count vane_curve) <= length t_df)%nat /\
     (length t_df <= length rows)%nat /\
     (length rows <= length scada_df)%nat /\
     Forall (fun b => (50 <= Yaw.count b)%nat) vane_curve /\
     (list_sum (map Yaw.count vane_curve) = length t_df <->
        (forall r, In r t_df -> Yaw.vane_bin r <> None) /\
        (forall i, let n := length (in_bin Yaw.vane_bin i t_df) in
                   (0 < n)%nat -> (50 <= n)%nat)) /\
     (list_sum (map Yaw.count vane_curve) = length rows <->
        (forall r, In r rows -> In r t_df) /\
        (forall r, In r t_df -> Yaw.vane_bin r <> None) /\
        (forall i, let n := length (in_bin Yaw.vane_bin i t_df) in
                   (0 < n)%nat -> (50 <= n)%nat))).
Proof.
  intros _. cbv zeta.
  assert (Hchain : (list_sum (map cp_count (measured_curve turbine_id bin_width scada_df))
                    <= length (power_curve_frame turbine_id scada_df) <= length scada_df)%nat).
  { rewrite measured_curve_counts. split; [apply filter_length_bound |].
    unfold power_curve_frame, power_curve_valid.
    etransitivity; [apply filter_length_bound | apply filter_turbine_length]. }
  assert (Hcurve : list_sum (map cp_count (measured_curve turbine_id bin_width scada_df))
                   = length (power_curve_frame turbine_id scada_df) <->
                   (forall r, In r (power_curve_frame turbine_id scada_df) ->
                              ws_bin bin_width r <> None) /\
                   (forall i, (0 < length (in_bin (ws_bin bin_width) i
                                             (power_curve_frame turbine_id scada_df)))%nat ->
                              (10 <= length (in_bin (ws_bin bin_width) i
                                               (power_curve_frame turbine_id scada_df)))%nat)).
  { rewrite measured_curve_counts.
    rewrite filter_length_full, emitted_all by (intros r j; apply cut_bound).
    apply and_iff_compat_l. split; intros H i Hi; specialize (H i Hi).
    - now apply Nat.leb_le.
    - now apply Nat.leb_le. }
  split; [exact Hchain |].
  split; [apply measured_curve_min_count |].
  split; [exact Hcurve |].
  split; [rewrite direction_losses_counts; apply filter_length_bound |].
  split; [apply direction_losses_min_count |].
  split.
  { rewrite direction_losses_counts.
    rewrite filter_length_full, emitted_all by (intros r j; apply cut_bound).
    apply and_iff_compat_l. unfold wake_keep, Wake.turbine_perf. cbv zeta.
    split; intros H i Hi; specialize (H i Hi).
    - apply andb_true_iff in H as [H1 H2]. rewrite length_map in H2.
      apply Nat.ltb_lt in H2. apply negb_true_iff, Nat.ltb_ge in H1. auto.
    - destruct H as [H1 H2]. apply andb_true_iff. rewrite length_map. split.
      + apply negb_true_iff, Nat.ltb_ge. assumption.
      + now apply Nat.ltb_lt. }
  split.
  { split.
    - intros H. split.
      + apply power_curve_frame_full. lia.
      + apply Hcurve. lia.
    - intros [Hall Hrest]. apply power_curve_frame_full in Hall. apply Hcurve in Hrest. lia. }
  split.
  { split; [apply wind_rose_counts |].
    split; [apply wind_rose_frame_length |].
    split; [apply wind_rose_min_count |].
    split; [apply wind_rose_frame_binned |].
    rewrite wind_rose_counts. apply wind_rose_frame_full. }
  intros e He. apply turbine_results_In in He as [_ ->].
  set (rows := of_turbine (Yaw.turbine_id e) scada_df).
  assert (Hyaw : list_sum (map Yaw.count (Yaw.vane_power (Yaw.operating rows)))
                 = length (Yaw.operating rows) <->
                 (forall r, In r (Yaw.operating rows) -> Yaw.vane_bin r <> None) /\
                 (forall i, (0 < length (in_bin Yaw.vane_bin i (Yaw.operating rows)))%nat ->
                            (50 <= length (in_bin Yaw.vane_bin i (Yaw.operating rows)))%nat)).
  { rewrite vane_power_counts.
    rewrite filter_length_full, emitted_all by (intros r j; apply cut_bound).
    apply and_iff_compat_l. split; intros H i Hi; specialize (H i Hi).
    - now apply Nat.leb_le.
    - now apply Nat.leb_le. }
  assert (Hle : (list_sum (map Yaw.count (Yaw.vane_power (Yaw.operating rows)))
                 <= length (Yaw.operating rows))%nat)
    by (rewrite vane_power_counts; apply filter_length_bound).
  pose proof (operating_length rows) as Hop.
  split; [exact Hle |]. split; [exact Hop |].
  split; [apply of_turbine_length |].
  split; [apply vane_power_min_count |].
  split; [exact Hyaw |].
  split.
  - intros H. split.
    + apply (filter_keeps_all _ rows). change (length (Yaw.operating rows) = length rows). lia.
    + apply Hyaw. lia.
  - intros [Hall Hrest]. apply (filter_keeps_all _ rows) in Hall.
    change (length (Yaw.operating rows) = length rows) in Hall.
    apply Hyaw in Hrest. lia.
Qed.

(** On a frame of 15 rows no bucket of the power curve and no sector of the
    wake analysis is emitted, and the sectors of the wind rose count all 15
    rows. *)
Lemma emitted_counts_bounded_witness :
  (list_sum (map cp_count (measured_curve None (1 # 2) scada_small))
   <= length (power_curve_frame None scada_small))%nat /\
  (list_sum (map Wake.sample_count (Wake.direction_losses scada_small))
   <= length scada_small)%nat /\
  list_sum (map rs_count (wind_rose None scada_small)) = length scada_small.
Proof.
  destruct (emitted_counts_bounded None (1 # 2) scada_small)
    as ([H1 _] & _ & _ & H2 & _ & _ & _ & (_ & _ & _ & _ & H3) & _).
  - reflexivity.
  - split; [assumption |]. split; [assumption |].
    apply H3. intros r Hr.
    unfold wind_rose_frame, filter_turbine, wind_rose_valid. apply filter_In.
    split; [assumption |].
    apply (forallb_In
             (fun r => cell_ge (Wa_avg r) 0 && cell_le (Wa_avg r) 360 && cell_ge (Ws_avg r) 0)
             scada_small); [vm_compute; reflexivity | assumption].
Defined.

(** C5 as stated fails for the wake analysis: 100 rows of one turbine in one
    sector, no row dropped by the binning and no sector below the minimum
    count, yet the emitted counts add up to 0. *)
Lemma single_turbine_sector_not_emitted :
  (forall r, In r scada_single_turbine -> Wake.dir_bin r <> None) /\
  (forall i, (0 < length (in_bin Wake.dir_bin i scada_single_turbine))%nat ->
             (100 <= length (in_bin Wake.dir_bin i scada_single_turbine))%nat) /\
  list_sum (map Wake.sample_count (Wake.direction_losses scada_single_turbine)) = 0%nat /\
  length scada_single_turbine = 100%nat.
Proof.
  assert (Hkey : forall r, In r scada_single_turbine -> Wake.dir_bin r = Some 0%nat).
  { intros r Hr.
    pose proof (forallb_In
      (fun r => match Wake.dir_bin r with Some 0%nat => true | _ => false end)
      scada_single_turbine ltac:(vm_compute; reflexivity) r Hr) as H.
    simpl in H. destruct (Wake.dir_bin r) as [[| n] |]; congruence. }
  split; [intros r Hr; rewrite (Hkey r Hr); discriminate |].
  split; [| split; vm_compute; reflexivity].
  intros i Hi. apply in_bin_nonempty in Hi as (r & Hr & Hk).
  rewrite (Hkey r Hr) in Hk. injection Hk as <-. vm_compute. lia.
Qed.

Section LoaderFacts.
Variable parse_datetime : bool -> string -> stamp.

Lemma load_absent (d : dataset) (fs : disk) :
  fs !! path_of d = None -> load parse_datetime d fs = inl (FileNotFoundError (path_of d)).
Proof.
  intros H. unfold load. rewrite H.
  rewrite bool_decide_eq_false_2 by (intros [? [=]]). reflexivity.
Qed.

Lemma load_present (d : dataset) (fs : disk) (f : file) :
  fs !! path_of d = Some f ->
  load parse_datetime d fs =
  match f with
  | Unparseable => inl (ParserError (path_of d))
  | Csv t =>
      match time_column d with
      | Some (col, utc) =>
          if has_column col t then inr (to_datetime parse_datetime utc t)
          else inl (KeyError col)
      | None => inr (as_read t)
      end
  end.
Proof.
  intros H. unfold load, read_csv. rewrite H.
  rewrite bool_decide_eq_true_2 by eauto. simpl.
  destruct f as [| t]; [reflexivity |]. simpl.
  destruct (time_column d) as [[col utc] |]; reflexivity.
Qed.

(** C8, amended. A loader raises [FileNotFoundError] exactly when its file
    is absent. A file that is present raises another exception when it
    cannot be parsed ([ParserError]) or lacks the timestamp column the
    loader converts ([KeyError]); no other column is looked for, and the
    asset loader looks for none. Otherwise the load returns every row, with
    the timestamp column parsed and NaT where the text is not a timestamp. *)
Theorem loader_not_found_iff_absent (d : dataset) (fs : disk) :
  (load parse_datetime d fs = inl (FileNotFoundError (path_of d)) <->
   fs !! path_of d = None) /\
  (forall p, load parse_datetime d fs = inl (FileNotFoundError p) -> fs !! path_of d = None) /\
  (fs !! path_of d = Some Unparseable ->
   load parse_datetime d fs = inl (ParserError (path_of d))) /\
  (forall t col utc,
     fs !! path_of d = Some (Csv t) -> time_column d = Some (col, utc) ->
     has_column col t = false -> load parse_datetime d fs = inl (KeyError col)) /\
  (forall t col utc,
     fs !! path_of d = Some (Csv t) -> time_column d = Some (col, utc) ->
     has_column col t = true ->
     load parse_datetime d fs = inr (to_datetime parse_datetime utc t)) /\
  (forall t,
     fs !! path_of d = Some (Csv t) -> time_column d = None ->
     load parse_datetime d fs = inr (as_read t)) /\
  (forall p q c, FileNotFoundError p <> ParserError q /\ FileNotFoundError p <> KeyError c) /\
  (forall utc rows,
     exists rows',
       to_datetime parse_datetime utc (ScadaTable rows) = ScadaTable rows' /\
       length rows' = length rows /\
       map Date_time rows' = map (fun r => parse_datetime utc (Date_time r)) rows /\
       map Wind_turbine_name rows' = map Wind_turbine_name rows /\
       map P_avg rows' = map P_avg rows /\
       map Ws_avg rows' = map Ws_avg rows) /\
  (forall utc rows,
     exists rows',
       to_datetime parse_datetime utc (PlantTable rows) = PlantTable rows' /\
       length rows' = length rows /\
       map time_utc rows' = map (fun r => parse_datetime utc (time_utc r)) rows /\
       map net_energy_kwh rows' = map net_energy_kwh rows) /\
  (forall utc rows,
     exists rows',
       to_datetime parse_datetime utc (Era5Table rows) = Era5Table rows' /\
       length rows' = length rows /\
       map datetime rows' = map (fun r => parse_datetime utc (datetime r)) rows /\
       map ws_100m rows' = map ws_100m rows) /\
  (forall utc rows,
     exists rows',
       to_datetime parse_datetime utc (Merra2Table rows) = Merra2Table rows' /\
       length rows' = length rows /\
       map merra2_datetime rows' = map (fun r => parse_datetime utc (merra2_datetime r)) rows /\
       map ws_50m rows' = map ws_50m rows).
Proof.
  assert (Hnf : forall p, load parse_datetime d fs = inl (FileNotFoundError p) ->
                          fs !! path_of d = None).
  { intros p H. destruct (fs !! path_of d) as [f |] eqn:Hf; [| reflexivity].
    rewrite (load_present _ _ _ Hf) in H. destruct f as [| t]; [discriminate |].
    destruct (time_column d) as [[col utc] |]; [| discriminate].
    destruct (has_column col t); discriminate. }
  split; [split; [apply Hnf | apply load_absent] |].
  split; [exact Hnf |].
  split; [intros H; now rewrite (load_present _ _ _ H) |].
  split; [intros t col utc H Hc Hcol; now rewrite (load_present _ _ _ H), Hc, Hcol |].
  split; [intros t col utc H Hc Hcol; now rewrite (load_present _ _ _ H), Hc, Hcol |].
  split; [intros t H Hc; now rewrite (load_present _ _ _ H), Hc |].
  split; [intros p q c; split; discriminate |].
  repeat split; intros utc rows; eexists; (split; [reflexivity |]);
    rewrite ?length_map, ?map_map; repeat split; reflexivity.
Qed.
End LoaderFacts.

(** No plant file, an asset file that cannot be parsed, and a SCADA file
    whose second timestamp is not one. *)
Lemma loader_not_found_iff_absent_witness :
  load sample_parse Plant sample_disk = inl (FileNotFoundError (path_of Plant)) /\
  load sample_parse Asset sample_disk = inl (ParserError (path_of Asset)) /\
  exists rows,
    load sample_parse Scada sample_disk = inr (ScadaTable rows) /\
    map Date_time rows = [Some 1388530800%Z; None; Some 1388531400%Z] /\
    map P_avg rows = [Some 100; Some 200; Some 300].
Proof.
  destruct (loader_not_found_iff_absent sample_parse Plant sample_disk) as ([_ Habsent] & _).
  destruct (loader_not_found_iff_absent sample_parse Asset sample_disk) as (_ & _ & Hbad & _).
  destruct (loader_not_found_iff_absent sample_parse Scada sample_disk)
    as (_ & _ & _ & _ & Hok & _ & _ & Hrows & _).
  split; [apply Habsent; reflexivity |].
  split; [apply Hbad; reflexivity |].
  destruct (Hrows true
    [ raw_reading "T1" "2014-01-01 00:00:00+01:00" 100 6;
      raw_reading "T1" "not a date" 200 7;
      raw_reading "T1" "2014-01-01 00:10:00+01:00" 300 8 ]) as (rows & Hto & _ & Hstamps & _ & Hp & _).
  exists rows. split; [| split; [exact Hstamps | exact Hp]].
  rewrite <- Hto. apply (Hok _ "Date_time"); reflexivity.
Defined.

(** C8 as stated fails: a SCADA file that holds the timestamp column and
    no other, and an asset file without the turbine names, are loaded
    without an error. *)
Lemma missing_columns_are_not_detected :
  bare_disk !! path_of Scada = Some (Csv (OtherTable ["Date_time"])) /\
  has_column "Wind_turbine_name" (OtherTable (T := string) ["Date_time"]) = false /\
  has_column "P_avg" (OtherTable (T := string) ["Date_time"]) = false /\
  load sample_parse Scada bare_disk = inr (OtherTable ["Date_time"]) /\
  bare_disk !! path_of Asset = Some (Csv (AssetTable [[("remark", "none")]])) /\
  has_column "Wind_turbine_name" (AssetTable (T := string) [[("remark", "none")]]) = false /\
  load sample_parse Asset bare_disk = inr (AssetTable [[("remark", "none")]]).
Proof. repeat split; reflexivity. Qed.

Lemma key_of_inj (d d' : dataset) : key_of d = key_of d' -> d = d'.
Proof. destruct d, d'; simpl; intros H; try reflexivity; discriminate H. Qed.

Section ServiceFacts.
Variable parse_datetime : bool -> string -> stamp.
Variable fs : disk.

Let consistent := cache_consistent parse_datetime fs.
Let yields {A} := @yields A parse_datetime fs.

Lemma empty_consistent : consistent ∅.
Proof. intros d df H. rewrite lookup_empty in H. discriminate. Qed.

Lemma yields_cached (d : dataset) : yields (cached parse_datetime fs d) (load parse_datetime d fs).
Proof.
  intros c Hc. unfold cached, get_cached_data in *.
  destruct (c !! key_of d) as [df |] eqn:Hd.
  - simpl. split; [symmetry; now apply Hc | assumption].
  - destruct (load parse_datetime d fs) as [e | df] eqn:Hl; simpl; split; auto.
    intros d' df' H.
    destruct (decide (key_of d = key_of d')) as [Heq | Hne].
    + rewrite Heq, lookup_insert_eq in H. injection H as <-.
      apply key_of_inj in Heq. subst d'. assumption.
    + rewrite lookup_insert_ne in H by assumption. now apply Hc.
Qed.

Lemma yields_lift {A} (r : result A) : yields (lift r) r.
Proof. intros c Hc. split; [reflexivity | assumption]. Qed.

Lemma yields_ret {A} (a : A) : yields (ret a) (inr a).
Proof. intros c Hc. split; [reflexivity | assumption]. Qed.

Lemma yields_raise {A} (e : exn) : yields (raise e : M A) (inl e).
Proof. intros c Hc. split; [reflexivity | assumption]. Qed.

Lemma yields_bind {A B} (m : M A) (k : A -> M B) (v : result A) (kv : A -> result B) :
  yields m v -> (forall a, yields (k a) (kv a)) -> yields (bindM m k) (bind v kv).
Proof.
  intros Hm Hk c Hc. unfold bindM. destruct (Hm c Hc) as [Hv Hc'].
  destruct (m c) as [[e | a] c']; simpl in *; subst v; simpl.
  - split; [reflexivity | assumption].
  - apply Hk. assumption.
Qed.

(** Every analysis has one outcome on all caches that agree with the disk. *)
Lemma route_yields (analysis_type : string) (params : params_t) :
  exists v, yields (route parse_datetime fs analysis_type params) v.
Proof.
  unfold route.
  repeat match goal with
         | |- context [if ?b then _ else _] => destruct b
         end;
    try (eexists; apply yields_raise);
    eexists;
    unfold run_aep_analysis, run_electrical_losses_analysis, run_wake_losses_analysis,
      run_turbine_gross_energy_analysis, run_yaw_misalignment_analysis, run_eya_gap_analysis;
    repeat (first [ apply yields_bind; [| intros ?] | apply yields_cached
                  | apply yields_lift | apply yields_ret ]).
Qed.
End ServiceFacts.

(** C9, amended. On a cache that agrees with the files on disk, two runs of
    the same request both fail with the same exception or both succeed with
    the same [results], status, analysis type and message; the responses
    differ at most in [timestamp] and in [execution_time_seconds], the two
    fields read off the clock. *)
Theorem rerun_gives_same_results (parse_datetime : bool -> string -> stamp) (fs : disk)
  (openoa_available : bool) (clk1 clk2 : clock) (request : AnalysisRequest)
  (c : gmap string frame) :
  cache_consistent parse_datetime fs c ->
  let first := run_analysis parse_datetime fs openoa_available clk1 request c in
  let second := run_analysis parse_datetime fs openoa_available clk2 request (snd first) in
  cache_consistent parse_datetime fs (snd first) /\
  cache_consistent parse_datetime fs (snd second) /\
  match fst first, fst second with
  | inr a, inr b =>
      results a = results b /\
      status a = status b /\
      response_analysis_type a = response_analysis_type b /\
      message a = message b /\
      timestamp a = now_utc clk1 /\
      timestamp b = now_utc clk2 /\
      execution_time_seconds a = py_round (end_time clk1 - start_time clk1) 2 /\
      execution_time_seconds b = py_round (end_time clk2 - start_time clk2) 2
  | inl e1, inl e2 => e1 = e2
  | _, _ => False
  end.
Proof.
  intros Hc. cbv zeta. unfold run_analysis.
  destruct openoa_available; simpl negb; cbv iota.
  2:{ simpl. auto. }
  set (params := match parameters request with Some p => p | None => ∅ end).
  destruct (route_yields parse_datetime fs (analysis_type request) params) as (v & Hv).
  destruct (Hv c Hc) as [H1 Hc1].
  destruct (route parse_datetime fs (analysis_type request) params c) as [r1 c1] eqn:E1.
  simpl in H1, Hc1.
  assert (Hsnd : snd (match r1 with
                      | inl e => (inl (Http500 e), c1)
                      | inr res =>
                          (inr {| status := "success";
                                  response_analysis_type := analysis_type request;
                                  results := res;
                                  timestamp := now_utc clk1;
                                  message :=
                                    "Analysis completed successfully using real OpenOA data";
                                  execution_time_seconds :=
                                    py_round (end_time clk1 - start_time clk1) 2 |}, c1)
                      end : (HTTPException + AnalysisResponse) * gmap string frame) = c1)
    by (destruct r1; reflexivity).
  rewrite Hsnd.
  destruct (Hv c1 Hc1) as [H2 Hc2].
  destruct (route parse_datetime fs (analysis_type request) params c1) as [r2 c2] eqn:E2.
  simpl in H2, Hc2. subst r1 r2.
  split; [assumption |].
  destruct v as [e | res]; simpl; auto 10.
Qed.

(** Two runs of the electrical-losses analysis from an empty cache, on a
    directory that holds the SCADA file and the plant file: both succeed,
    with the same results. *)
Lemma rerun_gives_same_results_witness :
  let first :=
    run_analysis sample_parse sample_disk_with_plant true clock_fast electrical_request ∅ in
  let second :=
    run_analysis sample_parse sample_disk_with_plant true clock_slow electrical_request
      (snd first) in
  exists a b, fst first = inr a /\ fst second = inr b /\ results a = results b.
Proof.
  cbv zeta.
  destruct (rerun_gives_same_results sample_parse sample_disk_with_plant true clock_fast
              clock_slow electrical_request ∅) as (_ & _ & H).
  - intros d df H. rewrite lookup_empty in H. discriminate H.
  - cbv zeta in H.
    destruct (fst (run_analysis sample_parse sample_disk_with_plant true clock_fast
                     electrical_request ∅)) as [e1 | a] eqn:E1;
      [vm_compute in E1; discriminate E1 |].
    destruct (fst (run_analysis sample_parse sample_disk_with_plant true clock_slow
                     electrical_request _)) as [e2 | b] eqn:E2; [destruct H |].
    exists a, b. split; [reflexivity |]. split; [reflexivity |]. apply H.
Defined.

Lemma sample_electrical_run (clk : clock) :
  exists res,
    fst (run_analysis sample_parse sample_disk_with_plant true clk electrical_request ∅) =
    inr {| status := "success";
           response_analysis_type := "electrical_losses";
           results := res;
           timestamp := now_utc clk;
           message := "Analysis completed successfully using real OpenOA data";
           execution_time_seconds := py_round (end_time clk - start_time clk) 2 |}.
Proof.
  unfold run_analysis. cbn [negb parameters analysis_type electrical_request].
  change (route sample_parse sample_disk_with_plant "electrical_losses" ∅ ∅)
    with (run_electrical_losses_analysis sample_parse sample_disk_with_plant ∅ ∅).
  assert (H : exists res c,
            run_electrical_losses_analysis sample_parse sample_disk_with_plant ∅ ∅
            = (inr res, c)) by (eexists; eexists; vm_compute; reflexivity).
  destruct H as (res & c & ->). exists res. reflexivity.
Qed.

(** C9 as stated fails: two runs of the electrical-losses analysis over the
    same files, which read the same time of day, both succeed with the same
    results and differ in [execution_time_seconds]. *)
Lemma execution_time_differs_between_runs :
  now_utc clock_fast = now_utc clock_slow /\
  exists a b,
    fst (run_analysis sample_parse sample_disk_with_plant true clock_fast
           electrical_request ∅) = inr a /\
    fst (run_analysis sample_parse sample_disk_with_plant true clock_slow
           electrical_request ∅) = inr b /\
    results a = results b /\
    timestamp a = timestamp b /\
    execution_time_seconds a == 1 /\
    execution_time_seconds b == 2 /\
    a <> b.
Proof.
  split; [reflexivity |].
  destruct (sample_electrical_run clock_fast) as (r1 & H1).
  destruct (sample_electrical_run clock_slow) as (r2 & H2).
  eexists. eexists. split; [exact H1 |]. split; [exact H2 |].
  split.
  { simpl. unfold run_analysis in H1, H2.
    cbn [negb parameters analysis_type electrical_request] in H1, H2.
    destruct (route sample_parse sample_disk_with_plant "electrical_losses" ∅ ∅)
      as [[e | res] c]; [discriminate H1 |].
    simpl in H1, H2. injection H1 as <-. injection H2 as <-. reflexivity. }
  split; [reflexivity |]. split; [reflexivity |]. split; [reflexivity |].
  intros Heq. apply (f_equal execution_time_seconds) in Heq. simpl in Heq.
  vm_compute in Heq. discriminate Heq.
Qed.

Lemma route_ignores_params (parse_datetime : bool -> string -> stamp) (fs : disk)
  (analysis_type : string) (p q : params_t) :
  route parse_datetime fs analysis_type p = route parse_datetime fs analysis_type q.
Proof.
  unfold route.
  repeat match goal with
         | |- context [if ?b then _ else _] => destruct b
         end; reflexivity.
Qed.

(** C10. Two requests that differ only in [parameters] get the same
    response and leave the same cache: no analysis reads [params]. *)
Theorem parameters_have_no_effect (parse_datetime : bool -> string -> stamp) (fs : disk)
  (openoa_available : bool) (clk : clock) (c : gmap string frame)
  (analysis_type : string) (use_example_data : bool) (p q : option params_t) :
  run_analysis parse_datetime fs openoa_available clk
    {| analysis_type := analysis_type; use_example_data := use_example_data;
       parameters := p |} c =
  run_analysis parse_datetime fs openoa_available clk
    {| analysis_type := analysis_type; use_example_data := use_example_data;
       parameters := q |} c /\
  (forall p q : params_t,
     run_aep_analysis parse_datetime fs p = run_aep_analysis parse_datetime fs q /\
     run_electrical_losses_analysis parse_datetime fs p =
       run_electrical_losses_analysis parse_datetime fs q /\
     run_wake_losses_analysis parse_datetime fs p =
       run_wake_losses_analysis parse_datetime fs q /\
     run_turbine_gross_energy_analysis parse_datetime fs p =
       run_turbine_gross_energy_analysis parse_datetime fs q /\
     run_yaw_misalignment_analysis parse_datetime fs p =
       run_yaw_misalignment_analysis parse_datetime fs q /\
     run_eya_gap_analysis parse_datetime fs p = run_eya_gap_analysis parse_datetime fs q).
Proof.
  split; [| intros; repeat split; reflexivity].
  unfold run_analysis. simpl.
  rewrite (route_ignores_params parse_datetime fs analysis_type
             (match p with Some x => x | None => ∅ end)
             (match q with Some x => x | None => ∅ end)).
  reflexivity.
Qed.

(** * Further properties of the handlers *)

(** *** The turbines of a frame *)

Lemma insert_sorted_In (s x : string) (l : list string) :
  In x (insert_sorted s l) <-> x = s \/ In x l.
Proof.
  induction l as [| y r IH]; simpl.
  - split; [intros [H | []]; auto | intros [H | []]; auto].
  - destruct (String.leb s y); simpl; [split; intros [H | H]; auto |].
    rewrite IH. split; intros H; tauto.
Qed.

Lemma py_sorted_In (x : string) (l : list string) : In x (py_sorted l) <-> In x l.
Proof.
  unfold py_sorted. induction l as [| y r IH]; simpl; [tauto |].
  rewrite insert_sorted_In, IH. split; intros [H | H]; auto.
Qed.

Lemma insert_sorted_NoDup (s : string) (l : list string) :
  ~ In s l -> NoDup l -> NoDup (insert_sorted s l).
Proof.
  induction l as [| y r IH]; intros Hs Hl; simpl.
  - constructor; [intros [] | constructor].
  - destruct (String.leb s y); [constructor; assumption |].
    inversion Hl as [| ? ? Hy Hr]; subst. constructor.
    + rewrite insert_sorted_In. intros [-> | H]; [apply Hs; now left | contradiction].
    + apply IH; [intros H; apply Hs; now right | assumption].
Qed.

Lemma py_sorted_NoDup (l : list string) : NoDup l -> NoDup (py_sorted l).
Proof.
  unfold py_sorted. induction 1 as [| x l Hx Hl IH]; simpl; [constructor |].
  apply insert_sorted_NoDup; [| assumption].
  intros H. apply Hx. now apply (py_sorted_In x l).
Qed.

Lemma turbines_In (scada_df : list scada_row) (name : string) :
  In name (turbines scada_df) <-> exists r, In r scada_df /\ Wind_turbine_name r = name.
Proof.
  unfold turbines. rewrite py_sorted_In, nodup_In, in_map_iff.
  split; intros (r & H1 & H2); exists r; auto.
Qed.

Lemma turbines_NoDup (scada_df : list scada_row) : NoDup (turbines scada_df).
Proof. unfold turbines. apply py_sorted_NoDup, NoDup_nodup. Qed.

Lemma of_turbine_In (name : string) (scada_df : list scada_row) (r : scada_row) :
  In r (of_turbine name scada_df) <-> In r scada_df /\ Wind_turbine_name r = name.
Proof.
  unfold of_turbine. rewrite filter_In, String.eqb_eq. reflexivity.
Qed.

(** *** Sums over the groups of a frame *)

Lemma series_sum_cons (c : cell) (s : list cell) :
  series_sum (c :: s) == match c with Some q => q | None => 0 end + series_sum s.
Proof. unfold series_sum. destruct c; simpl; lra. Qed.

Lemma Qsum_map_add {A} (f g : A -> Q) (l : list A) :
  Qsum (map (fun a => f a + g a) l) == Qsum (map f l) + Qsum (map g l).
Proof. induction l as [| a l IH]; simpl; lra. Qed.

Lemma Qsum_map_ext {A} (f g : A -> Q) (l : list A) :
  (forall a, In a l -> f a == g a) -> Qsum (map f l) == Qsum (map g l).
Proof.
  induction l as [| a l IH]; intros H; simpl; [reflexivity |].
  rewrite (H a) by (now left). rewrite IH by (intros; apply H; now right). reflexivity.
Qed.

Lemma Qsum_indicator (names : list string) (name : string) (q : Q) :
  NoDup names -> In name names ->
  Qsum (map (fun t => if String.eqb name t then q else 0) names) == q.
Proof.
  induction 1 as [| x l Hx Hl IH]; intros Hin; [destruct Hin |].
  simpl. destruct (String.eqb_spec name x) as [-> | Hne].
  - rewrite (Qsum_map_ext _ (fun _ => 0)).
    + clear. induction l; simpl; lra.
    + intros t Ht. destruct (String.eqb_spec x t); [subst; contradiction | reflexivity].
  - destruct Hin as [-> | Hin]; [contradiction |]. rewrite IH by assumption. lra.
Qed.

(** The sums of a column over the turbines of a frame add up to its sum over
    the frame, whatever rows a filter keeps. *)
Lemma series_sum_by_turbine (f : scada_row -> cell) (names : list string)
  (df : list scada_row) :
  NoDup names -> (forall r, In r df -> In (Wind_turbine_name r) names) ->
  Qsum (map (fun t => series_sum (map f (of_turbine t df))) names) == series_sum (map f df).
Proof.
  intros Hnd. induction df as [| r df IH]; intros Hin.
  - simpl. unfold series_sum. simpl. clear. induction names; simpl; lra.
  - set (v := match f r with Some q => q | None => 0 end).
    transitivity (Qsum (map (fun t => (if String.eqb (Wind_turbine_name r) t then v else 0) +
                                      series_sum (map f (of_turbine t df))) names)).
    + apply Qsum_map_ext. intros t _. unfold of_turbine. simpl.
      destruct (String.eqb (Wind_turbine_name r) t).
      * simpl map. apply series_sum_cons.
      * lra.
    + rewrite Qsum_map_add, Qsum_indicator by (auto; apply Hin; now left).
      rewrite IH by (intros; apply Hin; now right).
      simpl map. rewrite series_sum_cons. reflexivity.
Qed.

Lemma list_sum_map_plus {A} (f g : A -> nat) (l : list A) :
  list_sum (map (fun a => f a + g a)%nat l) = (list_sum (map f l) + list_sum (map g l))%nat.
Proof. induction l as [| x l IH]; simpl; lia. Qed.

Lemma length_by_turbine (names : list string) (df : list scada_row) :
  NoDup names -> (forall r, In r df -> In (Wind_turbine_name r) names) ->
  list_sum (map (fun t => length (of_turbine t df)) names) = length df.
Proof.
  intros Hnd. induction df as [| r df IH]; intros Hin.
  - clear. induction names as [| x l IHl]; [reflexivity | exact IHl].
  - simpl length. rewrite <- IH by (intros; apply Hin; now right).
    assert (Hone : list_sum (map (fun t => if String.eqb (Wind_turbine_name r) t
                                          then 1 else 0)%nat names) = 1%nat).
    { specialize (Hin r (or_introl eq_refl)). clear IH.
      induction Hnd as [| x l Hx Hl IHl]; [destruct Hin |].
      simpl. destruct (String.eqb_spec (Wind_turbine_name r) x) as [-> | Hne].
      - rewrite (map_ext_in _ (fun _ => 0%nat)).
        + clear. induction l as [| y l IHl']; [reflexivity | simpl in *; exact IHl'].
        + intros t Ht. destruct (String.eqb_spec x t); [subst; contradiction | reflexivity].
      - destruct Hin as [-> | Hin]; [contradiction |]. rewrite IHl by assumption. reflexivity. }
    rewrite (map_ext _ (fun t => ((if String.eqb (Wind_turbine_name r) t then 1 else 0) +
                                  length (of_turbine t df))%nat)).
    + rewrite list_sum_map_plus, Hone. reflexivity.
    + intros t. unfold of_turbine. simpl.
      destruct (String.eqb (Wind_turbine_name r) t); reflexivity.
Qed.

Lemma turbines_cover (scada_df : list scada_row) (r : scada_row) :
  In r scada_df -> In (Wind_turbine_name r) (turbines scada_df).
Proof. intros H. apply turbines_In. eauto. Qed.

Lemma Qsum_map_scale {A} (f : A -> Q) (k : Q) (l : list A) :
  Qsum (map (fun a => f a * k) l) == Qsum (map f l) * k.
Proof. induction l as [| a l IH]; simpl; lra. Qed.

(** *** Gross energy per turbine *)

Lemma per_turbine_inr (scada_df : list scada_row) (years : cell) (factor : pynum)
  (name : string) (t : Gross.turbine) :
  Gross.per_turbine scada_df years factor name = inr t ->
  Gross.turbine_id t = name /\
  Gross.operational_energy_kwh t =
    series_sum (map P_avg (Gross.normal (of_turbine name scada_df))) * (10 / 60) /\
  Gross.gross_energy_kwh t = Gross.operational_energy_kwh t / (1 - (6 # 100)) /\
  Gross.availability t =
    (if (0 <? length (of_turbine name scada_df))%nat
     then inject_Z (Z.of_nat (length (Gross.normal (of_turbine name scada_df)))) /
          inject_Z (Z.of_nat (length (of_turbine name scada_df)))
     else 1).
Proof.
  unfold Gross.per_turbine. destruct (py_truediv _ years) as [e | y]; [discriminate |].
  cbn [bind]. destruct (py_round_num _) as [e | a]; [discriminate |].
  cbn [bind]. intros [= <-]. simpl. auto.
Qed.

Lemma per_turbine_zero_division (scada_df : list scada_row) (years : cell) (factor : pynum)
  (name : string) :
  Gross.per_turbine scada_df years factor name = inl ZeroDivisionError <->
  exists y, years = Some y /\ y == 0.
Proof.
  unfold Gross.per_turbine.
  destruct (py_truediv (Some (series_sum (map P_avg (Gross.normal (of_turbine name scada_df)))
                              * (10 / 60) / (1 - (6 # 100)) / 1000000)) years)
    as [e' | y] eqn:Hd; cbn [bind].
  - apply py_truediv_inl in Hd as [-> Hy]. tauto.
  - split.
    + destruct (py_round_num _) as [e | a] eqn:Hr; cbn [bind]; [| discriminate].
      apply py_round_num_inl in Hr as [-> _]. discriminate.
    + intros Hy.
      assert (Hc : py_truediv (Some (series_sum (map P_avg
                                 (Gross.normal (of_turbine name scada_df)))
                                * (10 / 60) / (1 - (6 # 100)) / 1000000)) years
                   = inl ZeroDivisionError) by (apply py_truediv_inl; auto).
      congruence.
Qed.

Lemma gross_analysis_unfold (scada_df : list scada_row) (era5_df : list era5_row) :
  exists factor,
    turbine_gross_energy_analysis scada_df era5_df =
    doing results :=
      mapM (Gross.per_turbine scada_df (years_of scada_df) factor) (turbines scada_df) in
    doing total_gross :=
      py_round_num (fold_left pynum_add (map Gross.annual_gross_gwh results) (PyFloat 0%R)) in
    doing correction_factor := py_round_num factor in
    inr {| Gross.era5_ltm_ws := ltm_ws era5_df;
           Gross.era5_op_ws :=
             op_period_ws (stamp_min (map Date_time scada_df))
                          (stamp_max (map Date_time scada_df)) era5_df;
           Gross.ltm_correction := correction_factor;
           Gross.turbine_results := results;
           Gross.total_gross := total_gross |}.
Proof.
  exists (ltm_correction_factor (ltm_ws era5_df)
            (op_period_ws (stamp_min (map Date_time scada_df))
                          (stamp_max (map Date_time scada_df)) era5_df)).
  reflexivity.
Qed.

Lemma normal_In (t_df : list scada_row) (r : scada_row) :
  In r (Gross.normal t_df) <->
  In r t_df /\ exists p w, P_avg r = Some p /\ 10 < p /\ Ws_avg r = Some w /\ 3 <= w /\ w <= 25.
Proof.
  unfold Gross.normal. rewrite filter_In, !andb_true_iff, cell_gt_true, cell_ge_true,
    cell_le_true.
  apply and_iff_compat_l. split.
  - intros [[(p & Hp & Hp1) (w & Hw & Hw1)] (w' & Hw' & Hw2)].
    rewrite Hw in Hw'. injection Hw' as <-. exists p, w. auto.
  - intros (p & w & Hp & Hp1 & Hw & Hw1 & Hw2). eauto 10.
Qed.

Lemma normal_of_turbine (name : string) (scada_df : list scada_row) :
  Gross.normal (of_turbine name scada_df) = of_turbine name (Gross.normal scada_df).
Proof.
  unfold Gross.normal, of_turbine. induction scada_df as [| r df IH]; [reflexivity |].
  simpl. destruct (String.eqb (Wind_turbine_name r) name) eqn:E1;
    destruct (cell_gt (P_avg r) 10 && cell_ge (Ws_avg r) 3 && cell_le (Ws_avg r) 25) eqn:E2;
    simpl; rewrite ?E1, ?E2, IH; reflexivity.
Qed.

Lemma series_sum_nonneg {A} (f : A -> cell) (g : list A) :
  (forall r q, In r g -> f r = Some q -> 0 <= q) -> 0 <= series_sum (map f g).
Proof.
  induction g as [| r g IH]; intros H; [unfold series_sum; simpl; lra |].
  simpl map. rewrite series_sum_cons.
  assert (0 <= series_sum (map f g)) by (apply IH; intros; eapply H; eauto; now right).
  destruct (f r) as [q |] eqn:Hf; [| lra].
  assert (0 <= q) by (eapply H; eauto; now left). lra.
Qed.

Lemma Forall2_map_l {A B C} (f : A -> result B) (g : B -> C) (h : A -> C)
  (l : list A) (bs : list B) :
  Forall2 (fun a b => f a = inr b) l bs ->
  (forall a b, f a = inr b -> g b = h a) -> map g bs = map h l.
Proof.
  intros HF Hgh. induction HF as [| a b l bs Hab _ IH]; [reflexivity |].
  simpl. rewrite IH. f_equal. now apply Hgh.
Qed.

Lemma Forall2_In_r {A B} (P : A -> B -> Prop) (l : list A) (bs : list B) (b : B) :
  Forall2 P l bs -> In b bs -> exists a, In a l /\ P a b.
Proof.
  induction 1 as [| a b' l bs Hab _ IH]; intros Hin; [destruct Hin |].
  destruct Hin as [<- | Hin]; [exists a; split; [now left | assumption] |].
  destruct (IH Hin) as (a' & Ha & HP). exists a'. split; [now right | assumption].
Qed.

Lemma Forall2_In_l {A B} (P : A -> B -> Prop) (l : list A) (bs : list B) (a : A) :
  Forall2 P l bs -> In a l -> exists b, In b bs /\ P a b.
Proof.
  induction 1 as [| a' b l bs Hab _ IH]; intros Hin; [destruct Hin |].
  destruct Hin as [<- | Hin]; [exists b; split; [now left | assumption] |].
  destruct (IH Hin) as (b' & Hb & HP). exists b'. split; [now right | assumption].
Qed.

(** When the gross-energy analysis does not fail on the division by
    [years], it lists every turbine of the frame once, in sorted order; for
    each the availability lies between 0 and 1, the operational energy is not
    negative and is 94 percent of the gross energy, and the operational
    energies add up to the energy of the rows in normal operation. *)
Theorem gross_energy_per_turbine (scada_df : list scada_row) (era5_df : list era5_row) :
  match turbine_gross_energy_analysis scada_df era5_df with
  | inl e => True
  | inr g =>
      map Gross.turbine_id (Gross.turbine_results g) = turbines scada_df /\
      Forall (fun t =>
                0 <= Gross.availability t /\ Gross.availability t <= 1 /\
                0 <= Gross.operational_energy_kwh t /\
                Gross.gross_energy_kwh t * (94 # 100) == Gross.operational_energy_kwh t)
             (Gross.turbine_results g) /\
      Qsum (map Gross.operational_energy_kwh (Gross.turbine_results g)) ==
        series_sum (map P_avg (Gross.normal scada_df)) * (10 / 60)
  end.
Proof.
  destruct (gross_analysis_unfold scada_df era5_df) as (factor & ->).
  destruct (mapM _ (turbines scada_df)) as [e | results] eqn:Hm; [exact I |].
  cbn [bind]. destruct (py_round_num (fold_left _ _ _)) as [e | total]; [exact I |].
  cbn [bind]. destruct (py_round_num factor) as [e | cf]; [exact I |].
  apply mapM_inr in Hm. simpl.
  split; [| split].
  - rewrite <- (map_id (turbines scada_df)).
    eapply Forall2_map_l; [exact Hm |].
    intros a b Hab. now apply per_turbine_inr in Hab as (-> & _).
  - apply Forall_forall. intros t Ht.
    destruct (Forall2_In_r _ _ _ _ Hm Ht) as (name & Hname & Hpt).
    apply per_turbine_inr in Hpt as (_ & Hop & Hg & Hav).
    assert (Hlen : (length (Gross.normal (of_turbine name scada_df))
                    <= length (of_turbine name scada_df))%nat) by apply filter_length_bound.
    assert (Hpos : (0 < length (of_turbine name scada_df))%nat).
    { apply turbines_In in Hname as (r & Hr & Hn).
      assert (In r (of_turbine name scada_df)) by (apply of_turbine_In; auto).
      destruct (of_turbine name scada_df); [contradiction | simpl; lia]. }
    rewrite Hav, Hg, Hop.
    replace (0 <? _)%nat with true by (symmetry; apply Nat.ltb_lt; assumption).
    assert (Hd : 0 < inject_Z (Z.of_nat (length (of_turbine name scada_df)))).
    { change 0 with (inject_Z 0). rewrite <- Zlt_Qlt. lia. }
    assert (Hn : 0 <= inject_Z (Z.of_nat (length (Gross.normal (of_turbine name scada_df))))).
    { change 0 with (inject_Z 0). rewrite <- Zle_Qle. lia. }
    assert (Hnd : inject_Z (Z.of_nat (length (Gross.normal (of_turbine name scada_df))))
                  <= inject_Z (Z.of_nat (length (of_turbine name scada_df)))).
    { rewrite <- Zle_Qle. lia. }
    assert (Hs : 0 <= series_sum (map P_avg (Gross.normal (of_turbine name scada_df)))).
    { apply series_sum_nonneg. intros r q Hr Hq.
      apply normal_In in Hr as (_ & p & w & Hp & Hlt & _). rewrite Hp in Hq.
      injection Hq as <-. lra. }
    split; [apply Qle_shift_div_l; lra |].
    split; [apply Qle_shift_div_r; lra |].
    split; [apply Qmult_le_0_compat; [assumption | unfold Qle; simpl; lia] | field].
  - rewrite <- (series_sum_by_turbine P_avg (turbines scada_df) (Gross.normal scada_df))
      by (auto using turbines_NoDup; intros r Hr; apply turbines_cover;
          now apply normal_In in Hr as [Hr _]).
    rewrite <- Qsum_map_scale.
    clear -Hm. induction Hm as [| name t l bs Hab _ IH]; [reflexivity |].
    simpl. rewrite IH. apply per_turbine_inr in Hab as (_ & -> & _).
    rewrite normal_of_turbine. reflexivity.
Qed.

Lemma gross_raises (scada_df : list scada_row) (era5_df : list era5_row) :
  turbine_gross_energy_analysis scada_df era5_df = inl ZeroDivisionError <->
  (exists r, In r scada_df) /\ exists y, years_of scada_df = Some y /\ y == 0.
Proof.
  destruct (gross_analysis_unfold scada_df era5_df) as (factor & ->).
  split.
  - intros H. destruct (mapM _ (turbines scada_df)) as [e' | results] eqn:Hm.
    + cbn [bind] in H. injection H as ->.
      apply mapM_inl in Hm as (name & Hname & Hpt).
      apply per_turbine_zero_division in Hpt. split; [| assumption].
      apply turbines_In in Hname as (r & Hr & _). eauto.
    + exfalso. cbn [bind] in H.
      destruct (py_round_num (fold_left _ _ _)) as [e | total] eqn:H1; cbn [bind] in H.
      { injection H as ->. now apply py_round_num_inl in H1 as [? _]. }
      destruct (py_round_num factor) as [e | cf] eqn:H2; cbn [bind] in H; [| discriminate].
      injection H as ->. now apply py_round_num_inl in H2 as [? _].
  - intros ((r & Hr) & Hzero).
    assert (Hname : In (Wind_turbine_name r) (turbines scada_df)) by now apply turbines_cover.
    destruct (mapM _ (turbines scada_df)) as [e' | results] eqn:Hm.
    + cbn [bind]. apply mapM_inl in Hm as (name & _ & Hpt).
      assert (Hc : Gross.per_turbine scada_df (years_of scada_df) factor name
                   = inl ZeroDivisionError) by (now apply per_turbine_zero_division).
      congruence.
    + exfalso. apply mapM_inr in Hm.
      destruct (Forall2_In_l _ _ _ _ Hm Hname) as (t & _ & Hab).
      assert (Hc : Gross.per_turbine scada_df (years_of scada_df) factor (Wind_turbine_name r)
                   = inl ZeroDivisionError) by (now apply per_turbine_zero_division).
      congruence.
Qed.

(** The gross-energy analysis divides by [years]: it raises
    [ZeroDivisionError] exactly when some row has a valid stamp and all valid
    stamps lie less than a day apart. *)
Theorem gross_energy_raises_on_short_span (scada_df : list scada_row)
  (era5_df : list era5_row) :
  turbine_gross_energy_analysis scada_df era5_df = inl ZeroDivisionError <->
  (exists r, In r scada_df /\ Date_time r <> None) /\
  (forall r r' s s', In r scada_df -> In r' scada_df ->
                     Date_time r = Some s -> Date_time r' = Some s' ->
                     (s' - s < 86400)%Z).
Proof.
  rewrite gross_raises. pose proof (years_of_spec scada_df) as Hy. split.
  - intros (_ & y & Hyears & Hz). rewrite Hyears in Hy.
    destruct Hy as (_ & Hex & Hiff). split; [assumption | now apply Hiff].
  - intros [(r & Hr & Hvalid) Hspan]. split; [eauto |].
    destruct (years_of scada_df) as [y |].
    + exists y. split; [reflexivity |]. now apply Hy.
    + exfalso. apply Hvalid. now apply Hy.
Qed.

(** *** The SCADA summary *)

Lemma summary_per_turbine_inr (scada_df : list scada_row) (years : cell) (name : string)
  (t : Summary.turbine) :
  Summary.per_turbine scada_df years name = inr t ->
  Summary.turbine_id t = name /\
  Summary.total_energy_mwh t = series_sum (map P_avg (of_turbine name scada_df)) / 1000 /\
  Summary.data_points t = length (of_turbine name scada_df).
Proof.
  unfold Summary.per_turbine. cbv zeta.
  destruct (py_truediv _ _) as [e | a]; [discriminate |]. cbn [bind].
  intros [= <-]. simpl. auto.
Qed.

Lemma summary_divisor (y : Q) : (36525 # 100) * 24 * 6 * y == 0 <-> y == 0.
Proof. split; intros H; lra. Qed.

Lemma summary_per_turbine_inl (scada_df : list scada_row) (years : cell) (name : string)
  (e : exn) :
  Summary.per_turbine scada_df years name = inl e <->
  e = ZeroDivisionError /\ exists y, years = Some y /\ y == 0.
Proof.
  unfold Summary.per_turbine. cbv zeta.
  destruct years as [y |]; cbn [cell_map2].
  - destruct (Qeq_dec y 0) as [Hz | Hnz].
    + rewrite py_truediv_zero by (now apply summary_divisor). cbn [bind].
      split; [intros [= <-]; eauto | intros [-> _]; reflexivity].
    + rewrite py_truediv_some by (now rewrite summary_divisor). cbn [bind].
      split; [discriminate | intros (_ & y' & [= <-] & Hz); contradiction].
  - cbn [py_truediv bind]. split; [discriminate | intros (_ & y' & [=] & _)].
Qed.

(** When the loop of the summary over the turbines does not fail, it lists
    every turbine of the frame once, in sorted order, the energies of the
    turbines add up to the energy of the plant and their row counts to the
    number of rows (figures before rounding, in exact arithmetic). It fails,
    with [ZeroDivisionError] and nothing else, exactly when some row has a
    valid stamp and all valid stamps lie less than a day apart. *)
Theorem summary_totals_add_up (scada_df : list scada_row) :
  (forall stats,
     Summary.turbine_stats scada_df = inr stats ->
     map Summary.turbine_id stats = turbines scada_df /\
     NoDup (turbines scada_df) /\
     (forall name, In name (turbines scada_df) <->
                   exists r, In r scada_df /\ Wind_turbine_name r = name) /\
     Qsum (map Summary.total_energy_mwh stats) * 1000 ==
       Summary.total_energy_gwh scada_df * 1000000 /\
     list_sum (map Summary.data_points stats) = length scada_df) /\
  (forall e, Summary.turbine_stats scada_df = inl e -> e = ZeroDivisionError) /\
  (Summary.turbine_stats scada_df = inl ZeroDivisionError <->
   (exists r, In r scada_df /\ Date_time r <> None) /\
   (forall r r' s s', In r scada_df -> In r' scada_df ->
                      Date_time r = Some s -> Date_time r' = Some s' ->
                      (s' - s < 86400)%Z)).
Proof.
  unfold Summary.turbine_stats. split; [| split].
  - intros stats Hm. apply mapM_inr in Hm.
    assert (Hids : map Summary.turbine_id stats = turbines scada_df).
    { rewrite <- (map_id (turbines scada_df)).
      clear -Hm. induction Hm as [| name t l bs Hab _ IH]; [reflexivity |].
      simpl. rewrite IH. now apply summary_per_turbine_inr in Hab as (-> & _). }
    split; [exact Hids |]. split; [apply turbines_NoDup |].
    split; [apply turbines_In |]. split.
    + assert (H : Qsum (map Summary.total_energy_mwh stats)
                  == series_sum (map P_avg scada_df) * (1 # 1000)).
      { rewrite <- (series_sum_by_turbine P_avg (turbines scada_df) scada_df)
          by (auto using turbines_NoDup, turbines_cover).
        rewrite <- Qsum_map_scale.
        clear -Hm. induction Hm as [| name t l bs Hab _ IH]; [reflexivity |].
        simpl. rewrite IH. apply summary_per_turbine_inr in Hab as (_ & -> & _).
        unfold Qdiv. reflexivity. }
      rewrite H. unfold Summary.total_energy_gwh. field.
    + rewrite <- (length_by_turbine (turbines scada_df) scada_df)
        by (auto using turbines_NoDup, turbines_cover).
      apply (f_equal list_sum).
      clear -Hm. induction Hm as [| name t l bs Hab _ IH]; [reflexivity |].
      simpl. rewrite IH. now apply summary_per_turbine_inr in Hab as (_ & _ & ->).
  - intros e Hm. apply mapM_inl in Hm as (name & _ & Hpt).
    now apply summary_per_turbine_inl in Hpt as [-> _].
  - pose proof (years_of_spec scada_df) as Hy. split.
    + intros Hm. apply mapM_inl in Hm as (name & _ & Hpt).
      apply summary_per_turbine_inl in Hpt as (_ & y & Hyears & Hz).
      rewrite Hyears in Hy. destruct Hy as (_ & Hex & Hiff).
      split; [assumption | now apply Hiff].
    + intros [(r & Hr & Hvalid) Hspan].
      assert (Hzero : exists y, years_of scada_df = Some y /\ y == 0).
      { destruct (years_of scada_df) as [y |].
        - exists y. split; [reflexivity |]. now apply Hy.
        - exfalso. apply Hvalid. now apply Hy. }
      destruct (mapM _ (turbines scada_df)) as [e | stats] eqn:Hm.
      * apply mapM_inl in Hm as (name & _ & Hpt).
        now apply summary_per_turbine_inl in Hpt as [-> _].
      * exfalso. apply mapM_inr in Hm.
        assert (Hname : In (Wind_turbine_name r) (turbines scada_df))
          by now apply turbines_cover.
        destruct (Forall2_In_l _ _ _ _ Hm Hname) as (t & _ & Hab).
        assert (Hc : Summary.per_turbine scada_df (years_of scada_df) (Wind_turbine_name r)
                     = inl ZeroDivisionError)
          by (apply summary_per_turbine_inl; auto).
        congruence.
Qed.

Lemma per_year_zero (x y : Q) : ~ y == 0 -> (x / 1000000 / y == 0 <-> x == 0).
Proof.
  intros Hy. split; intros H.
  - assert (H2 : x == x / 1000000 / y * (1000000 * y)) by (field; assumption).
    rewrite H2, H. ring.
  - rewrite H. field. assumption.
Qed.

Lemma eya_denominator (y P avail curtail E : Q) :
  ~ y == 0 -> ~ P == 0 ->
  (1 - (75 # 10) / 100 - avail / 1000000 / y / (P / 1000000 / y)
     - curtail / 1000000 / y / (P / 1000000 / y)
     - E / 1000000 / y / (P / 1000000 / y) == 0
   <-> (925 # 1000) * P == avail + curtail + E).
Proof.
  intros Hy HP.
  assert (H : 1 - (75 # 10) / 100 - avail / 1000000 / y / (P / 1000000 / y)
              - curtail / 1000000 / y / (P / 1000000 / y)
              - E / 1000000 / y / (P / 1000000 / y)
              == ((925 # 1000) * P - avail - curtail - E) / P) by (field; auto).
  rewrite H. split; intros H2.
  - assert (H3 : ((925 # 1000) * P - avail - curtail - E) / P * P
                 == (925 # 1000) * P - avail - curtail - E) by (field; assumption).
    rewrite H2 in H3. lra.
  - assert (H3 : (925 # 1000) * P - avail - curtail - E == 0) by lra.
    rewrite H3. field. assumption.
Qed.

(** The divisions of the EYA analysis, on exact figures: which inputs make
    one of the three divisors 0. *)
Lemma eya_zero_divisors (scada_df : list scada_row) (plant_df : list plant_row) :
  let '(potential, avail, curtail, electrical) := eya_sums scada_df plant_df in
  (forall e, eya_gap_analysis scada_df plant_df = inl e -> e = ZeroDivisionError) /\
  (eya_gap_analysis scada_df plant_df = inl ZeroDivisionError <->
   exists y, years_of scada_df = Some y /\
             (y == 0 \/ potential == 0 \/
              (925 # 1000) * potential == avail + curtail + electrical)) /\
  (years_of scada_df = None ->
   eya_gap_analysis scada_df plant_df =
   inr {| Eya.turbine_energy := None; Eya.meter_energy := None;
          Eya.total_potential := None; Eya.avail_loss := None;
          Eya.curtail_loss := None; Eya.elec_loss := Some 0;
          Eya.gross_energy := None; Eya.wake_loss := None |}).
Proof.
  unfold eya_sums. cbv zeta.
  set (net := series_sum (map net_energy_kwh plant_df)).
  set (avail := series_sum (map availability_kwh plant_df)).
  set (curtail := series_sum (map curtailment_kwh plant_df)).
  set (T := series_sum (map P_avg scada_df) * (10 / 60)).
  set (E := if Qlt_le_dec net T then T - net else 0).
  set (P := net + avail + curtail).
  pose proof (years_of_spec scada_df) as Hyears.
  unfold eya_gap_analysis. cbv zeta. fold net avail curtail T P.
  destruct (years_of scada_df) as [y |].
  2:{ split; [intros e H; discriminate H |].
      split; [split; [intros H; discriminate H | intros (y & [=] & _)] | reflexivity]. }
  destruct Hyears as (Hy0 & _ & _).
  destruct (Qeq_dec y 0) as [Hz | Hnz].
  { rewrite (py_truediv_zero _ y Hz). simpl.
    split; [intros e [= <-]; reflexivity |].
    split; [| intros [=]]. split; [eauto | reflexivity]. }
  rewrite !(py_truediv_some _ y Hnz). cbn [bind].
  assert (Hypos : 0 < y) by lra.
  assert (Hel : (if Qlt_le_dec (net / 1000000 / y) (T / 1000000 / y)
                 then Some (T / 1000000 / y - net / 1000000 / y) else Some 0)
                = Some (if Qlt_le_dec (net / 1000000 / y) (T / 1000000 / y)
                        then T / 1000000 / y - net / 1000000 / y else 0))
    by (destruct (Qlt_le_dec (net / 1000000 / y) (T / 1000000 / y)); reflexivity).
  rewrite Hel. clear Hel.
  set (el := if Qlt_le_dec (net / 1000000 / y) (T / 1000000 / y)
             then T / 1000000 / y - net / 1000000 / y else 0).
  assert (HelE : el == E / 1000000 / y).
  { assert (Hiff : net / 1000000 / y < T / 1000000 / y <-> net < T).
    { split; intros H.
      - assert (H1 : net == net / 1000000 / y * (1000000 * y)) by (field; assumption).
        assert (H2 : T == T / 1000000 / y * (1000000 * y)) by (field; assumption).
        rewrite H1, H2. apply Qmult_lt_compat_r; [nra | assumption].
      - unfold Qdiv. apply Qmult_lt_compat_r; [apply Qinv_lt_0_compat; assumption |].
        apply Qmult_lt_compat_r; [reflexivity | assumption]. }
    unfold el, E. destruct (Qlt_le_dec (net / 1000000 / y) (T / 1000000 / y)) as [H | H],
      (Qlt_le_dec net T) as [H' | H'].
    - field. assumption.
    - apply Hiff in H. lra.
    - apply Hiff in H'. lra.
    - field. assumption. }
  destruct (Qeq_dec (P / 1000000 / y) 0) as [Htp | Htp].
  { rewrite (py_truediv_zero _ _ Htp). simpl.
    split; [intros e [= <-]; reflexivity |].
    split; [| intros [=]]. split; [| reflexivity].
    intros _. exists y. split; [reflexivity |]. right. left.
    now apply (per_year_zero P y Hnz). }
  rewrite !(py_truediv_some _ _ Htp). cbn [bind cell_map2].
  assert (HP : ~ P == 0) by (intros H; apply Htp; now apply per_year_zero).
  match goal with
  | |- context [py_truediv (Some (P / 1000000 / y)) (Some ?d)] => set (den := d)
  end.
  assert (Hden : den == 0 <-> (925 # 1000) * P == avail + curtail + E).
  { rewrite <- (eya_denominator y P avail curtail E Hnz HP). unfold den.
    rewrite HelE. reflexivity. }
  destruct (Qeq_dec den 0) as [Hd | Hd].
  - rewrite (py_truediv_zero _ _ Hd). simpl.
    split; [intros e [= <-]; reflexivity |].
    split; [| intros [=]]. split; [| reflexivity].
    intros _. exists y. split; [reflexivity |]. right. right. now apply Hden.
  - rewrite (py_truediv_some _ _ Hd). simpl.
    split; [intros e [=] |]. split; [| intros [=]].
    split; [intros [=] |]. intros (y' & [= <-] & [Hc | [Hc | Hc]]); exfalso; auto.
    apply Hd. now apply Hden.
Qed.

Lemma series_sum_zero {A} (f : A -> cell) (g : list A) :
  (forall r q, In r g -> f r = Some q -> q == 0) -> series_sum (map f g) == 0.
Proof.
  induction g as [| r g IH]; intros H; [reflexivity |].
  simpl map. rewrite series_sum_cons.
  assert (Hg : series_sum (map f g) == 0) by (apply IH; intros; eapply H; eauto; now right).
  destruct (f r) as [q |] eqn:Hf; [| lra].
  assert (q == 0) by (eapply H; eauto; now left). lra.
Qed.

(** The EYA analysis fails only by a division by zero. It does so whenever
    the frame has a valid stamp and all valid stamps lie less than a day
    apart ([years] is 0), and whenever the frame has a valid stamp and the
    plant table has no reading other than 0 and NaN, an empty table included
    (the potential energy is 0). Without a valid stamp it returns, every
    figure NaN and the electrical loss 0. *)
Theorem eya_gap_raises (scada_df : list scada_row) (plant_df : list plant_row) :
  (forall e, eya_gap_analysis scada_df plant_df = inl e -> e = ZeroDivisionError) /\
  ((exists r, In r scada_df /\ Date_time r <> None) ->
   (forall r r' s s', In r scada_df -> In r' scada_df ->
                      Date_time r = Some s -> Date_time r' = Some s' ->
                      (s' - s < 86400)%Z) ->
   eya_gap_analysis scada_df plant_df = inl ZeroDivisionError) /\
  ((exists r, In r scada_df /\ Date_time r <> None) ->
   (forall r q, In r plant_df ->
                net_energy_kwh r = Some q \/ availability_kwh r = Some q \/
                curtailment_kwh r = Some q -> q == 0) ->
   eya_gap_analysis scada_df plant_df = inl ZeroDivisionError) /\
  (years_of scada_df = None ->
   eya_gap_analysis scada_df plant_df =
   inr {| Eya.turbine_energy := None; Eya.meter_energy := None;
          Eya.total_potential := None; Eya.avail_loss := None;
          Eya.curtail_loss := None; Eya.elec_loss := Some 0;
          Eya.gross_energy := None; Eya.wake_loss := None |}).
Proof.
  pose proof (eya_zero_divisors scada_df plant_df) as H.
  unfold eya_sums in H. cbv zeta in H. destruct H as (Hkind & Hiff & Hnan).
  pose proof (years_of_spec scada_df) as Hy.
  assert (Hsome : (exists r, In r scada_df /\ Date_time r <> None) ->
                  exists y, years_of scada_df = Some y).
  { intros (r & Hr & Hvalid). destruct (years_of scada_df) as [y |]; [eauto |].
    exfalso. apply Hvalid. now apply Hy. }
  split; [exact Hkind |]. split; [| split; [| exact Hnan]].
  - intros Hex Hspan. destruct (Hsome Hex) as (y & Hyears).
    apply Hiff. exists y. split; [assumption |]. left.
    rewrite Hyears in Hy. now apply Hy.
  - intros Hex Hzero. destruct (Hsome Hex) as (y & Hyears).
    apply Hiff. exists y. split; [assumption |]. right. left.
    rewrite !series_sum_zero by (intros; eapply Hzero; eauto). reflexivity.
Qed.

(** *** The read-through cache *)

(** A frame once cached is served whatever the loader would return now, and
    a load touches no other key. *)
Theorem cached_frame_is_served (key : string) (loader_func later : result frame)
  (c c' : gmap string frame) (df : frame) :
  get_cached_data key loader_func c = (inr df, c') ->
  c' !! key = Some df /\
  (forall k, k <> key -> c' !! k = c !! k) /\
  get_cached_data key later c' = (inr df, c').
Proof.
  unfold get_cached_data. intros H.
  assert (Hkey : c' !! key = Some df /\ forall k, k <> key -> c' !! k = c !! k).
  { destruct (c !! key) as [d |] eqn:Hc.
    - injection H as <- <-. auto.
    - destruct loader_func as [e | d]; [discriminate |]. injection H as <- <-.
      split; [apply lookup_insert_eq |]. intros k Hk. now apply lookup_insert_ne. }
  destruct Hkey as [Hkey Hother]. split; [assumption |]. split; [assumption |].
  rewrite Hkey. reflexivity.
Qed.

(** A cached SCADA frame is served although the loader would now fail. *)
Lemma cached_frame_is_served_witness :
  exists df c',
    get_cached_data "scada" (load sample_parse Scada sample_disk) ∅ = (inr df, c') /\
    get_cached_data "scada" (inl (FileNotFoundError (path_of Scada))) c' = (inr df, c').
Proof.
  assert (H : exists df c',
            get_cached_data "scada" (load sample_parse Scada sample_disk) ∅ = (inr df, c'))
    by (eexists; eexists; vm_compute; reflexivity).
  destruct H as (df & c' & H). exists df, c'. split; [exact H |].
  exact (proj2 (proj2 (cached_frame_is_served _ _ _ _ _ _ H))).
Defined.

(** A loader that raises is not remembered: the cache stays as it was and the
    next call runs its loader. *)
Theorem failed_load_is_not_cached (key : string) (loader_func later : result frame)
  (c c' : gmap string frame) (e : exn) :
  get_cached_data key loader_func c = (inl e, c') ->
  c' = c /\ c !! key = None /\ loader_func = inl e /\
  get_cached_data key later c' =
    match later with
    | inl e' => (inl e', c)
    | inr df => (inr df, <[key := df]> c)
    end.
Proof.
  unfold get_cached_data. intros H.
  destruct (c !! key) as [d |] eqn:Hc; [discriminate |].
  destruct loader_func as [e' | d]; [| discriminate]. injection H as <- <-.
  rewrite Hc. repeat split; reflexivity.
Qed.

(** The plant file is missing from the sample disk: the failed load leaves
    the cache empty, and a later load that succeeds is cached. *)
Lemma failed_load_is_not_cached_witness :
  get_cached_data "plant" (load sample_parse Plant sample_disk) ∅ =
    (inl (FileNotFoundError (path_of Plant)), ∅) /\
  get_cached_data "plant" (inr (PlantTable [])) ∅ =
    (inr (PlantTable []), <["plant" := PlantTable []]> ∅).
Proof.
  assert (H : get_cached_data "plant" (load sample_parse Plant sample_disk) ∅ =
              (inl (FileNotFoundError (path_of Plant)), ∅)) by reflexivity.
  split; [exact H |].
  destruct (failed_load_is_not_cached _ _ (inr (PlantTable [])) _ _ _ H) as (_ & _ & _ & H2).
  exact H2.
Defined.

(** *** The analyses and the cache *)

Lemma grows_ret {A} (a : A) : grows_cache (ret a).
Proof. intros c. simpl. split; [auto | intros k H; now left]. Qed.

Lemma grows_raise {A} (e : exn) : grows_cache (raise e : M A).
Proof. intros c. simpl. split; [auto | intros k H; now left]. Qed.

Lemma grows_lift {A} (r : result A) : grows_cache (lift r).
Proof. intros c. simpl. split; [auto | intros k H; now left]. Qed.

Lemma grows_bind {A B} (m : M A) (k : A -> M B) :
  grows_cache m -> (forall a, grows_cache (k a)) -> grows_cache (bindM m k).
Proof.
  intros Hm Hk c. unfold bindM. specialize (Hm c).
  destruct (m c) as [[e | a] c1]; simpl in *; [exact Hm |].
  specialize (Hk a c1). destruct Hm as [Hm1 Hm2], Hk as [Hk1 Hk2]. split.
  - intros key df H. apply Hk1, Hm1, H.
  - intros key H. destruct (Hk2 key H) as [H1 | H1]; [apply Hm2, H1 | now right].
Qed.

Lemma grows_get (key : string) (loader_func : result frame) :
  In key analysis_keys -> grows_cache (get_cached_data key loader_func).
Proof.
  intros Hkey c. unfold get_cached_data.
  destruct (c !! key) as [d |] eqn:Hc; simpl; [split; [auto | intros k H; now left] |].
  destruct loader_func as [e | d]; simpl; [split; [auto | intros k H; now left] |].
  split.
  - intros k df H. destruct (decide (key = k)) as [<- | Hne]; [congruence |].
    now rewrite lookup_insert_ne.
  - intros k H. destruct (decide (key = k)) as [<- | Hne]; [now right |].
    rewrite lookup_insert_ne in H by assumption. now left.
Qed.

Lemma grows_route (parse_datetime : bool -> string -> stamp) (fs : disk)
  (analysis_type : string) (params : params_t) :
  grows_cache (route parse_datetime fs analysis_type params).
Proof.
  unfold route.
  repeat match goal with
         | |- context [if ?b then _ else _] => destruct b
         end;
    try apply grows_raise;
    unfold run_aep_analysis, run_electrical_losses_analysis, run_wake_losses_analysis,
      run_turbine_gross_energy_analysis, run_yaw_misalignment_analysis, run_eya_gap_analysis,
      cached;
    repeat (first [ apply grows_bind; [| intros ?]
                  | apply grows_get; simpl; tauto
                  | apply grows_lift | apply grows_ret ]).
Qed.

(** [run_analysis] never drops or replaces a cached frame, and whatever it
    adds is under one of the keys scada, plant, asset and era5. *)
Theorem run_analysis_grows_cache (parse_datetime : bool -> string -> stamp) (fs : disk)
  (openoa_available : bool) (clk : clock) (request : AnalysisRequest)
  (c : gmap string frame) :
  let c' := snd (run_analysis parse_datetime fs openoa_available clk request c) in
  (forall k df, c !! k = Some df -> c' !! k = Some df) /\
  (forall k, c' !! k <> None -> c !! k <> None \/ In k analysis_keys).
Proof.
  cbv zeta. unfold run_analysis.
  destruct openoa_available; simpl negb; cbv iota.
  2:{ simpl. split; [auto | intros k H; now left]. }
  pose proof (grows_route parse_datetime fs (analysis_type request)
                (match parameters request with Some p => p | None => ∅ end) c) as H.
  destruct (route _ _ _ _ c) as [[e | res] c1]; exact H.
Qed.

(** A frame cached under another key is still there after the yaw analysis. *)
Lemma run_analysis_grows_cache_witness :
  let c := <["merra2" := OtherTable []]> (∅ : gmap string frame) in
  snd (run_analysis sample_parse sample_disk true clock_fast yaw_request c) !! "merra2"
  = Some (OtherTable []).
Proof.
  cbv zeta.
  apply (proj1 (run_analysis_grows_cache sample_parse sample_disk true clock_fast
                  yaw_request _)).
  reflexivity.
Defined.

(** *** Routing *)

Lemma eqb_of_neq (a b : string) : a <> b -> String.eqb a b = false.
Proof. intros H. now apply String.eqb_neq. Qed.

(** An analysis type that is not routed is answered with status 500: the
    exception raised for it is caught by the handler of the [try]. The cache
    is left as it was. *)
Theorem unknown_analysis_type_is_http_500 (parse_datetime : bool -> string -> stamp)
  (fs : disk) (clk : clock) (request : AnalysisRequest) (c : gmap string frame) :
  ~ In (analysis_type request) known_analysis_types ->
  run_analysis parse_datetime fs true clk request c =
  (inl (Http500 (UnknownAnalysisType (analysis_type request))), c).
Proof.
  intros Hnot. unfold run_analysis, route. simpl negb. cbv iota.
  unfold known_analysis_types in Hnot. simpl in Hnot.
  rewrite !eqb_of_neq by (intros H; apply Hnot; rewrite H; tauto).
  reflexivity.
Qed.

(** The analysis type is matched by case: [AEP] is not routed. *)
Lemma unknown_analysis_type_is_http_500_witness :
  run_analysis sample_parse sample_disk true clock_fast
    {| analysis_type := "AEP"; use_example_data := true; parameters := None |} ∅ =
  (inl (Http500 (UnknownAnalysisType "AEP")), ∅).
Proof.
  apply unknown_analysis_type_is_http_500. simpl.
  intros [H | [H | [H | [H | [H | [H | [H | []]]]]]]]; discriminate H.
Defined.

Lemma run_fails_at_first_load {A B} (m : M A) (k : A -> M B) (e : exn)
  (c : gmap string frame) :
  m c = (inl e, c) -> bindM m k c = (inl e, c).
Proof. intros H. unfold bindM. rewrite H. reflexivity. Qed.

(** Every analysis loads the SCADA file first: with that file absent and
    nothing cached for it, every routed analysis type is answered with
    status 500 carrying the [FileNotFoundError], and nothing else is loaded. *)
Theorem every_analysis_needs_the_scada_file (parse_datetime : bool -> string -> stamp)
  (fs : disk) (clk : clock) (request : AnalysisRequest) (c : gmap string frame) :
  In (analysis_type request) known_analysis_types ->
  fs !! path_of Scada = None ->
  c !! "scada" = None ->
  run_analysis parse_datetime fs true clk request c =
  (inl (Http500 (FileNotFoundError (path_of Scada))), c).
Proof.
  intros Hin Hfs Hc.
  assert (Hcached : cached parse_datetime fs Scada c
                    = (inl (FileNotFoundError (path_of Scada)), c)).
  { unfold cached, get_cached_data. change (key_of Scada) with "scada". rewrite Hc.
    rewrite (load_absent parse_datetime Scada fs Hfs). reflexivity. }
  unfold run_analysis. simpl negb. cbv iota.
  set (params := match parameters request with Some p => p | None => ∅ end).
  assert (Hroute : route parse_datetime fs (analysis_type request) params c
                   = (inl (FileNotFoundError (path_of Scada)), c)).
  { unfold known_analysis_types in Hin. simpl in Hin.
    destruct Hin as [<- | [<- | [<- | [<- | [<- | [<- | [<- | []]]]]]]];
      unfold route;
      repeat match goal with
             | |- context [String.eqb ?a ?b] =>
                 let v := eval vm_compute in (String.eqb a b) in
                 change (String.eqb a b) with v
             end;
      cbn [orb];
      unfold run_aep_analysis, run_electrical_losses_analysis, run_wake_losses_analysis,
        run_turbine_gross_energy_analysis, run_yaw_misalignment_analysis,
        run_eya_gap_analysis;
      apply run_fails_at_first_load; exact Hcached. }
  rewrite Hroute. reflexivity.
Qed.

(** The AEP analysis on the sample disk without its SCADA file. *)
Lemma every_analysis_needs_the_scada_file_witness :
  run_analysis sample_parse (delete (path_of Scada) sample_disk) true clock_fast
    aep_request ∅ =
  (inl (Http500 (FileNotFoundError (path_of Scada))), ∅).
Proof.
  apply every_analysis_needs_the_scada_file.
  - simpl. tauto.
  - reflexivity.
  - reflexivity.
Defined.

(** *** The overall wake loss *)






(** *** Wind rose *)

(** Every row the wind rose keeps as valid falls in exactly one emitted
    sector: the sector counts add up to [total_count], and no emitted sector
    is empty. *)
Theorem wind_rose_counts_every_valid_row (turbine_id : option string)
  (scada_df : list scada_row) :
  let df := wind_rose_frame turbine_id scada_df in
  (forall r, In r df -> exists i, (i < 16)%nat /\ rose_dir_bin r = Some i) /\
  list_sum (map rs_count (wind_rose turbine_id scada_df)) = length df /\
  Forall (fun s => (0 < rs_count s)%nat) (wind_rose turbine_id scada_df).
Proof.
  cbv zeta. split; [| split].
  - intros r Hr. apply wind_rose_frame_binned in Hr.
    destruct (rose_dir_bin r) as [i |] eqn:Hi; [| congruence].
    exists i. split; [| reflexivity]. apply cut_bound in Hi. exact Hi.
  - apply wind_rose_counts.
  - eapply Forall_impl; [| apply wind_rose_min_count]. intros s Hs. simpl in Hs. lia.
Qed.

(** *** Power curve *)

(** For a bin width [1 / 2^k] with [k] at most 10, whose edges numpy
    computes exactly: of the rows the power curve keeps as valid, those with
    a wind speed of exactly 0 are the only ones that fall in no bin. *)
Theorem power_curve_drops_calm_rows (turbine_id : option string) (bin_width : Q) (k : nat)
  (scada_df : list scada_row) (r : scada_row) :
  (k <= 10)%nat -> bin_width == 1 / inject_Z (2 ^ Z.of_nat k) ->
  In r (power_curve_frame turbine_id scada_df) ->
  (ws_bin bin_width r = None <-> exists w, Ws_avg r = Some w /\ w == 0).
Proof.
  intros _ Hwidth Hr.
  assert (Hbw : 0 < bin_width).
  { rewrite Hwidth. apply Qlt_shift_div_l; [| lra].
    change 0 with (inject_Z 0). rewrite <- Zlt_Qlt. apply Z.pow_pos_nonneg; lia. }
  unfold power_curve_frame in Hr.
  apply power_curve_valid_In in Hr as (_ & p & w & _ & _ & Hw & Hw0 & Hw30).
  destruct (ws_bins_length bin_width Hbw) as [Hlen Hlast].
  unfold ws_bin. rewrite Hw.
  rewrite (cut_none_iff false (ws_bins bin_width) w
             (0 + inject_Z (Z.of_nat 0) * bin_width)
             (0 + inject_Z (Z.of_nat (length (ws_bins bin_width) - 1)) * bin_width)).
  - split.
    + intros [H | H]; [| lra]. exists w. split; [reflexivity |].
      change (inject_Z (Z.of_nat 0)) with 0 in H. lra.
    + intros (w' & [= <-] & Hz). left. change (inject_Z (Z.of_nat 0)) with 0. lra.
  - apply arange_sorted. assumption.
  - apply nth_error_arange. fold (ws_bins bin_width). lia.
  - apply nth_error_arange. fold (ws_bins bin_width). lia.
  - assumption.
Qed.

(** With the default bin width of 0.5 a row at 0 m/s falls in no bin and a
    row at 30 m/s falls in one. *)
Lemma power_curve_drops_calm_rows_witness :
  ws_bin (1 # 2) (reading "T1" 0 0 0 0 0) = None /\
  ws_bin (1 # 2) (reading "T1" 0 2000 30 0 0) <> None.
Proof.
  split.
  - apply (power_curve_drops_calm_rows None (1 # 2) 1 [reading "T1" 0 0 0 0 0]).
    + lia.
    + reflexivity.
    + vm_compute. left. reflexivity.
    + exists 0. split; reflexivity.
  - intros H.
    apply (power_curve_drops_calm_rows None (1 # 2) 1 [reading "T1" 0 2000 30 0 0]) in H.
    + destruct H as (w & [= <-] & Hz). discriminate Hz.
    + lia.
    + reflexivity.
    + vm_compute. left. reflexivity.
Defined.

(** *** Availability *)

Lemma share_bounds (x p : Q) : 0 < p -> 0 <= x -> x <= p -> 0 <= x / p /\ x / p <= 1.
Proof.
  intros Hp H0 H1. split.
  - apply Qle_shift_div_l; [assumption | lra].
  - apply Qle_shift_div_r; [assumption | lra].
Qed.

(** With no negative reading in the plant table, the overall availability
    and curtailment percentages lie between 0 and 100, curtailment never
    above availability: their difference is the share of the net energy in
    the potential energy. *)
Theorem availability_shares (plant_df : list plant_row) :
  (forall r q, In r plant_df ->
               net_energy_kwh r = Some q \/ availability_kwh r = Some q \/
               curtailment_kwh r = Some q -> 0 <= q) ->
  let a := availability_overall plant_df in
  0 <= Availability.overall_curtailment_percent a /\
  Availability.overall_curtailment_percent a <= Availability.overall_availability_percent a /\
  Availability.overall_availability_percent a <= 100 /\
  (Availability.overall_availability_percent a - Availability.overall_curtailment_percent a)
    * Availability.total_potential a == 100 * Availability.total_net a.
Proof.
  intros Hpos. cbv zeta. unfold availability_overall. simpl.
  assert (Hn : 0 <= series_sum (map net_energy_kwh plant_df))
    by (apply series_sum_nonneg; intros; eapply Hpos; eauto).
  assert (Ha : 0 <= series_sum (map availability_kwh plant_df))
    by (apply series_sum_nonneg; intros; eapply Hpos; eauto).
  assert (Hc : 0 <= series_sum (map curtailment_kwh plant_df))
    by (apply series_sum_nonneg; intros; eapply Hpos; eauto).
  set (n := series_sum (map net_energy_kwh plant_df)) in *.
  set (a := series_sum (map availability_kwh plant_df)) in *.
  set (c := series_sum (map curtailment_kwh plant_df)) in *.
  set (p := n + a + c).
  assert (Hpn : p == n + a + c) by reflexivity. clearbody p.
  destruct (Qlt_le_dec 0 p) as [Hp | Hp].
  - destruct (share_bounds a p Hp Ha) as [Ha0 Ha1]; [lra |].
    destruct (share_bounds c p Hp Hc) as [Hc0 Hc1]; [lra |].
    destruct (share_bounds n p Hp Hn) as [Hn0 Hn1]; [lra |].
    assert (Hap : a / p * p == a) by (field; lra).
    assert (Hcp : c / p * p == c) by (field; lra).
    assert (Hnp : n / p * p == n) by (field; lra).
    set (x := a / p) in *. set (y := c / p) in *. set (z := n / p) in *.
    assert (Hsum : x + y + z == 1) by nra.
    split; [lra |]. split; [lra |]. split; [lra |].
    assert (E : ((1 - x) * 100 - y * 100) * p == 100 * (z * p)).
    { assert (E0 : (1 - x) * 100 - y * 100 == 100 * z) by lra. rewrite E0. ring. }
    rewrite E, Hnp. reflexivity.
  - split; [lra |]. split; [lra |]. split; [lra |].
    assert (n == 0) by lra. assert (a == 0) by lra. assert (c == 0) by lra. nra.
Qed.

(** The sample plant table, one of whose availability readings is missing. *)
Lemma availability_shares_witness :
  let a := availability_overall plant_sample in
  0 <= Availability.overall_curtailment_percent a /\
  Availability.overall_curtailment_percent a <= Availability.overall_availability_percent a /\
  Availability.overall_availability_percent a <= 100 /\
  (Availability.overall_availability_percent a - Availability.overall_curtailment_percent a)
    * Availability.total_potential a == 100 * Availability.total_net a.
Proof.
  apply (availability_shares plant_sample).
  intros r q [<- | [<- | []]] [H | [H | H]]; simpl in H;
    try discriminate H; injection H as <-; discriminate.
Defined.

(** *** The electrical loss, in the electrical analysis and in the EYA analysis *)

Lemma per_year_lt (a b y : Q) : 0 < y -> (a / 1000000 / y < b / 1000000 / y <-> a < b).
Proof.
  intros Hy. split; intros H.
  - assert (H1 : a == a / 1000000 / y * (1000000 * y)) by (field; lra).
    assert (H2 : b == b / 1000000 / y * (1000000 * y)) by (field; lra).
    rewrite H1, H2. apply Qmult_lt_compat_r; [nra | assumption].
  - unfold Qdiv. apply Qmult_lt_compat_r; [apply Qinv_lt_0_compat; assumption |].
    apply Qmult_lt_compat_r; [reflexivity | assumption].
Qed.

(** When the turbines produced energy and the EYA analysis returns: if the
    frame has a valid stamp, [years] is positive and the yearly electrical
    loss of the EYA analysis is the loss of the electrical analysis spread
    over the years, except that a negative loss is replaced by 0; if the
    frame has no valid stamp, the electrical loss of the EYA analysis is 0
    whatever the electrical analysis finds. *)
Theorem eya_electrical_loss_is_clamped (scada_df : list scada_row)
  (plant_df : list plant_row) (g : Eya.t) :
  0 < Electrical.turbine_energy_kwh (electrical_losses_analysis scada_df plant_df) ->
  eya_gap_analysis scada_df plant_df = inr g ->
  let loss := Electrical.electrical_loss_kwh (electrical_losses_analysis scada_df plant_df) in
  (years_of scada_df = None -> Eya.elec_loss g = Some 0) /\
  (forall y, years_of scada_df = Some y ->
     0 < y /\
     exists e, Eya.elec_loss g = Some e /\
               (0 <= loss -> e * 1000000 * y == loss) /\
               (loss <= 0 -> e == 0)).
Proof.
  intros Hpos Hg. cbv zeta. split.
  { intros Hnone.
    pose proof (eya_zero_divisors scada_df plant_df) as Hz.
    unfold eya_sums in Hz. cbv zeta in Hz. destruct Hz as (_ & _ & Hnan).
    rewrite (Hnan Hnone) in Hg. injection Hg as <-. reflexivity. }
  intros y Hyears.
  pose proof (years_of_spec scada_df) as Hspec. rewrite Hyears in Hspec.
  destruct Hspec as (Hy0 & _ & _).
  unfold electrical_losses_analysis in *. cbv zeta in *.
  set (T := series_sum (map P_avg scada_df) * (10 / 60)) in *.
  set (net := series_sum (map net_energy_kwh plant_df)) in *.
  destruct (Qlt_le_dec 0 T) as [HT | HT]; simpl in Hpos; [| lra]. simpl.
  unfold eya_gap_analysis in Hg. cbv zeta in Hg. fold net in Hg.
  rewrite Hyears in Hg.
  destruct (Qeq_dec y 0) as [Hz | Hnz];
    [rewrite (py_truediv_zero _ y Hz) in Hg; discriminate Hg |].
  assert (Hy : 0 < y) by lra. split; [assumption |].
  rewrite !(py_truediv_some _ y Hnz) in Hg. cbn [bind] in Hg.
  change (series_sum (map P_avg scada_df) * (10 / 60) / 1000000 / y)
    with (T / 1000000 / y) in Hg.
  pose proof (per_year_lt net T y Hy) as Hlt.
  destruct (Qlt_le_dec (net / 1000000 / y) (T / 1000000 / y)) as [Hc | Hc].
  - exists (T / 1000000 / y - net / 1000000 / y).
    split.
    + repeat match type of Hg with
             | bind ?m _ = inr _ => destruct m; [discriminate Hg | cbn [bind] in Hg]
             end.
      injection Hg as <-. reflexivity.
    + apply Hlt in Hc. split; intros H; [field; assumption | lra].
  - exists 0. split.
    + repeat match type of Hg with
             | bind ?m _ = inr _ => destruct m; [discriminate Hg | cbn [bind] in Hg]
             end.
      injection Hg as <-. reflexivity.
    + assert (~ net < T) by (intros H; apply Hlt in H; lra).
      split; intros H'; [| reflexivity]. assert (T - net == 0) by lra. nra.
Qed.

(** Two days of SCADA rows against the sample plant table: the meter reads
    more than the turbines produced, and the yearly electrical loss is 0. *)
Lemma eya_electrical_loss_is_clamped_witness :
  exists g e, eya_gap_analysis scada_two_days plant_sample = inr g /\
              Eya.elec_loss g = Some e /\ e == 0.
Proof.
  destruct (eya_gap_analysis scada_two_days plant_sample) as [x | g] eqn:Hg;
    [vm_compute in Hg; discriminate Hg |].
  destruct (eya_electrical_loss_is_clamped scada_two_days plant_sample g) as (_ & Hsome).
  - reflexivity.
  - exact Hg.
  - destruct (Hsome (inject_Z 2 / (36525 # 100)) eq_refl) as (_ & e & He & _ & Hzero).
    exists g, e. split; [reflexivity |]. split; [assumption |].
    apply Hzero. vm_compute. discriminate.
Defined.

(** *** Instances *)

(** Three rows within twenty minutes. *)
Lemma gross_energy_raises_on_short_span_witness :
  turbine_gross_energy_analysis scada_three era5_two = inl ZeroDivisionError.
Proof.
  apply (gross_energy_raises_on_short_span scada_three era5_two). split.
  - exists (reading "T1" 0 100 6 15 0). split; [left; reflexivity | discriminate].
  - intros r r' s s' Hr Hr' Hs Hs'.
    destruct Hr as [<- | [<- | [<- | []]]], Hr' as [<- | [<- | [<- | []]]];
      injection Hs as <-; injection Hs' as <-; lia.
Defined.

(** Three rows within twenty minutes, whatever the plant table; two days of
    SCADA rows against an empty plant table. *)
Lemma eya_gap_raises_witness :
  eya_gap_analysis scada_three plant_sample = inl ZeroDivisionError /\
  eya_gap_analysis scada_two_days [] = inl ZeroDivisionError.
Proof.
  destruct (eya_gap_raises scada_three plant_sample) as (_ & Hshort & _).
  destruct (eya_gap_raises scada_two_days []) as (_ & _ & Hempty & _).
  split.
  - apply Hshort.
    + exists (reading "T1" 0 100 6 15 0). split; [left; reflexivity | discriminate].
    + intros r r' s s' Hr Hr' Hs Hs'.
      destruct Hr as [<- | [<- | [<- | []]]], Hr' as [<- | [<- | [<- | []]]];
        injection Hs as <-; injection Hs' as <-; lia.
  - apply Hempty.
    + exists (reading "T2" 0 400 6 15 0). split; [left; reflexivity | discriminate].
    + intros r q [].
Defined.

(** Two days of rows of two turbines: the loop of the summary returns, and
    the row counts of the turbines add up to 3. Three rows within twenty
    minutes: it fails. *)
Lemma summary_totals_add_up_witness :
  (exists stats, Summary.turbine_stats scada_two_days = inr stats /\
                 map Summary.turbine_id stats = ["T1"; "T2"] /\
                 list_sum (map Summary.data_points stats) = 3%nat) /\
  Summary.turbine_stats scada_three = inl ZeroDivisionError.
Proof.
  destruct (summary_totals_add_up scada_two_days) as (Hok & _ & _).
  destruct (summary_totals_add_up scada_three) as (_ & _ & Hraise).
  split.
  - destruct (Summary.turbine_stats scada_two_days) as [e | stats] eqn:E.
    + exfalso. vm_compute in E. discriminate.
    + exists stats. destruct (Hok stats eq_refl) as (Hids & _ & _ & _ & Hn).
      split; [reflexivity |]. split; [rewrite Hids; vm_compute; reflexivity | exact Hn].
  - apply Hraise. split.
    + exists (reading "T1" 0 100 6 15 0). split; [left; reflexivity | discriminate].
    + intros r r' s s' Hr Hr' Hs Hs'.
      destruct Hr as [<- | [<- | [<- | []]]], Hr' as [<- | [<- | [<- | []]]];
        injection Hs as <-; injection Hs' as <-; lia.
Defined.


(** *** The AEP analysis on a short span *)

Lemma mapM_first_error {A B} (f : A -> result B) (l : list A) (e : exn) :
  (forall a, In a l -> f a = inl e \/ exists b, f a = inr b) ->
  (exists a, In a l /\ f a = inl e) ->
  mapM f l = inl e.
Proof.
  induction l as [| a l IH]; intros Hall (a0 & Hin & Ha0); [destruct Hin |].
  simpl. destruct (Hall a (or_introl eq_refl)) as [-> | (b & Hb)]; [reflexivity |].
  rewrite Hb. cbn [bind].
  rewrite IH; [reflexivity | intros; apply Hall; now right |].
  destruct Hin as [<- | Hin]; [congruence | eauto].
Qed.

Lemma month_entry_zero_years (scada_df : list scada_row) (y : Q) (factor : pynum) (m : Z) :
  y == 0 ->
  (Aep.month_df scada_df m <> [] ->
   Aep.month_entry scada_df (Some y) factor m = inl ZeroDivisionError) /\
  (Aep.month_df scada_df m = [] -> Aep.month_entry scada_df (Some y) factor m = inr []).
Proof.
  intros Hy. unfold Aep.month_entry.
  destruct (Aep.month_df scada_df m) as [| r rows]; split; try congruence.
  intros _. rewrite (py_truediv_zero _ y Hy). reflexivity.
Qed.

(** Whenever some row has a valid stamp and all valid stamps lie less than a
    day apart, the AEP analysis raises [ZeroDivisionError]: [years] is 0, and
    the first month that holds a row divides by it. *)
Theorem aep_raises_on_short_span (scada_df : list scada_row) (era5_df : list era5_row) :
  (exists r, In r scada_df /\ Date_time r <> None) ->
  (forall r r' s s', In r scada_df -> In r' scada_df ->
                     Date_time r = Some s -> Date_time r' = Some s' ->
                     (s' - s < 86400)%Z) ->
  aep_analysis scada_df era5_df = inl ZeroDivisionError.
Proof.
  intros (r & Hr & Hvalid) Hspan.
  pose proof (years_of_spec scada_df) as Hy.
  destruct (years_of scada_df) as [y |] eqn:Hyears;
    [| exfalso; apply Hvalid; now apply Hy].
  destruct Hy as (_ & _ & Hiff). apply Hiff in Hspan.
  unfold aep_analysis, long_term_correction. cbv zeta. rewrite Hyears.
  set (factor := ltm_correction_factor _ _).
  rewrite (mapM_first_error (Aep.month_entry scada_df (Some y) factor)
             (map Z.of_nat (seq 1 12)) ZeroDivisionError); [reflexivity | |].
  - intros m _.
    destruct (month_entry_zero_years scada_df y factor m Hspan) as [Hfull Hempty].
    destruct (Aep.month_df scada_df m) as [| r0 rows] eqn:Hm.
    + right. exists []. now apply Hempty.
    + left. apply Hfull. discriminate.
  - destruct (Date_time r) as [s |] eqn:Hs; [| congruence].
    exists (month_of s). split; [apply month_in_year |].
    apply (month_entry_zero_years scada_df y factor (month_of s) Hspan).
    intros Hnil.
    assert (Hin : In r (Aep.month_df scada_df (month_of s))).
    { unfold Aep.month_df. apply filter_In. split; [assumption |].
      cbv beta. unfold stamp in *. rewrite Hs. apply Z.eqb_refl. }
    rewrite Hnil in Hin. destruct Hin.
Qed.

(** The three rows of the specification's example, 10 minutes apart. *)
Lemma aep_raises_on_short_span_witness :
  aep_analysis scada_three era5_two = inl ZeroDivisionError.
Proof.
  apply (aep_raises_on_short_span scada_three era5_two).
  - exists (reading "T1" 0 100 6 15 0). split; [left; reflexivity | discriminate].
  - intros r r' s s' Hr Hr' Hs Hs'.
    destruct Hr as [<- | [<- | [<- | []]]], Hr' as [<- | [<- | [<- | []]]];
      injection Hs as <-; injection Hs' as <-; lia.
Defined.
